(** * Timeline composition and rendering engine: a shallow embedding

  The definitions below follow [VideoComposerModule.tsx] (timeline
  normalisation, media drawing, transition overlays, the frame renderer,
  the duration advisory and the export guard) and the zustand store
  [useAppStore] (audio list and active-audio selection).

  JavaScript numbers are modelled as exact rationals extended with
  [NaN] and the two infinities: comparisons, [Math.max], [Math.min],
  [Math.abs], truthiness and the [Number.isFinite] test behave as in
  JavaScript on those values; binary64 rounding and the sign of zero are
  not modelled. *)

From Stdlib Require Import ZArith QArith Qround Qabs Lqa Lia List String Bool.
Import ListNotations.

Local Open Scope Z_scope.

(** ** JavaScript numbers *)

Module Num.

Inductive number : Type :=
| NaN
| NegInf
| PosInf
| Fin (q : Q).

Definition Qlt_bool (x y : Q) : bool := negb (Qle_bool y x).

Definition ofZ (z : Z) : number := Fin (inject_Z z).

Definition isNaN (x : number) : bool :=
  match x with NaN => true | _ => false end.

Definition isFinite (x : number) : bool :=
  match x with Fin _ => true | _ => false end.

(** Truthiness of a number: [0] and [NaN] are falsy. *)
Definition truthy (x : number) : bool :=
  match x with
  | NaN => false
  | Fin q => negb (Qeq_bool q 0)
  | _ => true
  end.

(** [a || b] on numbers. *)
Definition orElse (a b : number) : number := if truthy a then a else b.

Definition neg (x : number) : number :=
  match x with
  | NaN => NaN
  | NegInf => PosInf
  | PosInf => NegInf
  | Fin q => Fin (- q)
  end.

Definition add (x y : number) : number :=
  match x, y with
  | NaN, _ | _, NaN => NaN
  | PosInf, NegInf | NegInf, PosInf => NaN
  | PosInf, _ | _, PosInf => PosInf
  | NegInf, _ | _, NegInf => NegInf
  | Fin a, Fin b => Fin (a + b)
  end.

Definition sub (x y : number) : number :=
  match x, y with
  | NaN, _ | _, NaN => NaN
  | PosInf, PosInf | NegInf, NegInf => NaN
  | PosInf, _ | _, NegInf => PosInf
  | NegInf, _ | _, PosInf => NegInf
  | Fin a, Fin b => Fin (a - b)
  end.

(** Sign of a rational as an infinity, used by [mul] and [div]. *)
Definition signedInf (positive : bool) : number :=
  if positive then PosInf else NegInf.

Definition mul (x y : number) : number :=
  match x, y with
  | NaN, _ | _, NaN => NaN
  | Fin a, Fin b => Fin (a * b)
  | PosInf, PosInf | NegInf, NegInf => PosInf
  | PosInf, NegInf | NegInf, PosInf => NegInf
  | PosInf, Fin q | Fin q, PosInf =>
      if Qeq_bool q 0 then NaN else signedInf (Qlt_bool 0 q)
  | NegInf, Fin q | Fin q, NegInf =>
      if Qeq_bool q 0 then NaN else signedInf (Qlt_bool q 0)
  end.

Definition div (x y : number) : number :=
  match x, y with
  | NaN, _ | _, NaN => NaN
  | Fin a, Fin b =>
      if Qeq_bool b 0
      then (if Qeq_bool a 0 then NaN else signedInf (Qlt_bool 0 a))
      else Fin (a / b)
  | Fin _, _ => Fin 0
  | _, PosInf | _, NegInf => NaN
  | PosInf, Fin b => signedInf (Qle_bool 0 b)
  | NegInf, Fin b => signedInf (Qlt_bool b 0)
  end.

(** [x < y]; false as soon as one side is [NaN]. *)
Definition lt (x y : number) : bool :=
  match x, y with
  | NaN, _ | _, NaN => false
  | _, NegInf => false
  | NegInf, _ => true
  | PosInf, _ => false
  | _, PosInf => true
  | Fin a, Fin b => Qlt_bool a b
  end.

(** [x <= y]; false as soon as one side is [NaN]. *)
Definition le (x y : number) : bool :=
  match x, y with
  | NaN, _ | _, NaN => false
  | NegInf, _ => true
  | _, PosInf => true
  | _, NegInf => false
  | PosInf, _ => false
  | Fin a, Fin b => Qle_bool a b
  end.

Definition gt (x y : number) : bool := lt y x.
Definition ge (x y : number) : bool := le y x.

(** [Math.max] and [Math.min] on two arguments. *)
Definition max (x y : number) : number :=
  match x, y with
  | NaN, _ | _, NaN => NaN
  | _, _ => if lt x y then y else x
  end.

Definition min (x y : number) : number :=
  match x, y with
  | NaN, _ | _, NaN => NaN
  | _, _ => if lt y x then y else x
  end.

Definition abs (x : number) : number :=
  match x with
  | NaN => NaN
  | NegInf | PosInf => PosInf
  | Fin q => Fin (Qabs q)
  end.

(** The number denoted by the decimal string [x.toFixed(2)]: the nearest
    multiple of 1/100, ties away from zero.  [NaN] and the infinities
    print as words, which denote themselves here. *)
Definition toFixed2 (x : number) : number :=
  match x with
  | Fin q =>
      if Qlt_bool q 0
      then Fin (- (Qfloor (- q * 100 + (1 # 2)) # 100))
      else Fin (Qfloor (q * 100 + (1 # 2)) # 100)
  | _ => x
  end.

(** Equality of values (two representations of one rational are the
    same number; [NaN] is related to itself so that the relation is an
    equivalence on results). *)
Definition same (x y : number) : Prop :=
  match x, y with
  | NaN, NaN | PosInf, PosInf | NegInf, NegInf => True
  | Fin a, Fin b => a == b
  | _, _ => False
  end.

End Num.

Import Num.

(** ** The application store ([useAppStore]) *)

(** [GeneratedAudio]; the [blob] and the voice [settings] other than the
  voice id play no part in the engine and are left out. *)
Module GeneratedAudio.
Record t : Type := mk {
  id : string;
  name : string;
  url : string;
  durationEstimateSeconds : number;
  durationSeconds : number;
  createdAt : number;
  voiceId : string
}.
End GeneratedAudio.

Inductive MediaKind : Type := image | video.

(** [MediaAsset]; [duration] is optional in the source, the [file] handle
  is left out. *)
Module MediaAsset.
Record t : Type := mk {
  id : string;
  kind : MediaKind;
  name : string;
  url : string;
  duration : option number
}.
End MediaAsset.

Inductive TransitionType : Type :=
| nenhuma
| crossfade
| fade_in
| cine_sweep
| white_flash.

Module TimelineClip.
Record t : Type := mk {
  id : string;
  mediaId : string;
  start : number;
  duration : number;
  transition : TransitionType
}.

(** [{ ...clip, start: cursor }] *)
Definition withStart (clip : t) (cursor : number) : t :=
  mk (id clip) (mediaId clip) cursor (duration clip) (transition clip).
End TimelineClip.

Inductive ComposerMode : Type := simples | avancado.

Module AppState.
Record t : Type := mk {
  audios : list GeneratedAudio.t;
  mediaLibrary : list MediaAsset.t;
  timeline : list TimelineClip.t;
  mode : ComposerMode;
  activeAudioId : option string
}.
End AppState.

Module Store.
Import AppState.

Definition initial : AppState.t := mk [] [] [] simples None.

Definition addAudio (audio : GeneratedAudio.t) (state : AppState.t) : AppState.t :=
  mk (audio :: audios state) (mediaLibrary state) (timeline state) (mode state)
     (Some (GeneratedAudio.id audio)).

Definition setActiveAudio (id : option string) (state : AppState.t) : AppState.t :=
  mk (audios state) (mediaLibrary state) (timeline state) (mode state) id.

(** [state.activeAudioId === id] for a string [id]: [null] is never equal. *)
Definition isActive (state : AppState.t) (id : string) : bool :=
  match activeAudioId state with
  | Some a => String.eqb a id
  | None => false
  end.

Definition removeAudio (id : string) (state : AppState.t) : AppState.t :=
  let remaining :=
    filter (fun audio => negb (String.eqb (GeneratedAudio.id audio) id)) (audios state) in
  let nextActive :=
    if isActive state id
    then match remaining with
         | first :: _ => Some (GeneratedAudio.id first)
         | [] => None
         end
    else activeAudioId state in
  mk remaining (mediaLibrary state) (timeline state) (mode state) nextActive.

Definition removeMedia (id : string) (state : AppState.t) : AppState.t :=
  mk (audios state)
     (filter (fun asset => negb (String.eqb (MediaAsset.id asset) id)) (mediaLibrary state))
     (filter (fun clip => negb (String.eqb (TimelineClip.mediaId clip) id)) (timeline state))
     (mode state) (activeAudioId state).

Definition setTimeline (clips : list TimelineClip.t) (state : AppState.t) : AppState.t :=
  mk (audios state) (mediaLibrary state) clips (mode state) (activeAudioId state).

(** The active-audio reference is valid when it is [null] or names an
    audio of the list. *)
Definition activeValid (state : AppState.t) : Prop :=
  match activeAudioId state with
  | None => True
  | Some a => exists audio, In audio (audios state) /\ GeneratedAudio.id audio = a
  end.

End Store.

(** ** Arrays *)

Module Array.

Fixpoint findIndexFrom {A : Type} (p : A -> bool) (l : list A) (i : Z) : Z :=
  match l with
  | [] => -1
  | x :: rest => if p x then i else findIndexFrom p rest (i + 1)
  end.

(** [l.findIndex(p)]: the first index whose element satisfies [p], or -1. *)
Definition findIndex {A : Type} (p : A -> bool) (l : list A) : Z :=
  findIndexFrom p l 0.

(** [l[i]]: [undefined] outside [0 .. length-1]. *)
Definition at_ {A : Type} (l : list A) (i : Z) : option A :=
  if i <? 0 then None else nth_error l (Z.to_nat i).

Definition length {A : Type} (l : list A) : Z := Z.of_nat (List.length l).

End Array.

(** ** The canvas *)

Module Canvas.

Definition CANVAS_WIDTH : number := ofZ 1280.
Definition CANVAS_HEIGHT : number := ofZ 720.

(** A fill style: a hexadecimal colour, or [rgba(r,g,b,a)]. *)
Inductive style : Type :=
| Hex (code : string)
| Rgba (r g b : Z) (a : number).

Inductive composite : Type := source_over | destination_out.

(** The part of the drawing state the component touches. *)
Record drawState : Type := mkState {
  fillStyle : style;
  globalAlpha : number;
  globalCompositeOperation : composite
}.

(** A media element held by the cache.  A video carries its playback
    position, which [drawMedia] assigns when it seeks. *)
Inductive element : Type :=
| ImageEl (complete : bool) (naturalWidth naturalHeight : number)
| VideoEl (readyState : Z) (currentTime duration videoWidth videoHeight : number).

(** A painting operation together with the drawing state it ran in. *)
Inductive drawOp : Type :=
| FillRect (s : drawState) (x y w h : number)
| DrawImage (s : drawState) (source : element) (x y w h : number).

Record ctx : Type := mkCtx {
  state : drawState;
  saved : list drawState;
  ops : list drawOp
}.

Definition defaultState : drawState := mkState (Hex "#000000") (Fin 1) source_over.

Definition save (c : ctx) : ctx := mkCtx (state c) (state c :: saved c) (ops c).

Definition restore (c : ctx) : ctx :=
  match saved c with
  | [] => c
  | s :: rest => mkCtx s rest (ops c)
  end.

(** A colour whose alpha does not print as a number is not a colour, and
    the assignment is ignored. *)
Definition validStyle (s : style) : bool :=
  match s with
  | Hex _ => true
  | Rgba _ _ _ a => isFinite a
  end.

Definition setFillStyle (c : ctx) (s : style) : ctx :=
  if validStyle s
  then mkCtx (mkState s (globalAlpha (state c)) (globalCompositeOperation (state c)))
             (saved c) (ops c)
  else c.

(** [ctx.globalAlpha = a] is ignored unless [a] lies in [0, 1]. *)
Definition setGlobalAlpha (c : ctx) (a : number) : ctx :=
  if le (Fin 0) a && le a (Fin 1)
  then mkCtx (mkState (fillStyle (state c)) a (globalCompositeOperation (state c)))
             (saved c) (ops c)
  else c.

Definition setComposite (c : ctx) (m : composite) : ctx :=
  mkCtx (mkState (fillStyle (state c)) (globalAlpha (state c)) m) (saved c) (ops c).

Definition allFinite (x y w h : number) : bool :=
  isFinite x && isFinite y && isFinite w && isFinite h.

(** Painting calls with a non-finite argument return without painting. *)
Definition fillRect (c : ctx) (x y w h : number) : ctx :=
  if allFinite x y w h
  then mkCtx (state c) (saved c) (ops c ++ [FillRect (state c) x y w h])
  else c.

Definition drawImage (c : ctx) (source : element) (x y w h : number) : ctx :=
  if allFinite x y w h
  then mkCtx (state c) (saved c) (ops c ++ [DrawImage (state c) source x y w h])
  else c.

(** *** What a pixel shows *)

(** The content of one pixel: untouched, a solid colour, or a layer
    composited over what was there. *)
Inductive pixel : Type :=
| Blank
| Solid (code : string)
| Over (layer : drawOp) (below : pixel).

Definition inRect (x y w h : number) (px py : Z) : bool :=
  le x (ofZ px) && lt (ofZ px) (add x w) && le y (ofZ py) && lt (ofZ py) (add y h).

Definition covers (op : drawOp) (px py : Z) : bool :=
  match op with
  | FillRect _ x y w h => inRect x y w h px py
  | DrawImage _ _ x y w h => inRect x y w h px py
  end.

Definition isOne (a : number) : bool :=
  match a with Fin q => Qeq_bool q 1 | _ => false end.

(** An opaque fill replaces the pixel; anything else is layered on it. *)
Definition paint (op : drawOp) (p : pixel) : pixel :=
  match op with
  | FillRect (mkState (Hex code) a source_over) _ _ _ _ =>
      if isOne a then Solid code else Over op p
  | _ => Over op p
  end.

Definition pixelAt (history : list drawOp) (px py : Z) : pixel :=
  fold_left (fun p op => if covers op px py then paint op p else p) history Blank.

Definition onCanvas (px py : Z) : Prop := 0 <= px < 1280 /\ 0 <= py < 720.

End Canvas.

(** ** The composer ([VideoComposerModule.tsx]) *)

Module Composer.
Import Canvas.

Definition TRANSITION_DURATION : number := Fin (6 # 10).

(** [clips.map] with the running [cursor] of the closure threaded through. *)
Fixpoint normalizeFrom (cursor : number) (clips : list TimelineClip.t)
  : list TimelineClip.t :=
  match clips with
  | [] => []
  | clip :: rest =>
      let normalized := TimelineClip.withStart clip cursor in
      normalized :: normalizeFrom (add cursor (TimelineClip.duration clip)) rest
  end.

Definition normalizeTimeline (clips : list TimelineClip.t) : list TimelineClip.t :=
  normalizeFrom (Fin 0) clips.

(** A call either returns or throws the [TypeError] of a property read on
    [undefined]. *)
Inductive result (A : Type) : Type :=
| Ok (a : A)
| TypeError.
Arguments Ok {A} a.
Arguments TypeError {A}.

Definition bind {A B : Type} (r : result A) (k : A -> result B) : result B :=
  match r with
  | Ok a => k a
  | TypeError => TypeError
  end.

(** [RenderableMedia]; [asset] comes from [mediaLibrary.find(...)!] and is
    [undefined] when the library has no such asset. *)
Record RenderableMedia : Type := mkMedia {
  element : Canvas.element;
  asset : option MediaAsset.t
}.

(** Property reads on an element; through the unchecked casts of the
    source a property the element lacks reads as [undefined], which the
    arithmetic and comparisons below turn into [NaN] (or falsy). *)
Definition readyState (el : Canvas.element) : number :=
  match el with VideoEl r _ _ _ _ => ofZ r | ImageEl _ _ _ => NaN end.

Definition currentTime (el : Canvas.element) : number :=
  match el with VideoEl _ t _ _ _ => t | ImageEl _ _ _ => NaN end.

Definition videoDuration (el : Canvas.element) : number :=
  match el with VideoEl _ _ d _ _ => d | ImageEl _ _ _ => NaN end.

Definition complete (el : Canvas.element) : bool :=
  match el with ImageEl c _ _ => c | VideoEl _ _ _ _ _ => false end.

Definition mediaWidth (k : MediaKind) (el : Canvas.element) : number :=
  match k, el with
  | image, ImageEl _ w _ => w
  | video, VideoEl _ _ _ w _ => w
  | _, _ => NaN
  end.

Definition mediaHeight (k : MediaKind) (el : Canvas.element) : number :=
  match k, el with
  | image, ImageEl _ _ h => h
  | video, VideoEl _ _ _ _ h => h
  | _, _ => NaN
  end.

(** [video.currentTime = t] *)
Definition seek (el : Canvas.element) (t : number) : Canvas.element :=
  match el with
  | VideoEl r _ d w h => VideoEl r t d w h
  | ImageEl _ _ _ => el
  end.

(** [asset.duration ?? video.duration] *)
Definition reportedDuration (a : MediaAsset.t) (el : Canvas.element) : number :=
  match MediaAsset.duration a with
  | Some d => d
  | None => videoDuration el
  end.

Definition safeTime (a : MediaAsset.t) (el : Canvas.element) (timestamp : number) : number :=
  max (Fin 0) (min timestamp (sub (reportedDuration a el) (Fin (5 # 100)))).

(** The seek of [drawMedia]: the element after the guarded assignment. *)
Definition seekIfDrifted (a : MediaAsset.t) (el : Canvas.element) (timestamp : number)
  : Canvas.element :=
  if negb (isNaN timestamp) && isFinite timestamp
  then if gt (abs (sub (currentTime el) (safeTime a el timestamp))) (Fin (3 # 100))
       then seek el (safeTime a el timestamp)
       else el
  else el.

(** The letterboxed [drawImage] that ends [drawMedia]. *)
Definition drawFitted (c : ctx) (a : MediaAsset.t) (el : Canvas.element) : ctx :=
  let width := mediaWidth (MediaAsset.kind a) el in
  let height := mediaHeight (MediaAsset.kind a) el in
  let aspect := orElse (div width height) (div (ofZ 16) (ofZ 9)) in
  let targetAspect := div CANVAS_WIDTH CANVAS_HEIGHT in
  let drawWidth := if gt aspect targetAspect then CANVAS_WIDTH else mul CANVAS_HEIGHT aspect in
  let drawHeight := if gt aspect targetAspect then div CANVAS_WIDTH aspect else CANVAS_HEIGHT in
  let offsetX := div (sub CANVAS_WIDTH drawWidth) (ofZ 2) in
  let offsetY := div (sub CANVAS_HEIGHT drawHeight) (ofZ 2) in
  restore (drawImage c el offsetX offsetY drawWidth drawHeight).

(** [drawMedia]: returns the context and the element it may have sought. *)
Definition drawMedia (c : ctx) (media : RenderableMedia) (timestamp alpha : number)
  : result (ctx * Canvas.element) :=
  let c := setGlobalAlpha (save c) alpha in
  let el := element media in
  match asset media with
  | None => TypeError
  | Some a =>
      match MediaAsset.kind a with
      | video =>
          if lt (readyState el) (ofZ 2)
          then Ok (restore c, el)
          else
            let el := seekIfDrifted a el timestamp in
            Ok (drawFitted c a el, el)
      | image =>
          if negb (complete el)
          then Ok (restore c, el)
          else Ok (drawFitted c a el, el)
      end
  end.

(** The positions a cached video can be at.  The media loader creates the
    element, at position 0, and never plays it; the assignment in
    [drawMedia] is the only write to [currentTime]. *)
Inductive positioned (a : MediaAsset.t) : Canvas.element -> Prop :=
| positioned_created (el : Canvas.element) :
    currentTime el = Fin 0 -> positioned a el
| positioned_drawn (el : Canvas.element) (c : ctx) (timestamp alpha : number)
    (c' : ctx) (el' : Canvas.element) :
    positioned a el ->
    drawMedia c (mkMedia el (Some a)) timestamp alpha = Ok (c', el') ->
    positioned a el'.

(** The opacity computed by the white-flash branch. *)
Definition flashOpacity (progress : number) : number :=
  max (Fin 0) (sub (Fin 1) (mul progress (ofZ 2))).

Definition applyTransitionOverlay (c : ctx) (type : TransitionType) (progress : number)
  : ctx :=
  match type with
  | white_flash =>
      let opacity := flashOpacity progress in
      let c := save c in
      let c := setFillStyle c (Rgba 255 255 255 (toFixed2 opacity)) in
      let c := fillRect c (Fin 0) (Fin 0) CANVAS_WIDTH CANVAS_HEIGHT in
      restore c
  | cine_sweep =>
      let sweep := progress in
      let c := save c in
      let c := setFillStyle c (Rgba 0 0 0 (Fin (7 # 10))) in
      let c := fillRect c (Fin 0) (Fin 0) CANVAS_WIDTH CANVAS_HEIGHT in
      let c := setComposite c destination_out in
      let c := setFillStyle c (Hex "#000") in
      let width := mul CANVAS_WIDTH sweep in
      let c := fillRect c (add (neg CANVAS_WIDTH) width) (Fin 0) CANVAS_WIDTH CANVAS_HEIGHT in
      restore c
  | _ => c
  end.

(** What a frame is rendered on: the 2D context of the canvas and the media
    cache.  The cache holds references, so an element sought by [drawMedia]
    is seen sought by every later read of the same key. *)
Record world : Type := mkWorld {
  canvas : ctx;
  mediaCache : string -> option Canvas.element
}.

Definition withCanvas (w : world) (c : ctx) : world := mkWorld c (mediaCache w).

Definition stored (w : world) (key : string) (el : Canvas.element) : world :=
  mkWorld (canvas w)
          (fun k => if String.eqb k key then Some el else mediaCache w k).

(** The element a reference taken earlier points to now. *)
Definition deref (w : world) (key : string) (taken : Canvas.element) : Canvas.element :=
  match mediaCache w key with
  | Some el => el
  | None => taken
  end.

(** [drawMedia] on the element cached under [key]. *)
Definition drawCached (library : list MediaAsset.t) (w : world) (key : string)
    (el : Canvas.element) (timestamp alpha : number) : result world :=
  let a := find (fun a => String.eqb (MediaAsset.id a) key) library in
  bind (drawMedia (canvas w) (mkMedia el a) timestamp alpha)
       (fun r => Ok (stored (withCanvas w (fst r)) key (snd r))).

Definition isCrossfade (t : TransitionType) : bool :=
  match t with crossfade => true | _ => false end.

Definition transitionProgress (localTime : number) : number :=
  min (Fin 1) (max (Fin 0) (div localTime TRANSITION_DURATION)).

(** The body of [renderFrame] once the clip is chosen. *)
Definition renderClip (library : list MediaAsset.t) (w : world)
    (currentClip : TimelineClip.t) (previousClip : option TimelineClip.t)
    (localTime : number) : result world :=
  match mediaCache w (TimelineClip.mediaId currentClip) with
  | None => Ok w
  | Some mediaElement =>
      match isCrossfade (TimelineClip.transition currentClip), previousClip with
      | true, Some previousClip =>
          let progress := transitionProgress localTime in
          bind
            (match mediaCache w (TimelineClip.mediaId previousClip) with
             | Some previousMediaElement =>
                 drawCached library w (TimelineClip.mediaId previousClip)
                   previousMediaElement
                   (sub (TimelineClip.duration previousClip)
                        (sub TRANSITION_DURATION localTime))
                   (sub (Fin 1) progress)
             | None => Ok w
             end)
            (fun w =>
               drawCached library w (TimelineClip.mediaId currentClip)
                 (deref w (TimelineClip.mediaId currentClip) mediaElement)
                 localTime progress)
      | _, _ =>
          bind
            (drawCached library w (TimelineClip.mediaId currentClip) mediaElement
               localTime (Fin 1))
            (fun w =>
               match TimelineClip.transition currentClip with
               | fade_in =>
                   let progress := transitionProgress localTime in
                   let c := save (canvas w) in
                   let c := setFillStyle c (Rgba 0 0 0 (sub (Fin 1) progress)) in
                   let c := fillRect c (Fin 0) (Fin 0) CANVAS_WIDTH CANVAS_HEIGHT in
                   Ok (withCanvas w (restore c))
               | white_flash | cine_sweep =>
                   let progress := transitionProgress localTime in
                   Ok (withCanvas w
                         (applyTransitionOverlay (canvas w)
                            (TimelineClip.transition currentClip) progress))
               | _ => Ok w
               end)
      end
  end.

(** The predicate of [findIndex] in [renderFrame]. *)
Definition clipContains (time : number) (clip : TimelineClip.t) : bool :=
  ge time (TimelineClip.start clip)
  && lt time (add (TimelineClip.start clip) (TimelineClip.duration clip)).

Definition safeIndex (normalizedTimeline : list TimelineClip.t) (time : number) : Z :=
  let currentIndex := Array.findIndex (clipContains time) normalizedTimeline in
  if currentIndex =? -1 then Array.length normalizedTimeline - 1 else currentIndex.

(** The background fill that opens every [renderFrame]. *)
Definition clearSurface (w : world) : world :=
  withCanvas w
    (fillRect (setFillStyle (canvas w) (Hex "#050814"))
       (Fin 0) (Fin 0) CANVAS_WIDTH CANVAS_HEIGHT).

Definition renderFrame (normalizedTimeline : list TimelineClip.t)
    (mediaLibrary : list MediaAsset.t) (w : world) (time : number) : result world :=
  let w := clearSurface w in
  if Array.length normalizedTimeline =? 0 then Ok w else
  let safeIndex := safeIndex normalizedTimeline time in
  let currentClip := Array.at_ normalizedTimeline safeIndex in
  let previousClip := Array.at_ normalizedTimeline (safeIndex - 1) in
  match currentClip with
  | None => Ok w
  | Some currentClip =>
      let localTime := sub time (TimelineClip.start currentClip) in
      renderClip mediaLibrary w currentClip previousClip localTime
  end.

(** A cache whose videos are where the program can have put them. *)
Definition settled (library : list MediaAsset.t) (w : world) : Prop :=
  forall key el a,
    mediaCache w key = Some el ->
    find (fun a => String.eqb (MediaAsset.id a) key) library = Some a ->
    MediaAsset.kind a = video ->
    positioned a el.

(** [audios.find((audio) => audio.id === activeAudioId) ?? audios[0]] *)
Definition activeAudio (st : AppState.t) : option GeneratedAudio.t :=
  match find (fun audio => match AppState.activeAudioId st with
                           | Some a => String.eqb (GeneratedAudio.id audio) a
                           | None => false
                           end) (AppState.audios st) with
  | Some audio => Some audio
  | None => hd_error (AppState.audios st)
  end.

(** The callback [(total, clip) => total + clip.duration]. *)
Definition addDuration (total : number) (clip : TimelineClip.t) : number :=
  add total (TimelineClip.duration clip).

(** [clips.reduce((total, clip) => total + clip.duration, 0)] *)
Definition totalDuration (clips : list TimelineClip.t) : number :=
  fold_left addDuration clips (Fin 0).

(** The data model's requirement on a clip: [duration > 0]. *)
Definition positive (clip : TimelineClip.t) : Prop :=
  gt (TimelineClip.duration clip) (Fin 0) = true.

Definition compositionDuration (st : AppState.t) : number :=
  totalDuration (normalizeTimeline (AppState.timeline st)).

(** [audio.durationSeconds || audio.durationEstimateSeconds] *)
Definition audioDuration (audio : GeneratedAudio.t) : number :=
  orElse (GeneratedAudio.durationSeconds audio)
         (GeneratedAudio.durationEstimateSeconds audio).

(** The advisory is shown when [durationMismatch] is truthy. *)
Definition durationMismatch (st : AppState.t) : bool :=
  match activeAudio st with
  | None => false
  | Some audio =>
      gt (abs (sub (audioDuration audio) (compositionDuration st))) (Fin (8 # 10))
  end.

Module PlayerState.
Record t : Type := mk {
  isPlaying : bool;
  isExporting : bool;
  currentTime : number
}.
End PlayerState.

(** The audio element behind [audioRef]. *)
Module AudioElement.
Record t : Type := mk {
  paused : bool;
  currentTime : number
}.
End AudioElement.

(** The host calls of [handleExport], in program order. *)
Inductive hostCall : Type :=
| CaptureStream (frameRate : Z)
| NewAudioContext
| CreateMediaElementSource
| CreateMediaStreamDestination
| ConnectToRecordingDestination
| ConnectToSpeakers
| NewMediaStream
| NewMediaRecorder (mimeType : string) (videoBitsPerSecond : Z)
| ResumeAudioContext
| RecorderStart (timeslice : number)
| AudioPlay
| RequestAnimationFrame.

(** The component: the store it reads, its player state, its two refs and
    the host calls made so far. *)
Record Component : Type := mkComponent {
  store : AppState.t;
  playerState : PlayerState.t;
  canvasRef : option ctx;
  audioRef : option AudioElement.t;
  calls : list hostCall
}.

(** [handleExport], its awaited steps taken in order; the two guards come
    first, and a host call is taken to succeed. *)
Definition handleExport (c : Component) : Component :=
  match canvasRef c, activeAudio (store c), AppState.timeline (store c) with
  | None, _, _ | _, None, _ | _, _, [] => c
  | Some _, Some _, _ :: _ =>
      match audioRef c with
      | None => c
      | Some audioElement =>
          mkComponent (store c)
            (PlayerState.mk true true (PlayerState.currentTime (playerState c)))
            (canvasRef c)
            (Some (AudioElement.mk false (Fin 0)))
            (calls c ++
               [CaptureStream 30; NewAudioContext; CreateMediaElementSource;
                CreateMediaStreamDestination; ConnectToRecordingDestination;
                ConnectToSpeakers; NewMediaStream;
                NewMediaRecorder "video/webm;codecs=vp9,opus" 4000000;
                ResumeAudioContext; RecorderStart (div (ofZ 1000) (ofZ 30));
                AudioPlay; RequestAnimationFrame])
      end
  end.

End Composer.

(** ** A small composition

    The two-clip timeline of the end-to-end scenario (a 4 s image followed
    by a 3 s video), its library, and a page whose canvas has just been
    mounted. *)

Module Demo.
Import Canvas Composer.

Definition clips : list TimelineClip.t :=
  [ TimelineClip.mk "clip-1" "img" (Fin 0) (Fin 4) fade_in;
    TimelineClip.mk "clip-2" "vid" (Fin 0) (Fin 3) nenhuma ].

Definition filmAsset : MediaAsset.t :=
  MediaAsset.mk "vid" video "b.mp4" "blob:b" (Some (Fin 3)).

Definition library : list MediaAsset.t :=
  [ filmAsset; MediaAsset.mk "img" image "a.png" "blob:a" (Some (Fin 6)) ].

(** The first effect of the component: the canvas filled with [#04050B]. *)
Definition mounted : ctx :=
  fillRect (setFillStyle (mkCtx defaultState [] []) (Hex "#04050B"))
    (Fin 0) (Fin 0) CANVAS_WIDTH CANVAS_HEIGHT.

Definition photo : Canvas.element := ImageEl true (ofZ 1920) (ofZ 1080).
Definition film : Canvas.element := VideoEl 4 (Fin 0) (Fin 3) (ofZ 1280) (ofZ 720).

(** Both media decoded. *)
Definition loaded : world :=
  mkWorld mounted
    (fun key => if String.eqb key "img" then Some photo
                else if String.eqb key "vid" then Some film
                else None).

(** Only the image decoded so far. *)
Definition loading : world :=
  mkWorld mounted (fun key => if String.eqb key "img" then Some photo else None).

(** What the canvas holds after a call that returned. *)
Definition shown (r : result world) : list drawOp :=
  match r with
  | Ok w => ops (canvas w)
  | TypeError => []
  end.

(** The video of the library as [drawMedia] receives it. *)
Definition filmClip : RenderableMedia := mkMedia film (Some filmAsset).

(** A one-frame video, 0.04 s long, standing at its end. *)
Definition shortAsset : MediaAsset.t :=
  MediaAsset.mk "short" video "s.webm" "blob:s" (Some (Fin (4 # 100))).

Definition shortClip : RenderableMedia :=
  mkMedia (VideoEl 4 (Fin (4 # 100)) (Fin (4 # 100)) (ofZ 1280) (ofZ 720))
          (Some shortAsset).

Definition audio : GeneratedAudio.t :=
  GeneratedAudio.mk "a1" "take 1" "blob:a1" (Fin 7) (Fin (73 # 10)) (Fin 0) "nova".

Definition retake : GeneratedAudio.t :=
  GeneratedAudio.mk "a2" "take 2" "blob:a2" (Fin 9) (Fin (91 # 10)) (Fin 1) "nova".

(** Two takes, the first one active, and the two-clip timeline. *)
Definition state : AppState.t :=
  AppState.mk [audio; retake] library clips avancado (Some "a1"%string).

Definition component : Component :=
  mkComponent state (PlayerState.mk false false (Fin 0)) (Some mounted)
              (Some (AudioElement.mk true (Fin 0))) [].

(** The same page before any clip was placed. *)
Definition emptyComponent : Component :=
  mkComponent (Store.setTimeline [] state) (PlayerState.mk false false (Fin 0))
              (Some mounted) (Some (AudioElement.mk true (Fin 0))) [].

(** The first take over the opening clip alone: 7.3 s of audio, 4 s of
    picture. *)
Definition opened : AppState.t :=
  Store.setTimeline [TimelineClip.mk "clip-1" "img" (Fin 0) (Fin 4) fade_in] state.

(** A take whose measured duration reads 0, estimated at 7 s, over the
    two-clip timeline. *)
Definition unmeasured : GeneratedAudio.t :=
  GeneratedAudio.mk "a3" "take 3" "blob:a3" (Fin 7) (Fin 0) (Fin 2) "nova".

Definition unmeasuredState : AppState.t :=
  AppState.mk [unmeasured] library clips avancado (Some "a3"%string).

(** A take whose measured duration reads [NaN], estimated at 7 s, over the
    opening clip alone. *)
Definition unread : GeneratedAudio.t :=
  GeneratedAudio.mk "a4" "take 4" "blob:a4" (Fin 7) NaN (Fin 3) "nova".

Definition unreadState : AppState.t :=
  AppState.mk [unread] library
    [TimelineClip.mk "clip-1" "img" (Fin 0) (Fin 4) fade_in] avancado (Some "a4"%string).

End Demo.

(** ** The rest of the store *)

Module StoreActions.
Import AppState.

Definition addMedia (asset : MediaAsset.t) (state : AppState.t) : AppState.t :=
  mk (audios state) (asset :: mediaLibrary state) (timeline state) (mode state)
     (activeAudioId state).

(** [{ ...asset, duration }] and [{ ...clip, duration }] *)
Definition assetWithDuration (asset : MediaAsset.t) (duration : number) : MediaAsset.t :=
  MediaAsset.mk (MediaAsset.id asset) (MediaAsset.kind asset) (MediaAsset.name asset)
                (MediaAsset.url asset) (Some duration).

Definition clipWithDuration (clip : TimelineClip.t) (duration : number) : TimelineClip.t :=
  TimelineClip.mk (TimelineClip.id clip) (TimelineClip.mediaId clip)
                  (TimelineClip.start clip) duration (TimelineClip.transition clip).

Definition clipWithTransition (clip : TimelineClip.t) (transition : TransitionType)
  : TimelineClip.t :=
  TimelineClip.mk (TimelineClip.id clip) (TimelineClip.mediaId clip)
                  (TimelineClip.start clip) (TimelineClip.duration clip) transition.

Definition updateMediaDuration (id : string) (duration : number) (state : AppState.t)
  : AppState.t :=
  mk (audios state)
     (map (fun asset => if String.eqb (MediaAsset.id asset) id
                        then assetWithDuration asset duration else asset)
          (mediaLibrary state))
     (map (fun clip => if String.eqb (TimelineClip.mediaId clip) id
                       then clipWithDuration clip duration else clip)
          (timeline state))
     (mode state) (activeAudioId state).

Definition setMode (m : ComposerMode) (state : AppState.t) : AppState.t :=
  mk (audios state) (mediaLibrary state) (timeline state) m (activeAudioId state).

Definition reset (state : AppState.t) : AppState.t := Store.initial.

(** The store actions as the two components dispatch them.  The store's
    [setActiveAudio] accepts any id or [null]; both call sites pass the id
    of an audio they are listing, which [allowed] records. *)
Inductive action : Type :=
| AddAudio (audio : GeneratedAudio.t)
| SetActiveAudio (id : string)
| RemoveAudio (id : string)
| AddMedia (asset : MediaAsset.t)
| RemoveMedia (id : string)
| UpdateMediaDuration (id : string) (duration : number)
| SetTimeline (clips : list TimelineClip.t)
| SetMode (m : ComposerMode)
| Reset.

Definition dispatch (a : action) (state : AppState.t) : AppState.t :=
  match a with
  | AddAudio audio => Store.addAudio audio state
  | SetActiveAudio id => Store.setActiveAudio (Some id) state
  | RemoveAudio id => Store.removeAudio id state
  | AddMedia asset => addMedia asset state
  | RemoveMedia id => Store.removeMedia id state
  | UpdateMediaDuration id duration => updateMediaDuration id duration state
  | SetTimeline clips => Store.setTimeline clips state
  | SetMode m => setMode m state
  | Reset => reset state
  end.

Definition allowed (state : AppState.t) (a : action) : Prop :=
  match a with
  | SetActiveAudio id =>
      exists audio, In audio (audios state) /\ GeneratedAudio.id audio = id
  | _ => True
  end.

Inductive reachable : AppState.t -> Prop :=
| reachable_initial : reachable Store.initial
| reachable_step state a :
    reachable state -> allowed state a -> reachable (dispatch a state).

(** What the audio actions keep: the reference is [null] exactly when no
    audio is listed, and otherwise names a listed audio. *)
Definition activeKept (st : AppState.t) : Prop :=
  (activeAudioId st = None <-> audios st = []) /\ Store.activeValid st.

(** Every clip of the timeline names an asset of the library. *)
Definition resolved (state : AppState.t) : Prop :=
  forall clip, In clip (timeline state) ->
    exists asset, In asset (mediaLibrary state)
                  /\ MediaAsset.id asset = TimelineClip.mediaId clip.

End StoreActions.

(** ** The timeline handlers of the component

    Each handler reads [timeline] from the store and writes it back with
    [setTimeline]; [crypto.randomUUID()] is the parameter [uuid]. *)

Module Handlers.
Import Canvas Composer StoreActions.

(** The duration [handleAddToTimeline] gives a new clip. *)
Definition clipDuration (asset : MediaAsset.t) : number :=
  match MediaAsset.kind asset with
  | image =>
      max (Fin 4)
          (min (Fin 12)
               (match MediaAsset.duration asset with Some d => d | None => Fin 6 end))
  | video =>
      match MediaAsset.duration asset with Some d => d | None => Fin 8 end
  end.

Definition newClip (uuid : string) (asset : MediaAsset.t) (timeline : list TimelineClip.t)
  : TimelineClip.t :=
  let total := fold_left addDuration timeline (Fin 0) in
  TimelineClip.mk uuid (MediaAsset.id asset) total (clipDuration asset)
    (match timeline with [] => fade_in | _ :: _ => nenhuma end).

Definition handleAddToTimeline (uuid : string) (asset : MediaAsset.t) (st : AppState.t)
  : AppState.t :=
  let timeline := AppState.timeline st in
  Store.setTimeline (normalizeTimeline (timeline ++ [newClip uuid asset timeline])) st.

Definition handleApplySimpleImage (uuid : string) (asset : MediaAsset.t) (st : AppState.t)
  : AppState.t :=
  match activeAudio st with
  | None => st
  | Some audio =>
      let totalDuration := audioDuration audio in
      let clip :=
        TimelineClip.mk uuid (MediaAsset.id asset) (Fin 0)
                        (max (Fin 1) totalDuration) fade_in in
      Store.setTimeline [clip] st
  end.

Definition handleRemoveClip (id : string) (st : AppState.t) : AppState.t :=
  let filtered :=
    filter (fun clip => negb (String.eqb (TimelineClip.id clip) id))
           (AppState.timeline st) in
  Store.setTimeline (normalizeTimeline filtered) st.

Definition handleDurationChange (id : string) (duration : number) (st : AppState.t)
  : AppState.t :=
  let updated :=
    map (fun clip => if String.eqb (TimelineClip.id clip) id
                     then clipWithDuration clip duration else clip)
        (AppState.timeline st) in
  Store.setTimeline (normalizeTimeline updated) st.

Definition handleTransitionChange (id : string) (transition : TransitionType)
    (st : AppState.t) : AppState.t :=
  let updated :=
    map (fun clip => if String.eqb (TimelineClip.id clip) id
                     then clipWithTransition clip transition else clip)
        (AppState.timeline st) in
  Store.setTimeline updated st.

(** [removeMedia(asset.id)]; revoking the object URL leaves the store alone. *)
Definition handleRemoveMedia (asset : MediaAsset.t) (st : AppState.t) : AppState.t :=
  Store.removeMedia (MediaAsset.id asset) st.

(** [timeline] is the list the component rendered with, so the slice is
    taken before [setMode] and written after it. *)
Definition handleModeChange (value : ComposerMode) (st : AppState.t) : AppState.t :=
  let timeline := AppState.timeline st in
  let st := setMode value st in
  match value with
  | simples =>
      if 1 <? Array.length timeline
      then Store.setTimeline (firstn 1 timeline) st
      else st
  | avancado => st
  end.

(** The same context on a canvas that already held [history]. *)
Definition rebase (history : list drawOp) (c : ctx) : ctx :=
  mkCtx (state c) (saved c) (history ++ ops c).

Definition rebaseWorld (history : list drawOp) (w : world) : world :=
  mkWorld (rebase history (canvas w)) (mediaCache w).

Definition rebaseResult (history : list drawOp) (r : result world) : result world :=
  match r with
  | Ok w => Ok (rebaseWorld history w)
  | TypeError => TypeError
  end.

(** A clip without its derived [start]. *)
Definition unplaced (clip : TimelineClip.t)
  : string * string * number * TransitionType :=
  (TimelineClip.id clip, TimelineClip.mediaId clip,
   TimelineClip.duration clip, TimelineClip.transition clip).

(** A timeline that normalisation leaves as it is. *)
Definition normalized (timeline : list TimelineClip.t) : Prop :=
  normalizeTimeline timeline = timeline.

(** Media that [drawMedia] does not skip, and whose size is known. *)
Definition ready (a : MediaAsset.t) (el : Canvas.element) : Prop :=
  match MediaAsset.kind a with
  | image => complete el = true
  | video => lt (readyState el) (ofZ 2) = false
  end.

Definition sized (a : MediaAsset.t) (el : Canvas.element) : Prop :=
  exists wd ht : Q,
    mediaWidth (MediaAsset.kind a) el = Fin wd
    /\ mediaHeight (MediaAsset.kind a) el = Fin ht
    /\ (0 < wd)%Q /\ (0 < ht)%Q.

End Handlers.

(** ** A second composition: two images, the second one crossfading in *)

Module Studio.
Import Canvas Composer StoreActions Handlers.

Definition portrait : Canvas.element := ImageEl true (ofZ 800) (ofZ 1200).

Definition photoAsset : MediaAsset.t := MediaAsset.mk "img" image "a.png" "blob:a" None.
Definition portraitAsset : MediaAsset.t :=
  MediaAsset.mk "tall" image "c.png" "blob:c" (Some (Fin 30)).

Definition library : list MediaAsset.t := [portraitAsset; photoAsset].

Definition opening : TimelineClip.t :=
  TimelineClip.mk "clip-1" "img" (Fin 0) (Fin 4) fade_in.
Definition closing : TimelineClip.t :=
  TimelineClip.mk "clip-2" "tall" (Fin 4) (Fin 3) crossfade.

Definition clips : list TimelineClip.t := [opening; closing].

Definition gallery : world :=
  mkWorld Demo.mounted
    (fun key => if String.eqb key "img" then Some Demo.photo
                else if String.eqb key "tall" then Some portrait
                else None).

(** The store after one take was generated and the two images uploaded. *)
Definition state : AppState.t :=
  dispatch (SetTimeline clips)
    (dispatch (AddMedia photoAsset)
       (dispatch (AddMedia portraitAsset)
          (dispatch (AddAudio Demo.audio) Store.initial))).

(** A video element whose data has not arrived. *)
Definition pending : Canvas.element := VideoEl 1 (Fin 0) (Fin 3) (ofZ 0) (ofZ 0).

End Studio.

(** * Properties *)

Import Canvas Composer.

(** ** Numbers *)

Section NumberFacts.

Lemma Qlt_bool_iff (x y : Q) : Qlt_bool x y = true <-> (x < y)%Q.
Proof.
  unfold Qlt_bool. rewrite negb_true_iff. split; intro H.
  - apply Qnot_le_lt. intro L. apply Qle_bool_iff in L. congruence.
  - destruct (Qle_bool y x) eqn:E; trivial. apply Qle_bool_iff in E. lra.
Qed.

Lemma Qlt_bool_false (x y : Q) : Qlt_bool x y = false <-> (y <= x)%Q.
Proof.
  unfold Qlt_bool. rewrite negb_false_iff. apply Qle_bool_iff.
Qed.

Lemma Qle_bool_false (x y : Q) : Qle_bool x y = false <-> (y < x)%Q.
Proof.
  rewrite <- Qlt_bool_iff. unfold Qlt_bool.
  destruct (Qle_bool x y); simpl; intuition congruence.
Qed.

Lemma Qeq_bool_false (x y : Q) : Qeq_bool x y = false <-> ~ (x == y)%Q.
Proof.
  split; intro H.
  - intro E. apply Qeq_bool_iff in E. congruence.
  - destruct (Qeq_bool x y) eqn:E; trivial. apply Qeq_bool_iff in E. contradiction.
Qed.

End NumberFacts.

(** Turns the boolean comparisons of rationals in the context and the goal
    into propositions. *)
Ltac qprop :=
  repeat match goal with
  | H : Qle_bool _ _ = true |- _ => apply Qle_bool_iff in H
  | H : Qle_bool _ _ = false |- _ => apply Qle_bool_false in H
  | H : Qlt_bool _ _ = true |- _ => apply Qlt_bool_iff in H
  | H : Qlt_bool _ _ = false |- _ => apply Qlt_bool_false in H
  | H : Qeq_bool _ _ = true |- _ => apply Qeq_bool_iff in H
  | H : Qeq_bool _ _ = false |- _ => apply Qeq_bool_false in H
  | |- Qle_bool _ _ = true => apply Qle_bool_iff
  | |- Qle_bool _ _ = false => apply Qle_bool_false
  | |- Qlt_bool _ _ = true => apply Qlt_bool_iff
  | |- Qlt_bool _ _ = false => apply Qlt_bool_false
  | |- Qeq_bool _ _ = true => apply Qeq_bool_iff
  | |- Qeq_bool _ _ = false => apply Qeq_bool_false
  end.

(** Closes the side conditions of a clamped value. *)
Ltac clamp_done :=
  repeat split; intros;
  repeat match goal with H : Fin _ = Fin _ |- _ => injection H as H; subst end;
  try discriminate; try lra.

(** Case analysis on every number in sight, then linear arithmetic. *)
Ltac num_cases :=
  repeat match goal with x : number |- _ => destruct x end;
  cbn in *; try discriminate; try reflexivity; try tauto; qprop; try lra.

Section OrderFacts.

Lemma le_refl_nonneg c : le (Fin 0) c = true -> le c c = true.
Proof. intros; num_cases. Qed.

Lemma le_trans a b c : le a b = true -> le b c = true -> le a c = true.
Proof. intros; num_cases. Qed.

Lemma add_nonneg c d :
  le (Fin 0) c = true -> lt (Fin 0) d = true -> le (Fin 0) (add c d) = true.
Proof. intros; num_cases. Qed.

Lemma le_add c d :
  le (Fin 0) c = true -> lt (Fin 0) d = true -> le c (add c d) = true.
Proof. intros; num_cases. Qed.

Lemma le_lt_absurd c t : le c t = true -> lt t c = true -> False.
Proof. intros; num_cases. Qed.

Lemma not_lt_le c t e :
  le c t = true -> le (Fin 0) e = true -> lt t e = false -> le e t = true.
Proof. intros; num_cases. Qed.

Lemma lt_le_not_le t e s : lt t e = true -> le e s = true -> le s t = false.
Proof. intros; num_cases. Qed.

Lemma le_le_not_lt e total t :
  le e total = true -> le total t = true -> lt t e = false.
Proof. intros; num_cases. Qed.

Lemma lt_zero_not_le t s : lt t (Fin 0) = true -> le (Fin 0) s = true -> le s t = false.
Proof. intros; num_cases. Qed.

End OrderFacts.

(** ** Timeline normalisation *)

Section Normalisation.

Lemma normalizeFrom_length clips : forall cursor,
  List.length (normalizeFrom cursor clips) = List.length clips.
Proof.
  induction clips as [|clip rest IH]; intro cursor; simpl; [reflexivity|].
  now rewrite IH.
Qed.

Lemma normalizeFrom_step clips : forall cursor i clip next,
  nth_error (normalizeFrom cursor clips) i = Some clip ->
  nth_error (normalizeFrom cursor clips) (S i) = Some next ->
  TimelineClip.start next
  = add (TimelineClip.start clip) (TimelineClip.duration clip).
Proof.
  induction clips as [|c rest IH]; intros cursor i clip next Hi Hn.
  - destruct i; discriminate.
  - destruct i as [|i]; simpl in Hi, Hn.
    + injection Hi as <-. destruct rest as [|c' rest']; [discriminate|].
      simpl in Hn. injection Hn as <-. reflexivity.
    + eapply IH; eassumption.
Qed.

Lemma normalizeFrom_fields clips : forall cursor,
  Forall2 (fun out clip =>
             TimelineClip.id out = TimelineClip.id clip
             /\ TimelineClip.mediaId out = TimelineClip.mediaId clip
             /\ TimelineClip.duration out = TimelineClip.duration clip
             /\ TimelineClip.transition out = TimelineClip.transition clip)
          (normalizeFrom cursor clips) clips.
Proof.
  induction clips as [|c rest IH]; intro cursor; simpl; constructor; auto.
Qed.

Lemma normalizeFrom_idem clips : forall cursor,
  normalizeFrom cursor (normalizeFrom cursor clips) = normalizeFrom cursor clips.
Proof.
  induction clips as [|c rest IH]; intro cursor; simpl; [reflexivity|].
  f_equal. apply IH.
Qed.

Lemma normalizeFrom_durations clips : forall cursor,
  map TimelineClip.duration (normalizeFrom cursor clips)
  = map TimelineClip.duration clips.
Proof.
  induction clips as [|c rest IH]; intro cursor; simpl; [reflexivity|].
  now rewrite IH.
Qed.

(** C1.  [normalizeTimeline] keeps the number of clips and their durations,
    gives the first clip start 0 and every later clip the start of its
    predecessor plus the predecessor's duration, and applying it to its own
    output gives the same list again.  Nothing is assumed of the durations. *)
Theorem normalizeTimeline_cumulative_idempotent (clips : list TimelineClip.t) :
  List.length (normalizeTimeline clips) = List.length clips
  /\ map TimelineClip.duration (normalizeTimeline clips)
     = map TimelineClip.duration clips
  /\ (forall first,
        nth_error (normalizeTimeline clips) 0 = Some first ->
        TimelineClip.start first = Fin 0)
  /\ (forall i clip next,
        nth_error (normalizeTimeline clips) i = Some clip ->
        nth_error (normalizeTimeline clips) (S i) = Some next ->
        TimelineClip.start next
        = add (TimelineClip.start clip) (TimelineClip.duration clip))
  /\ normalizeTimeline (normalizeTimeline clips) = normalizeTimeline clips.
Proof.
  unfold normalizeTimeline. repeat split.
  - apply normalizeFrom_length.
  - apply normalizeFrom_durations.
  - intros first H. destruct clips; simpl in H; [discriminate|].
    now injection H as <-.
  - apply normalizeFrom_step.
  - apply normalizeFrom_idem.
Qed.

(** C9.  [normalizeTimeline] rewrites only [start]: output and input have
    the same length and, index by index, the same id, mediaId, duration and
    transition. *)
Theorem normalizeTimeline_only_start (clips : list TimelineClip.t) :
  List.length (normalizeTimeline clips) = List.length clips
  /\ Forall2 (fun out clip =>
                TimelineClip.id out = TimelineClip.id clip
                /\ TimelineClip.mediaId out = TimelineClip.mediaId clip
                /\ TimelineClip.duration out = TimelineClip.duration clip
                /\ TimelineClip.transition out = TimelineClip.transition clip)
             (normalizeTimeline clips) clips.
Proof.
  split; [apply normalizeFrom_length | apply normalizeFrom_fields].
Qed.

End Normalisation.

(** ** The store *)

Section StoreFacts.
Import AppState Store.

(** C10.  [removeAudio id] keeps exactly the audios whose id differs from
    [id], in their order, and touches nothing but the audio list and the
    active reference; the reference is unchanged when it was not [id], and
    otherwise becomes the id of the first remaining audio, or [null] when
    none remains; a reference that was valid stays valid. *)
Theorem removeAudio_keeps_active_valid (id : string) (st : AppState.t) :
  (forall audio,
      In audio (audios (removeAudio id st))
      <-> In audio (audios st) /\ GeneratedAudio.id audio <> id)
  /\ audios (removeAudio id st)
     = filter (fun audio => negb (String.eqb (GeneratedAudio.id audio) id)) (audios st)
  /\ mediaLibrary (removeAudio id st) = mediaLibrary st
  /\ timeline (removeAudio id st) = timeline st
  /\ mode (removeAudio id st) = mode st
  /\ (activeAudioId st <> Some id ->
      activeAudioId (removeAudio id st) = activeAudioId st)
  /\ (activeAudioId st = Some id ->
      activeAudioId (removeAudio id st)
      = option_map GeneratedAudio.id (hd_error (audios (removeAudio id st))))
  /\ (activeValid st -> activeValid (removeAudio id st)).
Proof.
  repeat split; try reflexivity.
  - simpl in H. apply filter_In in H. tauto.
  - simpl in H. apply filter_In in H. destruct H as [_ H].
    apply negb_true_iff, String.eqb_neq in H. exact H.
  - intros [Hin Hne]. simpl. apply filter_In. split; [exact Hin|].
    now apply negb_true_iff, String.eqb_neq.
  - intro Hne. unfold removeAudio, isActive. simpl.
    destruct (activeAudioId st) as [a|]; [|reflexivity].
    destruct (String.eqb a id) eqn:E; [|reflexivity].
    apply String.eqb_eq in E. subst. now contradiction Hne.
  - intro Hact. unfold removeAudio, isActive. simpl. rewrite Hact.
    rewrite String.eqb_refl. now destruct (filter _ _).
  - unfold activeValid. intro Hv.
    destruct (activeAudioId (removeAudio id st)) as [a'|] eqn:Ea; [|exact I].
    unfold removeAudio, isActive in Ea |- *. simpl in Ea |- *.
    destruct (activeAudioId st) as [a|]; [|discriminate].
    destruct (String.eqb a id) eqn:E.
    + destruct (filter _ (audios st)) as [|first rest] eqn:Ef; [discriminate|].
      injection Ea as <-. exists first. split; [now left | reflexivity].
    + injection Ea as <-. destruct Hv as (audio & Hin & Hid).
      exists audio. split; [|exact Hid].
      apply filter_In. split; [exact Hin|].
      apply negb_true_iff. rewrite Hid. exact E.
Qed.

End StoreFacts.

(** ** Array lookups *)

Section ArrayFacts.
Context {A : Type}.

Lemma findIndexFrom_found (p : A -> bool) (l : list A) : forall k n x,
  nth_error l n = Some x ->
  p x = true ->
  (forall m y, (m < n)%nat -> nth_error l m = Some y -> p y = false) ->
  Array.findIndexFrom p l k = k + Z.of_nat n.
Proof.
  induction l as [|a rest IH]; intros k n x Hn Hp Hbefore.
  - destruct n; discriminate.
  - destruct n as [|n]; simpl in Hn |- *.
    + injection Hn as ->. rewrite Hp. lia.
    + rewrite (Hbefore 0%nat a) by (simpl; trivial; lia).
      rewrite (IH (k + 1) n x Hn Hp).
      * lia.
      * intros m y Hm Hy. apply (Hbefore (S m) y); [lia | exact Hy].
Qed.

Lemma findIndexFrom_none (p : A -> bool) (l : list A) : forall k,
  (forall x, In x l -> p x = false) ->
  Array.findIndexFrom p l k = -1.
Proof.
  induction l as [|a rest IH]; intros k Hall; simpl; [reflexivity|].
  rewrite (Hall a) by now left.
  apply IH. intros x Hx. apply Hall. now right.
Qed.

Lemma at_of_nat (l : list A) (n : nat) :
  Array.at_ l (Z.of_nat n) = nth_error l n.
Proof.
  unfold Array.at_. destruct (Z.ltb_spec (Z.of_nat n) 0); [lia|].
  now rewrite Nat2Z.id.
Qed.

End ArrayFacts.

(** ** Locating the clip of a timestamp *)

Section ClipLookup.

Lemma totalDuration_normalizeFrom clips : forall cursor acc,
  fold_left addDuration (normalizeFrom cursor clips) acc
  = fold_left addDuration clips acc.
Proof.
  induction clips as [|c rest IH]; intros cursor acc; simpl; [reflexivity|].
  apply IH.
Qed.

Lemma starts_from_cursor clips : forall cursor m clip,
  le (Fin 0) cursor = true ->
  Forall positive clips ->
  nth_error (normalizeFrom cursor clips) m = Some clip ->
  le cursor (TimelineClip.start clip) = true.
Proof.
  induction clips as [|c rest IH]; intros cursor m clip Hc Hpos Hm.
  - destruct m; discriminate.
  - inversion Hpos as [|? ? Hd Hrest]; subst.
    destruct m as [|m]; simpl in Hm.
    + injection Hm as <-. simpl. now apply le_refl_nonneg.
    + apply le_trans with (add cursor (TimelineClip.duration c)).
      * now apply le_add.
      * eapply IH; [now apply add_nonneg | exact Hrest | exact Hm].
Qed.

Lemma total_from_cursor clips : forall cursor,
  le (Fin 0) cursor = true ->
  Forall positive clips ->
  le cursor (fold_left addDuration clips cursor) = true.
Proof.
  induction clips as [|c rest IH]; intros cursor Hc Hpos; simpl.
  - now apply le_refl_nonneg.
  - inversion Hpos as [|? ? Hd Hrest]; subst.
    apply le_trans with (add cursor (TimelineClip.duration c)).
    + now apply le_add.
    + apply IH; [now apply add_nonneg | exact Hrest].
Qed.

Lemma ends_before_total clips : forall cursor m clip,
  le (Fin 0) cursor = true ->
  Forall positive clips ->
  nth_error (normalizeFrom cursor clips) m = Some clip ->
  le (add (TimelineClip.start clip) (TimelineClip.duration clip))
     (fold_left addDuration clips cursor) = true.
Proof.
  induction clips as [|c rest IH]; intros cursor m clip Hc Hpos Hm.
  - destruct m; discriminate.
  - inversion Hpos as [|? ? Hd Hrest]; subst.
    destruct m as [|m]; simpl in Hm |- *.
    + injection Hm as <-. simpl.
      apply total_from_cursor; [now apply add_nonneg | exact Hrest].
    + eapply IH; [now apply add_nonneg | exact Hrest | exact Hm].
Qed.

(** Inside the timeline exactly one clip contains the timestamp. *)
Lemma one_clip_contains clips : forall cursor t,
  le (Fin 0) cursor = true ->
  Forall positive clips ->
  le cursor t = true ->
  lt t (fold_left addDuration clips cursor) = true ->
  exists n clip,
    nth_error (normalizeFrom cursor clips) n = Some clip
    /\ clipContains t clip = true
    /\ forall m other,
         nth_error (normalizeFrom cursor clips) m = Some other ->
         clipContains t other = true -> m = n.
Proof.
  induction clips as [|c rest IH]; intros cursor t Hc Hpos Hlo Hhi.
  - simpl in Hhi. exfalso. eapply le_lt_absurd; eassumption.
  - inversion Hpos as [|? ? Hd Hrest]; subst.
    pose proof (add_nonneg _ _ Hc Hd) as Hend.
    simpl in Hhi.
    destruct (lt t (add cursor (TimelineClip.duration c))) eqn:Hin.
    + exists 0%nat, (TimelineClip.withStart c cursor). repeat split.
      * unfold clipContains, ge. simpl. now rewrite Hlo, Hin.
      * intros m other Hm Hother. destruct m as [|m]; [reflexivity|].
        simpl in Hm. exfalso.
        pose proof (starts_from_cursor _ _ _ _ Hend Hrest Hm) as Hs.
        unfold clipContains, ge in Hother. apply andb_true_iff in Hother.
        destruct Hother as [Hge _].
        rewrite (lt_le_not_le _ _ _ Hin Hs) in Hge. discriminate.
    + pose proof (not_lt_le _ _ _ Hlo Hend Hin) as Hlo'.
      destruct (IH _ t Hend Hrest Hlo' Hhi) as (n & clip & Hn & Hcont & Huniq).
      exists (S n), clip. repeat split; trivial.
      intros m other Hm Hother. destruct m as [|m].
      * simpl in Hm. injection Hm as <-.
        unfold clipContains in Hother. simpl in Hother.
        rewrite Hin, andb_false_r in Hother. discriminate.
      * f_equal. eapply Huniq; eassumption.
Qed.

(** At or past the end no clip contains the timestamp. *)
Lemma no_clip_past_end clips t :
  Forall positive clips ->
  ge t (totalDuration (normalizeTimeline clips)) = true ->
  forall clip, In clip (normalizeTimeline clips) -> clipContains t clip = false.
Proof.
  intros Hpos Hge clip Hin.
  apply In_nth_error in Hin. destruct Hin as [m Hm].
  unfold totalDuration, normalizeTimeline in *.
  rewrite totalDuration_normalizeFrom in Hge.
  pose proof (ends_before_total clips (Fin 0) m clip eq_refl Hpos Hm) as He.
  unfold clipContains. rewrite (le_le_not_lt _ _ _ He Hge).
  apply andb_false_r.
Qed.

(** Before 0, and at [NaN], no clip contains the timestamp. *)
Lemma no_clip_before_start clips t :
  Forall positive clips ->
  lt t (Fin 0) = true ->
  forall clip, In clip (normalizeTimeline clips) -> clipContains t clip = false.
Proof.
  intros Hpos Hneg clip Hin.
  apply In_nth_error in Hin. destruct Hin as [m Hm].
  pose proof (starts_from_cursor clips (Fin 0) m clip eq_refl Hpos Hm) as Hs.
  unfold clipContains, ge. now rewrite (lt_zero_not_le _ _ Hneg Hs).
Qed.

Lemma no_clip_at_NaN (timeline : list TimelineClip.t) :
  forall clip, In clip timeline -> clipContains NaN clip = false.
Proof.
  intros clip _. unfold clipContains, ge.
  now destruct (TimelineClip.start clip).
Qed.

End ClipLookup.

(** ** The frame renderer *)

Section Renderer.
Variable library : list MediaAsset.t.

Lemma safeIndex_found timeline t n clip :
  nth_error timeline n = Some clip ->
  clipContains t clip = true ->
  (forall m other, nth_error timeline m = Some other ->
                   clipContains t other = true -> m = n) ->
  safeIndex timeline t = Z.of_nat n.
Proof.
  intros Hn Hc Huniq. unfold safeIndex, Array.findIndex.
  rewrite (findIndexFrom_found (clipContains t) timeline 0 n clip Hn Hc).
  - destruct (Z.eqb_spec (0 + Z.of_nat n) (-1)); lia.
  - intros m y Hm Hy. destruct (clipContains t y) eqn:E; [|reflexivity].
    specialize (Huniq m y Hy E). lia.
Qed.

Lemma safeIndex_fallback timeline t :
  (forall clip, In clip timeline -> clipContains t clip = false) ->
  safeIndex timeline t = Array.length timeline - 1.
Proof.
  intro Hnone. unfold safeIndex, Array.findIndex.
  now rewrite findIndexFrom_none.
Qed.

Lemma last_clip (timeline : list TimelineClip.t) :
  timeline <> [] ->
  exists clip,
    nth_error timeline (List.length timeline - 1) = Some clip
    /\ Array.length timeline - 1 = Z.of_nat (List.length timeline - 1).
Proof.
  intro Hne. destruct (exists_last Hne) as (front & clip & ->).
  exists clip. rewrite length_app. simpl. split.
  - rewrite nth_error_app2 by lia.
    now replace (List.length front + 1 - 1 - List.length front)%nat with 0%nat by lia.
  - unfold Array.length. rewrite length_app. simpl. lia.
Qed.

Lemma renderFrame_at timeline w t n clip :
  nth_error timeline n = Some clip ->
  safeIndex timeline t = Z.of_nat n ->
  renderFrame timeline library w t
  = renderClip library (clearSurface w) clip
      (Array.at_ timeline (Z.of_nat n - 1)) (sub t (TimelineClip.start clip)).
Proof.
  intros Hn Hs. unfold renderFrame. rewrite Hs, at_of_nat, Hn.
  destruct timeline as [|c rest]; [destruct n; discriminate|].
  reflexivity.
Qed.

Lemma renderFrame_fallback timeline w t :
  timeline <> [] ->
  (forall clip, In clip timeline -> clipContains t clip = false) ->
  exists last,
    nth_error timeline (List.length timeline - 1) = Some last
    /\ safeIndex timeline t = Array.length timeline - 1
    /\ renderFrame timeline library w t
       = renderClip library (clearSurface w) last
           (Array.at_ timeline (Array.length timeline - 2))
           (sub t (TimelineClip.start last)).
Proof.
  intros Hne Hnone. destruct (last_clip timeline Hne) as (last & Hlast & Hlen).
  pose proof (safeIndex_fallback timeline t Hnone) as Hs.
  exists last. repeat split; trivial.
  rewrite (renderFrame_at timeline w t _ last Hlast) by congruence.
  do 2 f_equal. lia.
Qed.

(** C2.  On the normalised form of a non-empty timeline whose durations are
    positive: a timestamp in [0, totalDuration) lies in the interval
    [start, start + duration) of exactly one clip, [renderFrame] renders
    that clip with local time [t - start], and a timestamp equal to a
    clip's start selects that clip; a timestamp at or past totalDuration
    lies in no interval and [renderFrame] renders the last clip, again with
    local time [t - start]. *)
Theorem renderFrame_selects_clip (clips : list TimelineClip.t) (w : world) (t : number) :
  clips <> [] ->
  Forall positive clips ->
  (ge t (Fin 0) = true ->
   lt t (totalDuration (normalizeTimeline clips)) = true ->
   exists n clip,
     nth_error (normalizeTimeline clips) n = Some clip
     /\ clipContains t clip = true
     /\ (forall m other,
           nth_error (normalizeTimeline clips) m = Some other ->
           clipContains t other = true -> m = n)
     /\ (forall m other,
           nth_error (normalizeTimeline clips) m = Some other ->
           TimelineClip.start other = t -> m = n)
     /\ safeIndex (normalizeTimeline clips) t = Z.of_nat n
     /\ renderFrame (normalizeTimeline clips) library w t
        = renderClip library (clearSurface w) clip
            (Array.at_ (normalizeTimeline clips) (Z.of_nat n - 1))
            (sub t (TimelineClip.start clip)))
  /\ (ge t (totalDuration (normalizeTimeline clips)) = true ->
      (forall clip, In clip (normalizeTimeline clips) -> clipContains t clip = false)
      /\ exists last,
           nth_error (normalizeTimeline clips)
                     (List.length (normalizeTimeline clips) - 1) = Some last
           /\ safeIndex (normalizeTimeline clips) t
              = Array.length (normalizeTimeline clips) - 1
           /\ renderFrame (normalizeTimeline clips) library w t
              = renderClip library (clearSurface w) last
                  (Array.at_ (normalizeTimeline clips)
                             (Array.length (normalizeTimeline clips) - 2))
                  (sub t (TimelineClip.start last))).
Proof.
  intros Hne Hpos. split.
  - intros Hlo Hhi.
    unfold totalDuration, normalizeTimeline in Hhi.
    rewrite totalDuration_normalizeFrom in Hhi.
    destruct (one_clip_contains clips (Fin 0) t eq_refl Hpos Hlo Hhi)
      as (n & clip & Hn & Hc & Huniq).
    fold (normalizeTimeline clips) in Hn, Huniq.
    pose proof (safeIndex_found _ t n clip Hn Hc Huniq) as Hs.
    exists n, clip. repeat split; trivial.
    + intros m other Hm Hstart. apply (Huniq m other Hm).
      pose proof (normalizeFrom_fields clips (Fin 0)) as Hf.
      assert (Hd : positive other).
      { pose proof (nth_error_In _ _ Hm) as Hin.
        clear - Hf Hpos Hin. fold (normalizeTimeline clips) in Hf.
        induction Hf as [|out c outs cs Hhead _ IH]; [destruct Hin|].
        inversion Hpos; subst. destruct Hin as [<-|Hin]; [|now apply IH].
        unfold positive in *. destruct Hhead as (_ & _ & -> & _). assumption. }
      unfold clipContains, ge. rewrite Hstart.
      unfold positive, gt in Hd. clear - Hlo Hhi Hd. unfold ge in Hlo.
      destruct (TimelineClip.duration other), t,
               (fold_left addDuration clips (Fin 0));
        cbn in *; try discriminate; try reflexivity; qprop;
        apply andb_true_iff; split; qprop; lra.
    + now apply renderFrame_at.
  - intro Hge. split.
    + now apply no_clip_past_end.
    + apply renderFrame_fallback.
      * unfold normalizeTimeline. destruct clips; [contradiction|discriminate].
      * now apply no_clip_past_end.
Qed.

(** C3 (as the code has it).  On the normalised form of a non-empty timeline
    with positive durations, a negative or [NaN] timestamp lies in no clip
    interval, so the fallback of [renderFrame] renders the last clip, with
    local time [t - start] of that clip; the timestamp is not replaced by 0. *)
Theorem renderFrame_before_start_renders_last
    (clips : list TimelineClip.t) (w : world) (t : number) :
  clips <> [] ->
  Forall positive clips ->
  lt t (Fin 0) = true \/ t = NaN ->
  (forall clip, In clip (normalizeTimeline clips) -> clipContains t clip = false)
  /\ exists last,
       nth_error (normalizeTimeline clips)
                 (List.length (normalizeTimeline clips) - 1) = Some last
       /\ safeIndex (normalizeTimeline clips) t
          = Array.length (normalizeTimeline clips) - 1
       /\ renderFrame (normalizeTimeline clips) library w t
          = renderClip library (clearSurface w) last
              (Array.at_ (normalizeTimeline clips)
                         (Array.length (normalizeTimeline clips) - 2))
              (sub t (TimelineClip.start last)).
Proof.
  intros Hne Hpos Ht.
  assert (Hnone : forall clip, In clip (normalizeTimeline clips) ->
                               clipContains t clip = false).
  { destruct Ht as [Hneg | ->].
    - now apply no_clip_before_start.
    - apply no_clip_at_NaN. }
  split; [exact Hnone|].
  apply renderFrame_fallback; [|exact Hnone].
  unfold normalizeTimeline. destruct clips; [contradiction|discriminate].
Qed.

(** C4 (as the code has it).  When the cache has no element for the media
    of the selected clip, [renderFrame] returns normally after its opening
    background fill: the cache is untouched, the one operation applied to
    the canvas is the full-frame fill with [#050814], and under the default
    alpha and compositing every pixel of the canvas then shows that colour. *)
Theorem renderFrame_missing_media_clears
    (timeline : list TimelineClip.t) (w : world) (t : number) (clip : TimelineClip.t) :
  Array.at_ timeline (safeIndex timeline t) = Some clip ->
  mediaCache w (TimelineClip.mediaId clip) = None ->
  renderFrame timeline library w t = Ok (clearSurface w)
  /\ mediaCache (clearSurface w) = mediaCache w
  /\ saved (canvas (clearSurface w)) = saved (canvas w)
  /\ ops (canvas (clearSurface w))
     = ops (canvas w)
       ++ [FillRect (mkState (Hex "#050814")
                             (globalAlpha (state (canvas w)))
                             (globalCompositeOperation (state (canvas w))))
                    (Fin 0) (Fin 0) CANVAS_WIDTH CANVAS_HEIGHT]
  /\ (globalAlpha (state (canvas w)) = Fin 1 ->
      globalCompositeOperation (state (canvas w)) = source_over ->
      forall px py, onCanvas px py ->
        pixelAt (ops (canvas (clearSurface w))) px py = Solid "#050814").
Proof.
  intros Hat Hmiss. repeat split.
  - unfold renderFrame.
    destruct timeline as [|c rest]; [unfold Array.at_ in Hat; simpl in Hat|].
    + destruct (safeIndex [] t <? 0); [discriminate|].
      destruct (Z.to_nat (safeIndex [] t)); discriminate.
    + replace (Array.length (c :: rest) =? 0) with false
        by (unfold Array.length; simpl; lia).
      rewrite Hat. unfold renderClip. simpl. now rewrite Hmiss.
  - intros Ha Hc px py [Hx Hy]. simpl. unfold pixelAt.
    rewrite fold_left_app. simpl. rewrite Ha, Hc.
    replace (inRect (Fin 0) (Fin 0) CANVAS_WIDTH CANVAS_HEIGHT px py) with true;
      [reflexivity|].
    symmetry. unfold inRect, CANVAS_WIDTH, CANVAS_HEIGHT, ofZ. cbn.
    unfold Qlt_bool, Qle_bool. cbn.
    repeat (apply andb_true_iff; split);
      try apply negb_true_iff; try apply Z.leb_le; try apply Z.leb_gt; lia.
Qed.

End Renderer.

(** C3, counterexample.  On the two-clip timeline (4 s then 3 s) timestamps
    -1 and [NaN] select the second clip and timestamp 0 the first, and the
    frame rendered at -1 is not the frame rendered at 0. *)
Lemma renderFrame_negative_is_not_zero :
  safeIndex (normalizeTimeline Demo.clips) (Fin (-1)) = 1
  /\ safeIndex (normalizeTimeline Demo.clips) NaN = 1
  /\ safeIndex (normalizeTimeline Demo.clips) (Fin 0) = 0
  /\ ~ (forall t, lt t (Fin 0) = true \/ t = NaN ->
          renderFrame (normalizeTimeline Demo.clips) Demo.library Demo.loaded t
          = renderFrame (normalizeTimeline Demo.clips) Demo.library Demo.loaded (Fin 0)).
Proof.
  repeat split; try reflexivity.
  intro H. specialize (H (Fin (-1)) (or_introl eq_refl)).
  apply (f_equal Demo.shown) in H. vm_compute in H. discriminate.
Qed.

(** C4, counterexample.  With the video not decoded yet, a frame at 1 s
    draws the image; the next frame, at 5 s, finds no element for the video
    and returns, and the centre pixel that showed the image now shows the
    background colour. *)
Lemma missing_media_repaints_surface :
  exists w1 w2,
    renderFrame (normalizeTimeline Demo.clips) Demo.library Demo.loading (Fin 1) = Ok w1
    /\ mediaCache w1 "vid" = None
    /\ renderFrame (normalizeTimeline Demo.clips) Demo.library w1 (Fin 5) = Ok w2
    /\ pixelAt (ops (canvas w2)) 640 360 = Solid "#050814"
    /\ pixelAt (ops (canvas w1)) 640 360 <> pixelAt (ops (canvas w2)) 640 360.
Proof.
  eexists. eexists. split; [reflexivity|]. split; [reflexivity|].
  split; [reflexivity|]. split; [reflexivity|].
  vm_compute. discriminate.
Qed.

(** ** The duration advisory *)

Section Advisory.

Lemma compositionDuration_is_sum (st : AppState.t) :
  compositionDuration st = totalDuration (AppState.timeline st).
Proof.
  unfold compositionDuration, totalDuration, normalizeTimeline.
  apply totalDuration_normalizeFrom.
Qed.

Lemma activeAudio_none_iff (st : AppState.t) :
  activeAudio st = None <-> AppState.audios st = [].
Proof.
  unfold activeAudio. split.
  - destruct (find _ _); [discriminate|].
    destruct (AppState.audios st); [reflexivity|discriminate].
  - intros ->. reflexivity.
Qed.

Lemma truthy_false_iff (x : number) :
  truthy x = false <-> x = NaN \/ same x (Fin 0).
Proof.
  destruct x as [| | |q]; cbn.
  - split; auto.
  - split; [discriminate | intros [H | []]; discriminate].
  - split; [discriminate | intros [H | []]; discriminate].
  - rewrite negb_false_iff, Qeq_bool_iff. split; [now right|].
    intros [H | H]; [discriminate | exact H].
Qed.

(** C5 (as the code has it).  With an active audio and a timeline whose clip
    durations sum to [T], the advisory is shown exactly when
    [|A - T| > 0.8], where [A] is the measured [durationSeconds] of the
    audio unless that is 0 or [NaN], in which case [A] is its
    [durationEstimateSeconds].  The subtraction, the absolute value and the
    comparison are the ones the code makes. *)
Theorem durationMismatch_measured_or_estimate
    (st : AppState.t) (audio : GeneratedAudio.t) :
  activeAudio st = Some audio ->
  (truthy (GeneratedAudio.durationSeconds audio) = true ->
   (durationMismatch st = true
    <-> gt (abs (sub (GeneratedAudio.durationSeconds audio)
                     (totalDuration (AppState.timeline st))))
           (Fin (8 # 10)) = true))
  /\ (GeneratedAudio.durationSeconds audio = NaN
       \/ same (GeneratedAudio.durationSeconds audio) (Fin 0) ->
      (durationMismatch st = true
       <-> gt (abs (sub (GeneratedAudio.durationEstimateSeconds audio)
                        (totalDuration (AppState.timeline st))))
              (Fin (8 # 10)) = true)).
Proof.
  intro Hact. unfold durationMismatch, audioDuration, orElse.
  rewrite Hact, compositionDuration_is_sum. split.
  - intros ->. reflexivity.
  - intro Hfalsy. apply truthy_false_iff in Hfalsy. rewrite Hfalsy. reflexivity.
Qed.

End Advisory.

(** C5, counterexample.  A take whose measured duration reads 0 and whose
    estimate is 7 s, over 7 s of clips: the measured duration is 7 s away
    from the total, and no advisory is shown, because the estimate is
    compared.  A take whose measured duration reads [NaN], estimated at
    7 s, over 4 s of clips: [|NaN - 4| > 0.8] is false, and the advisory
    is shown. *)
Lemma unmeasured_audio_is_compared_by_estimate :
  (activeAudio Demo.unmeasuredState = Some Demo.unmeasured
   /\ GeneratedAudio.durationSeconds Demo.unmeasured = Fin 0
   /\ totalDuration (AppState.timeline Demo.unmeasuredState) = Fin 7
   /\ gt (abs (sub (GeneratedAudio.durationSeconds Demo.unmeasured)
                   (totalDuration (AppState.timeline Demo.unmeasuredState))))
         (Fin (8 # 10)) = true
   /\ durationMismatch Demo.unmeasuredState = false)
  /\ (activeAudio Demo.unreadState = Some Demo.unread
      /\ GeneratedAudio.durationSeconds Demo.unread = NaN
      /\ totalDuration (AppState.timeline Demo.unreadState) = Fin 4
      /\ gt (abs (sub (GeneratedAudio.durationSeconds Demo.unread)
                      (totalDuration (AppState.timeline Demo.unreadState))))
            (Fin (8 # 10)) = false
      /\ durationMismatch Demo.unreadState = true).
Proof. repeat split. Qed.

(** ** The export guard *)

Section ExportGuard.

(** C6.  With an empty timeline, or with no active audio, [handleExport]
    returns the component as it was: no host call is added (no capture
    stream, no recorder) and the player state is the same. *)
Theorem handleExport_noop (c : Component) :
  AppState.timeline (store c) = [] \/ activeAudio (store c) = None ->
  handleExport c = c.
Proof.
  intros [H | H]; unfold handleExport; rewrite H.
  - destruct (canvasRef c), (activeAudio (store c)); reflexivity.
  - destruct (canvasRef c); reflexivity.
Qed.

(** When both refs, an active audio and a clip are there, the export does
    start: the recorder is created and the player is marked exporting. *)
Lemma handleExport_starts (c : Component) surface speaker audio clip rest :
  canvasRef c = Some surface ->
  audioRef c = Some speaker ->
  activeAudio (store c) = Some audio ->
  AppState.timeline (store c) = clip :: rest ->
  In (NewMediaRecorder "video/webm;codecs=vp9,opus" 4000000) (calls (handleExport c))
  /\ In (CaptureStream 30) (calls (handleExport c))
  /\ PlayerState.isExporting (playerState (handleExport c)) = true.
Proof.
  intros Hc Ha Hact Ht. unfold handleExport. rewrite Hc, Ha, Hact, Ht. simpl.
  repeat split; apply in_or_app; right; simpl; tauto.
Qed.

End ExportGuard.

(** On the demo page the export starts. *)
Example export_starts_demo :
  In (NewMediaRecorder "video/webm;codecs=vp9,opus" 4000000)
     (calls (handleExport Demo.component))
  /\ PlayerState.isExporting (playerState (handleExport Demo.component)) = true
  /\ handleExport Demo.component <> Demo.component.
Proof.
  split; [|split].
  - eapply handleExport_starts; reflexivity.
  - reflexivity.
  - discriminate.
Qed.

(** ** The white-flash overlay *)

Section WhiteFlash.

Lemma hundredths (n : Z) : (n # 100 == inject_Z n * (1 # 100))%Q.
Proof. unfold Qeq, inject_Z. simpl. lia. Qed.

Lemma round_to_hundredths (x : Q) :
  (0 <= x)%Q ->
  (Qabs ((Qfloor (x * 100 + (1 # 2)) # 100) - x) <= 5 # 1000)%Q.
Proof.
  intro Hx.
  pose proof (Qfloor_le (x * 100 + (1 # 2))) as Hlo.
  pose proof (Qlt_floor (x * 100 + (1 # 2))) as Hhi.
  rewrite inject_Z_plus in Hhi.
  rewrite hundredths. apply Qabs_Qle_condition.
  change (inject_Z 1) with 1%Q in Hhi. lra.
Qed.

Lemma flashOpacity_Fin (p : Q) :
  flashOpacity (Fin p)
  = if Qlt_bool 0 (1 - p * 2) then Fin (1 - p * 2) else Fin 0.
Proof. reflexivity. Qed.

(** C7 (as the code has it).  For a progress [p] in [0, 1] the white-flash
    overlay is one full-frame fill in [rgba(255,255,255,a)], where [a] is
    [max(0, 1 - 2p)] printed with two decimals: a multiple of 1/100 within
    0.005 of [1 - 2p] while [p <= 1/2], and 0 from [p = 1/2] on.  The
    drawing state is restored afterwards. *)
Theorem white_flash_overlay_opacity (c : ctx) (p : Q) :
  (0 <= p <= 1)%Q ->
  exists n : Z,
    toFixed2 (flashOpacity (Fin p)) = Fin (n # 100)
    /\ applyTransitionOverlay c white_flash (Fin p)
       = mkCtx (state c) (saved c)
           (ops c ++ [FillRect (mkState (Rgba 255 255 255 (Fin (n # 100)))
                                        (globalAlpha (state c))
                                        (globalCompositeOperation (state c)))
                               (Fin 0) (Fin 0) CANVAS_WIDTH CANVAS_HEIGHT])
    /\ ((p <= 1 # 2)%Q -> (Qabs ((n # 100) - (1 - 2 * p)) <= 5 # 1000)%Q)
    /\ ((1 # 2 <= p)%Q -> n = 0).
Proof.
  intros [Hp0 Hp1].
  assert (Hfix : exists n : Z,
             toFixed2 (flashOpacity (Fin p)) = Fin (n # 100)
             /\ ((p <= 1 # 2)%Q -> (Qabs ((n # 100) - (1 - 2 * p)) <= 5 # 1000)%Q)
             /\ ((1 # 2 <= p)%Q -> n = 0)).
  { rewrite flashOpacity_Fin.
    destruct (Qlt_bool 0 (1 - p * 2)) eqn:E.
    - apply Qlt_bool_iff in E. unfold toFixed2.
      replace (Qlt_bool (1 - p * 2) 0) with false
        by (symmetry; apply Qlt_bool_false; lra).
      eexists. split; [reflexivity|]. split.
      + intros _.
        assert (Heq : (1 - 2 * p == 1 - p * 2)%Q) by ring.
        rewrite Heq. apply round_to_hundredths. lra.
      + intro Hhalf. lra.
    - apply Qlt_bool_false in E.
      exists 0. split; [reflexivity|]. split; [|reflexivity].
      intros Hhalf. apply Qabs_Qle_condition.
      assert (Hz : (0 # 100 == 0)%Q) by reflexivity. rewrite Hz. lra. }
  destruct Hfix as (n & Hn & Hnear & Hzero).
  exists n. repeat split; trivial.
  unfold applyTransitionOverlay. rewrite Hn. destruct c as [st sv os].
  reflexivity.
Qed.

End WhiteFlash.

(** C7, counterexample.  At progress 0.333 the overlay is filled with
    alpha 0.33, which is not [max(0, 1 - 2 * 0.333) = 0.334]. *)
Lemma white_flash_opacity_is_rounded :
  ops (applyTransitionOverlay Demo.mounted white_flash (Fin (333 # 1000)))
  = ops Demo.mounted
    ++ [FillRect (mkState (Rgba 255 255 255 (Fin (33 # 100))) (Fin 1) source_over)
                 (Fin 0) (Fin 0) CANVAS_WIDTH CANVAS_HEIGHT]
  /\ same (flashOpacity (Fin (333 # 1000))) (Fin (334 # 1000))
  /\ ~ same (Fin (33 # 100)) (flashOpacity (Fin (333 # 1000))).
Proof.
  split; [reflexivity|]. split; [reflexivity|].
  vm_compute. discriminate.
Qed.

(** ** Seeking a video *)

Section Seeking.

Lemma seekIfDrifted_cases (a : MediaAsset.t) (el : Canvas.element) (timestamp : number) :
  seekIfDrifted a el timestamp = el
  \/ (isFinite timestamp = true
      /\ gt (abs (sub (currentTime el) (safeTime a el timestamp))) (Fin (3 # 100)) = true
      /\ seekIfDrifted a el timestamp = seek el (safeTime a el timestamp)).
Proof.
  unfold seekIfDrifted.
  destruct (negb (isNaN timestamp) && isFinite timestamp) eqn:Hfin; [|now left].
  apply andb_true_iff in Hfin. destruct Hfin as [_ Hfin].
  destruct (gt _ _) eqn:Hdrift; [|now left].
  right. auto.
Qed.

Lemma safeTime_clamped (a : MediaAsset.t) (el : Canvas.element) (ts : Q) :
  gt (abs (sub (currentTime el) (safeTime a el (Fin ts)))) (Fin (3 # 100)) = true ->
  exists t : Q,
    safeTime a el (Fin ts) = Fin t
    /\ (0 <= t)%Q
    /\ ((0 <= ts)%Q -> (t <= ts)%Q)
    /\ (forall d, reportedDuration a el = Fin d ->
                  (5 # 100 <= d)%Q -> (t <= d - (5 # 100))%Q /\ (t < d)%Q)
    /\ (forall d, reportedDuration a el = Fin d -> (d < 5 # 100)%Q -> (t == 0)%Q)
    /\ (forall d, reportedDuration a el = Fin d ->
                  (0 <= ts <= d - (5 # 100))%Q -> (t == ts)%Q).
Proof.
  unfold safeTime. intro Hdrift.
  destruct (reportedDuration a el) as [| | |d] eqn:HD.
  - cbn in Hdrift. destruct (currentTime el); discriminate.
  - cbn in *. exists 0%Q. clamp_done.
  - cbn in *. destruct (Qlt_bool 0 ts) eqn:E; qprop.
    + exists ts. clamp_done.
    + exists 0%Q. clamp_done.
  - cbn in *. clear Hdrift.
    destruct (Qlt_bool (d - (5 # 100)) ts) eqn:E1; cbn.
    + destruct (Qlt_bool 0 (d - (5 # 100))) eqn:E2; qprop.
      * exists (d - (5 # 100))%Q. clamp_done.
      * exists 0%Q. clamp_done.
    + destruct (Qlt_bool 0 ts) eqn:E2; qprop.
      * exists ts. clamp_done.
      * exists 0%Q. clamp_done.
Qed.

(** When [drawMedia] changes the element it was given, the asset is a video
    that is ready, the timestamp is finite, and the position assigned is
    [safeTime = max(0, min(timestamp, D - 0.05))] for the reported duration
    [D]; the assignment is made only when the current position is more than
    0.03 away from [safeTime]. *)
Lemma drawMedia_seek_is_clamped
    (c : ctx) (media : RenderableMedia) (timestamp alpha : number)
    (c' : ctx) (el' : Canvas.element) :
  drawMedia c media timestamp alpha = Ok (c', el') ->
  el' <> element media ->
  exists (a : MediaAsset.t) (ts t : Q),
    asset media = Some a
    /\ MediaAsset.kind a = video
    /\ lt (readyState (element media)) (ofZ 2) = false
    /\ timestamp = Fin ts
    /\ safeTime a (element media) timestamp = Fin t
    /\ el' = seek (element media) (Fin t)
    /\ gt (abs (sub (currentTime (element media)) (Fin t))) (Fin (3 # 100)) = true
    /\ (0 <= t)%Q
    /\ ((0 <= ts)%Q -> (t <= ts)%Q)
    /\ (forall d, reportedDuration a (element media) = Fin d ->
                  (5 # 100 <= d)%Q -> (t <= d - (5 # 100))%Q /\ (t < d)%Q)
    /\ (forall d, reportedDuration a (element media) = Fin d ->
                  (d < 5 # 100)%Q -> (t == 0)%Q)
    /\ (forall d, reportedDuration a (element media) = Fin d ->
                  (0 <= ts <= d - (5 # 100))%Q -> (t == ts)%Q).
Proof.
  unfold drawMedia. intros Hdraw Hchanged.
  destruct (asset media) as [a|]; [|discriminate].
  destruct (MediaAsset.kind a) eqn:Hkind.
  - destruct (negb (complete (element media)));
      injection Hdraw as _ <-; now contradiction Hchanged.
  - destruct (lt (readyState (element media)) (ofZ 2)) eqn:Hready.
    { injection Hdraw as _ <-. now contradiction Hchanged. }
    injection Hdraw as _ <-.
    destruct (seekIfDrifted_cases a (element media) timestamp)
      as [Hsame | (Hfin & Hdrift & Hseek)].
    { now contradiction Hchanged. }
    destruct timestamp as [| | |ts]; try discriminate.
    destruct (safeTime_clamped a (element media) ts Hdrift)
      as (t & Ht & H0 & Hts & Hmax & Hshort & Hsame).
    exists a, ts, t. rewrite Hseek, Ht in *. repeat split; trivial.
    + apply (Hmax d); assumption.
    + apply (Hmax d); assumption.
Qed.

Lemma drawMedia_moves
    (c : ctx) (a : MediaAsset.t) (el : Canvas.element) (timestamp alpha : number)
    (c' : ctx) (el' : Canvas.element) :
  drawMedia c (mkMedia el (Some a)) timestamp alpha = Ok (c', el') ->
  el' = el
  \/ exists ts : Q,
       timestamp = Fin ts
       /\ el' = seek el (safeTime a el (Fin ts))
       /\ gt (abs (sub (currentTime el) (safeTime a el (Fin ts)))) (Fin (3 # 100)) = true.
Proof.
  unfold drawMedia. cbn [asset element]. intro Hdraw.
  destruct (MediaAsset.kind a).
  - destruct (negb (complete el)); injection Hdraw as _ <-; now left.
  - destruct (lt (readyState el) (ofZ 2)); [injection Hdraw as _ <-; now left|].
    injection Hdraw as _ <-.
    destruct (seekIfDrifted_cases a el timestamp) as [-> | (Hfin & Hdrift & ->)];
      [now left|].
    destruct timestamp as [| | |ts]; try discriminate.
    right. exists ts. auto.
Qed.

Lemma Qabs_gt (x c : Q) : (c < Qabs x)%Q <-> (x < - c \/ c < x)%Q.
Proof.
  split.
  - apply Qabs_case; intros; [right | left]; lra.
  - intro H. apply Qabs_case; intros; lra.
Qed.

Lemma reportedDuration_seek (a : MediaAsset.t) (el : Canvas.element) (t : number) :
  reportedDuration a (seek el t) = reportedDuration a el.
Proof. unfold reportedDuration. destruct (MediaAsset.duration a), el; reflexivity. Qed.

(** The clamp of [safeTime] on a position that is itself 0 or within the
    clamp: a seek is then a seek into [0, D - 0.05], and the position was
    more than 0.03 away from the timestamp itself. *)
Ltac clamp_goal :=
  repeat split; trivial; cbn [sub min max lt le gt abs]; qprop;
  try lra; try (apply Qabs_gt; lra).

Lemma clamp_from_range (D : number) (ct ts : Q) :
  (0 <= ct)%Q ->
  (ct == 0)%Q \/ le (Fin ct) (sub D (Fin (5 # 100))) = true ->
  gt (abs (sub (Fin ct) (max (Fin 0) (min (Fin ts) (sub D (Fin (5 # 100)))))))
     (Fin (3 # 100)) = true ->
  exists t : Q,
    max (Fin 0) (min (Fin ts) (sub D (Fin (5 # 100)))) = Fin t
    /\ (0 <= t)%Q
    /\ le (Fin t) (sub D (Fin (5 # 100))) = true
    /\ lt (Fin t) D = true
    /\ gt (abs (sub (Fin ct) (Fin ts))) (Fin (3 # 100)) = true.
Proof.
  intros Hct Hrange.
  destruct D as [| | |d]; cbn [sub min max lt le gt abs] in *.
  - discriminate.
  - intro Hdrift. exfalso. destruct Hrange as [H0 | H]; [|discriminate].
    qprop. apply Qabs_gt in Hdrift. lra.
  - destruct (Qlt_bool 0 ts) eqn:E; cbn [sub min max lt le gt abs];
      intro Hdrift; qprop; apply Qabs_gt in Hdrift.
    + exists ts. clamp_goal.
    + exists 0%Q. clamp_goal.
  - destruct (Qlt_bool (d - (5 # 100)) ts) eqn:E1; cbn [sub min max lt le gt abs].
    + destruct (Qlt_bool 0 (d - (5 # 100))) eqn:E2; cbn [sub min max lt le gt abs];
        intro Hdrift; qprop; apply Qabs_gt in Hdrift.
      * exists (d - (5 # 100))%Q. destruct Hrange as [H0 | H]; qprop;
          clamp_goal.
      * exfalso. destruct Hrange as [H0 | H]; qprop; lra.
    + destruct (Qlt_bool 0 ts) eqn:E2; cbn [sub min max lt le gt abs];
        intro Hdrift; qprop; apply Qabs_gt in Hdrift.
      * exists ts. clamp_goal.
      * destruct Hrange as [H0 | H]; qprop.
        -- destruct (Qlt_le_dec (d - (5 # 100)) 0) as [Hneg | Hpos].
           ++ exfalso. lra.
           ++ exists 0%Q. clamp_goal.
        -- exists 0%Q. clamp_goal.
Qed.

(** A position the program can have given a video is not negative and,
    unless it is 0, at most [D - 0.05]. *)
Lemma positioned_range (a : MediaAsset.t) (el : Canvas.element) :
  positioned a el ->
  exists ct : Q,
    currentTime el = Fin ct
    /\ (0 <= ct)%Q
    /\ ((ct == 0)%Q
        \/ le (Fin ct) (sub (reportedDuration a el) (Fin (5 # 100))) = true).
Proof.
  induction 1 as [el H0 | el c timestamp alpha c' el' Hpos IH Hdraw].
  - exists 0%Q. split; [exact H0|]. split; [lra | now left].
  - destruct (drawMedia_moves _ _ _ _ _ _ _ Hdraw) as [-> | (ts & -> & -> & Hdrift)];
      [exact IH|].
    destruct IH as (ct & Hcur & Hct & Hrange).
    unfold safeTime in *. rewrite Hcur in Hdrift.
    destruct (clamp_from_range _ ct ts Hct Hrange Hdrift)
      as (t & -> & Ht0 & Hle & _).
    rewrite reportedDuration_seek.
    destruct el; cbn [seek currentTime] in *; [discriminate|].
    exists t. split; [reflexivity|]. split; [exact Ht0 | now right].
Qed.

(** C8.  A video the loader created and only [drawMedia] has moved is drawn:
    when [drawMedia] seeks it, the position assigned is not negative and is
    at most [D - 0.05], so strictly before the asset's reported end [D], and
    the position it had was more than 0.03 s away from the local time asked
    for (and from the position assigned, which is that local time clamped).
    The element is then again one that only [drawMedia] has moved. *)
Theorem drawMedia_seek_stays_before_end
    (c : ctx) (a : MediaAsset.t) (el : Canvas.element) (timestamp alpha : number)
    (c' : ctx) (el' : Canvas.element) :
  positioned a el ->
  drawMedia c (mkMedia el (Some a)) timestamp alpha = Ok (c', el') ->
  el' <> el ->
  exists t : Q,
    el' = seek el (Fin t)
    /\ currentTime el' = Fin t
    /\ safeTime a el timestamp = Fin t
    /\ (0 <= t)%Q
    /\ le (Fin t) (sub (reportedDuration a el) (Fin (5 # 100))) = true
    /\ lt (Fin t) (reportedDuration a el) = true
    /\ gt (abs (sub (currentTime el) timestamp)) (Fin (3 # 100)) = true
    /\ gt (abs (sub (currentTime el) (Fin t))) (Fin (3 # 100)) = true
    /\ positioned a el'.
Proof.
  intros Hpos Hdraw Hchanged.
  assert (Hafter : positioned a el') by (eapply positioned_drawn; eassumption).
  destruct (drawMedia_seek_is_clamped _ _ _ _ _ _ Hdraw Hchanged)
    as (a' & ts & t & Ha & _ & _ & -> & Hsafe & -> & Hdrift & _).
  cbn [asset element] in *. injection Ha as <-.
  destruct (positioned_range a el Hpos) as (ct & Hcur & Hct & Hrange).
  pose proof Hdrift as Hclamped.
  unfold safeTime in Hsafe. rewrite Hcur in Hdrift. rewrite <- Hsafe in Hdrift.
  destruct (clamp_from_range _ ct ts Hct Hrange Hdrift)
    as (t' & Ht' & Ht0 & Hle & Hlt & Hraw).
  rewrite Hsafe in Ht'. injection Ht' as <-.
  exists t. rewrite Hcur.
  split; [reflexivity|].
  split; [destruct el; cbn [seek currentTime] in *; [discriminate | reflexivity]|].
  split; [exact Hsafe|]. split; [exact Ht0|]. split; [exact Hle|].
  split; [exact Hlt|]. split; [exact Hraw|].
  split; [now rewrite <- Hcur | exact Hafter].
Qed.

(** A frame leaves every cached element where only [drawMedia] has put it. *)
Lemma drawCached_keeps_settled (library : list MediaAsset.t) (w w' : world)
    (key : string) (el : Canvas.element) (timestamp alpha : number) :
  settled library w ->
  mediaCache w key = Some el ->
  drawCached library w key el timestamp alpha = Ok w' ->
  settled library w'.
Proof.
  intros Hset Hcached. unfold drawCached.
  destruct (find _ library) as [a|] eqn:Ha; [|discriminate].
  destruct (drawMedia (canvas w) (mkMedia el (Some a)) timestamp alpha)
    as [[c' el']|] eqn:Hdraw; [|discriminate].
  cbn [bind fst snd]. intro H. injection H as <-.
  intros k e b. unfold stored. cbn [mediaCache withCanvas].
  destruct (String.eqb k key) eqn:Ek.
  - apply String.eqb_eq in Ek. subst k. intros He Hb Hkind. injection He as <-.
    assert (b = a) by congruence. subst b.
    eapply positioned_drawn; [|exact Hdraw]. eapply Hset; eassumption.
  - apply Hset.
Qed.

Lemma drawCached_cache (library : list MediaAsset.t) (w w' : world)
    (key : string) (el : Canvas.element) (timestamp alpha : number) :
  drawCached library w key el timestamp alpha = Ok w' ->
  (exists el', mediaCache w' key = Some el')
  /\ (forall k, String.eqb k key = false -> mediaCache w' k = mediaCache w k).
Proof.
  unfold drawCached.
  destruct (drawMedia _ _ _ _) as [[c' el']|]; [|discriminate].
  cbn [bind fst snd]. intro H. injection H as <-.
  unfold stored. cbn [mediaCache withCanvas]. split.
  - exists el'. now rewrite String.eqb_refl.
  - intros k ->. reflexivity.
Qed.

Lemma withCanvas_settled (library : list MediaAsset.t) (w : world) (c : ctx) :
  settled library w -> settled library (withCanvas w c).
Proof. intros Hset key el a. exact (Hset key el a). Qed.

Lemma renderClip_keeps_settled (library : list MediaAsset.t) (w w' : world)
    (currentClip : TimelineClip.t) (previousClip : option TimelineClip.t)
    (localTime : number) :
  settled library w ->
  renderClip library w currentClip previousClip localTime = Ok w' ->
  settled library w'.
Proof.
  intros Hset. unfold renderClip.
  destruct (mediaCache w (TimelineClip.mediaId currentClip)) as [el|] eqn:Hcur;
    [|intro H; injection H as <-; exact Hset].
  assert (Hplain :
            bind (drawCached library w (TimelineClip.mediaId currentClip) el
                    localTime (Fin 1))
              (fun w0 =>
                 match TimelineClip.transition currentClip with
                 | fade_in =>
                     let progress := transitionProgress localTime in
                     let c := save (canvas w0) in
                     let c := setFillStyle c (Rgba 0 0 0 (sub (Fin 1) progress)) in
                     let c := fillRect c (Fin 0) (Fin 0) CANVAS_WIDTH CANVAS_HEIGHT in
                     Ok (withCanvas w0 (restore c))
                 | white_flash | cine_sweep =>
                     let progress := transitionProgress localTime in
                     Ok (withCanvas w0
                           (applyTransitionOverlay (canvas w0)
                              (TimelineClip.transition currentClip) progress))
                 | _ => Ok w0
                 end) = Ok w' ->
            settled library w').
  { destruct (drawCached library w (TimelineClip.mediaId currentClip) el
                localTime (Fin 1)) as [w1|] eqn:Hdraw; [|discriminate].
    pose proof (drawCached_keeps_settled _ _ _ _ _ _ _ Hset Hcur Hdraw) as Hset1.
    cbn [bind]. cbv zeta.
    destruct (TimelineClip.transition currentClip);
      intro H; injection H as <-; trivial; now apply withCanvas_settled. }
  destruct (isCrossfade (TimelineClip.transition currentClip)); [|exact Hplain].
  destruct previousClip as [previousClip|]; [|exact Hplain].
  cbv zeta.
  destruct (mediaCache w (TimelineClip.mediaId previousClip)) as [elp|] eqn:Hprev.
  - destruct (drawCached library w (TimelineClip.mediaId previousClip) elp _ _)
      as [w1|] eqn:Hdraw; [|discriminate].
    pose proof (drawCached_keeps_settled _ _ _ _ _ _ _ Hset Hprev Hdraw) as Hset1.
    destruct (drawCached_cache _ _ _ _ _ _ _ Hdraw) as [[elp' Hkey] Hother].
    cbn [bind]. intro H.
    assert (Hnow : mediaCache w1 (TimelineClip.mediaId currentClip)
                   = Some (deref w1 (TimelineClip.mediaId currentClip) el)).
    { unfold deref.
      destruct (String.eqb (TimelineClip.mediaId currentClip)
                           (TimelineClip.mediaId previousClip)) eqn:Esame.
      - apply String.eqb_eq in Esame. rewrite Esame, Hkey. reflexivity.
      - rewrite (Hother _ Esame), Hcur. reflexivity. }
    exact (drawCached_keeps_settled _ _ _ _ _ _ _ Hset1 Hnow H).
  - cbn [bind]. intro H.
    assert (Hnow : mediaCache w (TimelineClip.mediaId currentClip)
                   = Some (deref w (TimelineClip.mediaId currentClip) el)).
    { unfold deref. now rewrite Hcur. }
    exact (drawCached_keeps_settled _ _ _ _ _ _ _ Hset Hnow H).
Qed.

(** Frames keep the cache settled: a video the loader cached at position 0
    is, after any number of frames, where only [drawMedia] has put it. *)
Lemma renderFrame_keeps_settled (normalizedTimeline : list TimelineClip.t)
    (library : list MediaAsset.t) (w w' : world) (time : number) :
  settled library w ->
  renderFrame normalizedTimeline library w time = Ok w' ->
  settled library w'.
Proof.
  intros Hset. unfold renderFrame.
  assert (Hclear : settled library (clearSurface w))
    by (unfold clearSurface; now apply withCanvas_settled).
  destruct (Array.length normalizedTimeline =? 0);
    [intro H; injection H as <-; exact Hclear|].
  cbv zeta.
  destruct (Array.at_ normalizedTimeline (safeIndex normalizedTimeline time));
    [|intro H; injection H as <-; exact Hclear].
  apply renderClip_keeps_settled. exact Hclear.
Qed.

End Seeking.

(** The cache of the two-clip composition, as the loader filled it, is
    settled, and so it is after the frames at 5 s and 6.5 s, which seek the
    video to 1 s and then 2.5 s. *)
Example demo_frames_settled :
  settled Demo.library Demo.loaded
  /\ exists w1 w2,
       renderFrame (normalizeTimeline Demo.clips) Demo.library Demo.loaded (Fin 5) = Ok w1
       /\ renderFrame (normalizeTimeline Demo.clips) Demo.library w1 (Fin (65 # 10)) = Ok w2
       /\ mediaCache w2 "vid" = Some (seek Demo.film (Fin ((65 # 10) - 4)))
       /\ settled Demo.library w2.
Proof.
  assert (Hloaded : settled Demo.library Demo.loaded).
  { intros key el a Hcached Ha Hkind. apply positioned_created.
    unfold Demo.loaded in Hcached. cbn [mediaCache] in Hcached.
    destruct (String.eqb key "img") eqn:Eimg.
    - apply String.eqb_eq in Eimg. subst key.
      cbn in Ha. injection Ha as <-. discriminate.
    - destruct (String.eqb key "vid"); [|discriminate].
      injection Hcached as <-. reflexivity. }
  split; [exact Hloaded|].
  destruct (renderFrame (normalizeTimeline Demo.clips) Demo.library Demo.loaded (Fin 5))
    as [w1|] eqn:H1; [|discriminate].
  destruct (renderFrame (normalizeTimeline Demo.clips) Demo.library w1 (Fin (65 # 10)))
    as [w2|] eqn:H2.
  - exists w1, w2. split; [reflexivity|]. split; [exact H2|]. split.
    + vm_compute in H1. injection H1 as <-.
      vm_compute in H2. injection H2 as <-. reflexivity.
    + eapply renderFrame_keeps_settled; [|exact H2].
      eapply renderFrame_keeps_settled; [|exact H1]. exact Hloaded.
  - exfalso. vm_compute in H1. injection H1 as <-. vm_compute in H2. discriminate.
Qed.

(** Away from such positions the bound can fail: were a 0.04 s video
    standing at its end, [drawMedia] at local time 0.04 s would assign
    position 0, above [0.04 - 0.05], although the position was the local
    time.  No cached video is ever at that position. *)
Example short_video_at_its_end :
  (exists c' el',
      drawMedia Demo.mounted Demo.shortClip (Fin (4 # 100)) (Fin 1) = Ok (c', el')
      /\ el' <> element Demo.shortClip
      /\ currentTime el' = Fin 0
      /\ le (currentTime el')
            (sub (reportedDuration Demo.shortAsset (element Demo.shortClip))
                 (Fin (5 # 100))) = false)
  /\ ~ positioned Demo.shortAsset (element Demo.shortClip).
Proof.
  split.
  - eexists. eexists. split; [vm_compute; reflexivity|].
    repeat split. discriminate.
  - intro H. apply positioned_range in H.
    destruct H as (ct & Hcur & Hct & [H0 | Hle]).
    + injection Hcur as <-. discriminate.
    + injection Hcur as <-. discriminate.
Qed.

(** ** The theorems on the two-clip composition *)

(** The end-to-end scenario: starts 0 and 4, and a frame at 5 s renders the
    second clip at local time 1 s, the video being sought to 1 s. *)
Example scenario_two_clips :
  map TimelineClip.start (normalizeTimeline Demo.clips) = [Fin 0; Fin 4]
  /\ safeIndex (normalizeTimeline Demo.clips) (Fin 5) = 1
  /\ sub (Fin 5) (Fin 4) = Fin 1
  /\ exists w,
       renderFrame (normalizeTimeline Demo.clips) Demo.library Demo.loaded (Fin 5) = Ok w
       /\ mediaCache w "vid" = Some (seek Demo.film (Fin 1)).
Proof.
  repeat split. eexists. split; reflexivity.
Qed.

Lemma demo_clips_positive : Forall positive Demo.clips.
Proof. repeat constructor. Qed.

Lemma demo_clips_nonempty : Demo.clips <> [].
Proof. discriminate. Qed.

(** C1 on the two clips: the first starts at 0, the second at 0 + 4. *)
Lemma normalizeTimeline_demo :
  exists first second,
    nth_error (normalizeTimeline Demo.clips) 0 = Some first
    /\ nth_error (normalizeTimeline Demo.clips) 1 = Some second
    /\ TimelineClip.start first = Fin 0
    /\ TimelineClip.start second
       = add (TimelineClip.start first) (TimelineClip.duration first).
Proof.
  destruct (normalizeTimeline_cumulative_idempotent Demo.clips)
    as (_ & _ & Hfirst & Hstep & _).
  eexists. eexists. split; [reflexivity|]. split; [reflexivity|]. split.
  - apply Hfirst. reflexivity.
  - apply (Hstep 0%nat); reflexivity.
Defined.

(** C2 on the two clips: 5 s lies in one clip, 7 s is the end of the
    timeline and falls back to the last clip. *)
Lemma renderFrame_selects_clip_demo :
  (exists n clip,
      nth_error (normalizeTimeline Demo.clips) n = Some clip
      /\ clipContains (Fin 5) clip = true
      /\ safeIndex (normalizeTimeline Demo.clips) (Fin 5) = Z.of_nat n
      /\ renderFrame (normalizeTimeline Demo.clips) Demo.library Demo.loaded (Fin 5)
         = renderClip Demo.library (clearSurface Demo.loaded) clip
             (Array.at_ (normalizeTimeline Demo.clips) (Z.of_nat n - 1))
             (sub (Fin 5) (TimelineClip.start clip)))
  /\ (exists last,
        safeIndex (normalizeTimeline Demo.clips) (Fin 7)
        = Array.length (normalizeTimeline Demo.clips) - 1
        /\ renderFrame (normalizeTimeline Demo.clips) Demo.library Demo.loaded (Fin 7)
           = renderClip Demo.library (clearSurface Demo.loaded) last
               (Array.at_ (normalizeTimeline Demo.clips)
                          (Array.length (normalizeTimeline Demo.clips) - 2))
               (sub (Fin 7) (TimelineClip.start last))).
Proof.
  split.
  - destruct (proj1 (renderFrame_selects_clip Demo.library Demo.clips Demo.loaded
                       (Fin 5) demo_clips_nonempty demo_clips_positive)
                    eq_refl eq_refl)
      as (n & clip & Hn & Hc & _ & _ & Hs & Hr).
    exists n, clip. auto.
  - destruct (proj2 (renderFrame_selects_clip Demo.library Demo.clips Demo.loaded
                       (Fin 7) demo_clips_nonempty demo_clips_positive)
                    eq_refl)
      as (_ & last & _ & Hs & Hr).
    exists last. auto.
Defined.

(** C3 on the two clips, at -1 s. *)
Lemma renderFrame_before_start_demo :
  exists last,
    nth_error (normalizeTimeline Demo.clips)
              (List.length (normalizeTimeline Demo.clips) - 1) = Some last
    /\ safeIndex (normalizeTimeline Demo.clips) (Fin (-1))
       = Array.length (normalizeTimeline Demo.clips) - 1
    /\ renderFrame (normalizeTimeline Demo.clips) Demo.library Demo.loaded (Fin (-1))
       = renderClip Demo.library (clearSurface Demo.loaded) last
           (Array.at_ (normalizeTimeline Demo.clips)
                      (Array.length (normalizeTimeline Demo.clips) - 2))
           (sub (Fin (-1)) (TimelineClip.start last)).
Proof.
  apply (renderFrame_before_start_renders_last Demo.library Demo.clips Demo.loaded
           (Fin (-1)) demo_clips_nonempty demo_clips_positive).
  left. reflexivity.
Defined.

(** C4 on the two clips, the video not decoded, at 5 s. *)
Lemma renderFrame_missing_media_demo :
  renderFrame (normalizeTimeline Demo.clips) Demo.library Demo.loading (Fin 5)
  = Ok (clearSurface Demo.loading)
  /\ forall px py, onCanvas px py ->
       pixelAt (ops (canvas (clearSurface Demo.loading))) px py = Solid "#050814".
Proof.
  destruct (renderFrame_missing_media_clears Demo.library
              (normalizeTimeline Demo.clips) Demo.loading (Fin 5)
              (TimelineClip.mk "clip-2" "vid" (Fin 4) (Fin 3) nenhuma)
              eq_refl eq_refl)
    as (Hr & _ & _ & _ & Hpx).
  split; [exact Hr|].
  apply Hpx; reflexivity.
Defined.

(** C5 on the first take over the opening clip alone: 7.3 s of audio over
    4 s of picture, the advisory is shown; over both clips, 7 s, it is
    not. *)
Lemma durationMismatch_demo :
  activeAudio Demo.opened = Some Demo.audio
  /\ durationMismatch Demo.opened = true
  /\ durationMismatch Demo.state = false.
Proof.
  split; [reflexivity|]. split.
  - apply (proj1 (durationMismatch_measured_or_estimate Demo.opened Demo.audio eq_refl)
             eq_refl).
    reflexivity.
  - apply not_true_is_false. intro H.
    apply (proj1 (durationMismatch_measured_or_estimate Demo.state Demo.audio eq_refl)
             eq_refl) in H.
    discriminate.
Defined.

(** C6 on the page with no clip placed. *)
Lemma handleExport_noop_demo :
  AppState.timeline (store Demo.emptyComponent) = []
  /\ handleExport Demo.emptyComponent = Demo.emptyComponent.
Proof.
  split; [reflexivity|].
  apply handleExport_noop. left. reflexivity.
Defined.

(** C7 at a quarter of the window. *)
Lemma white_flash_overlay_demo :
  exists n : Z,
    toFixed2 (flashOpacity (Fin (1 # 4))) = Fin (n # 100)
    /\ (Qabs ((n # 100) - (1 - 2 * (1 # 4))) <= 5 # 1000)%Q.
Proof.
  assert (Hp : (0 <= 1 # 4 <= 1)%Q) by (unfold Qle; simpl; lia).
  destruct (white_flash_overlay_opacity Demo.mounted (1 # 4) Hp)
    as (n & Hn & _ & Hnear & _).
  exists n. split; [exact Hn|].
  apply Hnear. unfold Qle; simpl; lia.
Defined.

(** C8 on the 3 s video, as the loader created it, drawn at local time 1 s:
    it is sought to 1 s, which is within [0, 2.95]. *)
Lemma drawMedia_seek_demo :
  exists t : Q,
    seek Demo.film (Fin 1) = seek Demo.film (Fin t)
    /\ (0 <= t)%Q
    /\ le (Fin t) (sub (reportedDuration Demo.filmAsset Demo.film) (Fin (5 # 100))) = true
    /\ lt (Fin t) (reportedDuration Demo.filmAsset Demo.film) = true
    /\ gt (abs (sub (currentTime Demo.film) (Fin 1))) (Fin (3 # 100)) = true.
Proof.
  assert (Hcreated : positioned Demo.filmAsset Demo.film)
    by (apply positioned_created; reflexivity).
  assert (Hdraw : drawMedia Demo.mounted (mkMedia Demo.film (Some Demo.filmAsset))
                    (Fin 1) (Fin 1)
                  = Ok (drawFitted (setGlobalAlpha (save Demo.mounted) (Fin 1))
                          Demo.filmAsset (seek Demo.film (Fin 1)),
                        seek Demo.film (Fin 1))) by reflexivity.
  assert (Hchanged : seek Demo.film (Fin 1) <> Demo.film) by discriminate.
  destruct (drawMedia_seek_stays_before_end _ _ _ _ _ _ _ Hcreated Hdraw Hchanged)
    as (t & Hseek & _ & _ & H0 & Hle & Hlt & Hraw & _).
  exists t. auto.
Defined.

(** C10 on the demo state: removing the active take makes the other one
    active. *)
Lemma removeAudio_demo :
  Store.activeValid Demo.state
  /\ Store.activeValid (Store.removeAudio "a1" Demo.state)
  /\ AppState.activeAudioId (Store.removeAudio "a1" Demo.state) = Some "a2"%string.
Proof.
  assert (Hv : Store.activeValid Demo.state).
  { exists Demo.audio. split; [left|]; reflexivity. }
  destruct (removeAudio_keeps_active_valid "a1" Demo.state)
    as (_ & _ & _ & _ & _ & _ & Hhead & Hvalid).
  split; [exact Hv|]. split; [exact (Hvalid Hv)|].
  rewrite Hhead; reflexivity.
Defined.

(** * Further properties of the store and the component *)

Import StoreActions Handlers.

(** ** The active audio across store actions *)

Section ActiveAudio.
Import AppState Store.

Lemma removeAudio_activeKept id st : activeKept st -> activeKept (removeAudio id st).
Proof.
  unfold activeKept, activeValid, removeAudio, isActive. simpl.
  intros [Hnone Hvalid].
  destruct (activeAudioId st) as [a|] eqn:Ea.
  - destruct Hvalid as (audio & Hin & Hid).
    destruct (String.eqb a id) eqn:E.
    + destruct (filter _ (audios st)) as [|first rest] eqn:Ef.
      * split; [tauto | exact I].
      * split; [split; discriminate|].
        exists first. split; [now left | reflexivity].
    + assert (Hkept : In audio (filter (fun x => negb (String.eqb (GeneratedAudio.id x) id))
                                       (audios st))).
      { apply filter_In. split; [exact Hin|]. now rewrite Hid, E. }
      split.
      * split; [discriminate|]. intro Hempty. rewrite Hempty in Hkept. destruct Hkept.
      * exists audio. auto.
  - split; [|exact I]. split; [|reflexivity]. intros _.
    now rewrite (proj1 Hnone eq_refl).
Qed.

(** X1.  In every state the store can reach from its initial state, when
    [setActiveAudio] is only given ids of listed audios as the components
    do, [activeAudioId] is [null] exactly when there is no audio and
    otherwise is the id of a listed audio, which [activeAudio] returns. *)
Theorem reachable_active_audio (st : AppState.t) :
  reachable st ->
  (activeAudioId st = None <-> audios st = [])
  /\ activeValid st
  /\ (forall id, activeAudioId st = Some id ->
        exists audio, activeAudio st = Some audio
                      /\ In audio (audios st)
                      /\ GeneratedAudio.id audio = id).
Proof.
  intro Hreach.
  assert (Hkept : activeKept st).
  { induction Hreach as [|st a _ IH Hallowed].
    - split; [split; reflexivity | exact I].
    - destruct a; simpl in *; trivial.
      + split; [split; discriminate|].
        exists audio. split; [now left | reflexivity].
      + destruct Hallowed as (audio & Hin & Hid).
        split.
        * split; [discriminate|]. intro Hempty. simpl in Hempty.
          rewrite Hempty in Hin. destruct Hin.
        * exists audio. auto.
      + now apply removeAudio_activeKept.
      + split; [split; reflexivity | exact I]. }
  destruct Hkept as [Hnone Hvalid]. repeat split; try tauto.
  intros id Hid. unfold activeValid in Hvalid. rewrite Hid in Hvalid.
  destruct Hvalid as (audio & Hin & Haid).
  unfold activeAudio. rewrite Hid.
  destruct (find (fun x => String.eqb (GeneratedAudio.id x) id) (audios st))
    as [found|] eqn:Ef.
  - apply find_some in Ef. destruct Ef as [Hfin Heq].
    exists found. repeat split; trivial. now apply String.eqb_eq.
  - exfalso. pose proof (find_none _ _ Ef audio Hin) as Hno.
    simpl in Hno. rewrite Haid, String.eqb_refl in Hno. discriminate.
Qed.

(** X2.  [activeAudio] is undefined only when no audio is listed; what it
    returns is listed; it is the first audio whose id is [activeAudioId]
    when there is one, and the first audio of the list otherwise. *)
Theorem activeAudio_resolution (st : AppState.t) :
  (activeAudio st = None <-> audios st = [])
  /\ (forall audio, activeAudio st = Some audio -> In audio (audios st))
  /\ (forall id audio,
        activeAudioId st = Some id ->
        In audio (audios st) -> GeneratedAudio.id audio = id ->
        exists found, activeAudio st = Some found /\ GeneratedAudio.id found = id)
  /\ ((forall audio, In audio (audios st) ->
         Some (GeneratedAudio.id audio) <> activeAudioId st) ->
      activeAudio st = hd_error (audios st)).
Proof.
  unfold activeAudio. repeat split.
  - destruct (find _ _); [discriminate|].
    destruct (audios st); [reflexivity|discriminate].
  - intros ->. reflexivity.
  - intros audio H.
    destruct (find _ (audios st)) as [found|] eqn:Ef.
    + injection H as <-. now apply find_some in Ef.
    + destruct (audios st); [discriminate|]. injection H as <-. now left.
  - intros id audio Hid Hin Haid. rewrite Hid.
    destruct (find (fun x => String.eqb (GeneratedAudio.id x) id) (audios st))
      as [found|] eqn:Ef.
    + apply find_some in Ef. exists found. split; [reflexivity|].
      now apply String.eqb_eq.
    + pose proof (find_none _ _ Ef audio Hin) as Hno. simpl in Hno.
      rewrite Haid, String.eqb_refl in Hno. discriminate.
  - intro Hstale.
    destruct (find _ (audios st)) as [found|] eqn:Ef; [|reflexivity].
    apply find_some in Ef. destruct Ef as [Hin Heq]. exfalso.
    destruct (activeAudioId st) as [a|] eqn:Ea; [|discriminate].
    apply String.eqb_eq in Heq. apply (Hstale found Hin). now rewrite Heq.
Qed.

(** X3.  [removeMedia id] drops the asset [id] and every clip that shows it,
    keeps every other asset and clip, leaves audios, mode and active audio
    alone, and a timeline whose clips all named library assets still does. *)
Theorem removeMedia_keeps_resolved (id : string) (st : AppState.t) :
  (forall asset, In asset (mediaLibrary (removeMedia id st))
                 <-> In asset (mediaLibrary st) /\ MediaAsset.id asset <> id)
  /\ (forall clip, In clip (timeline (removeMedia id st))
                   <-> In clip (timeline st) /\ TimelineClip.mediaId clip <> id)
  /\ audios (removeMedia id st) = audios st
  /\ activeAudioId (removeMedia id st) = activeAudioId st
  /\ mode (removeMedia id st) = mode st
  /\ (resolved st -> resolved (removeMedia id st)).
Proof.
  assert (Hlib : forall asset, In asset (mediaLibrary (removeMedia id st))
                 <-> In asset (mediaLibrary st) /\ MediaAsset.id asset <> id).
  { intro asset. simpl. rewrite filter_In, negb_true_iff, String.eqb_neq. tauto. }
  assert (Htl : forall clip, In clip (timeline (removeMedia id st))
                 <-> In clip (timeline st) /\ TimelineClip.mediaId clip <> id).
  { intro clip. simpl. rewrite filter_In, negb_true_iff, String.eqb_neq. tauto. }
  repeat split; try apply Hlib; try apply Htl; trivial.
  intros Hres clip Hclip. apply Htl in Hclip. destruct Hclip as [Hin Hne].
  destruct (Hres clip Hin) as (asset & Hasset & Hid).
  exists asset. split; [|exact Hid]. apply Hlib. split; [exact Hasset|].
  now rewrite Hid.
Qed.

End ActiveAudio.

(** ** Editing the timeline *)

Section TimelineEdits.
Import AppState Store.

Lemma normalizeFrom_app clips : forall cursor clip,
  normalizeFrom cursor (clips ++ [clip])
  = normalizeFrom cursor clips
    ++ [TimelineClip.withStart clip (fold_left addDuration clips cursor)].
Proof.
  induction clips as [|c rest IH]; intros cursor clip; simpl; [reflexivity|].
  now rewrite IH.
Qed.

Lemma normalizeFrom_unplaced clips : forall cursor,
  map unplaced (normalizeFrom cursor clips) = map unplaced clips.
Proof.
  induction clips as [|c rest IH]; intro cursor; simpl; [reflexivity|].
  now rewrite IH.
Qed.

Lemma normalizeFrom_filter_id (keep : string -> bool) clips : forall cursor,
  (forall clip, In clip clips -> keep (TimelineClip.id clip) = true) ->
  filter (fun clip => keep (TimelineClip.id clip)) (normalizeFrom cursor clips)
  = normalizeFrom cursor clips.
Proof.
  induction clips as [|c rest IH]; intros cursor Hall; simpl; [reflexivity|].
  rewrite (Hall c) by now left.
  f_equal. apply IH. intros clip Hin. apply Hall. now right.
Qed.

Lemma normalizeFrom_firstn n clips : forall cursor,
  normalizeFrom cursor (firstn n clips) = firstn n (normalizeFrom cursor clips).
Proof.
  revert clips. induction n as [|n IH]; intros [|c rest] cursor; simpl; trivial.
  now rewrite IH.
Qed.

Lemma normalizeFrom_retitle (f : TimelineClip.t -> TimelineClip.t) clips :
  (forall clip cursor,
      TimelineClip.withStart (f clip) cursor = f (TimelineClip.withStart clip cursor)) ->
  (forall clip, TimelineClip.duration (f clip) = TimelineClip.duration clip) ->
  forall cursor,
    normalizeFrom cursor (map f clips) = map f (normalizeFrom cursor clips).
Proof.
  intros Hstart Hdur.
  induction clips as [|c rest IH]; intro cursor; simpl; [reflexivity|].
  now rewrite Hstart, Hdur, IH.
Qed.

Lemma totalDuration_app clips clip :
  totalDuration (clips ++ [clip])
  = add (totalDuration clips) (TimelineClip.duration clip).
Proof.
  unfold totalDuration. now rewrite fold_left_app.
Qed.

(** X4.  [handleAddToTimeline] puts the new clip last, after the normalised
    clips that were there, at a start equal to their total duration (the
    start it was built with); it is a fade-in clip on an empty timeline and
    a plain one otherwise; the total grows by its duration, the result is
    normalised, and nothing but the timeline changes. *)
Theorem handleAddToTimeline_appends (uuid : string) (asset : MediaAsset.t) (st : AppState.t) :
  timeline (handleAddToTimeline uuid asset st)
  = normalizeTimeline (timeline st) ++ [newClip uuid asset (timeline st)]
  /\ TimelineClip.start (newClip uuid asset (timeline st)) = totalDuration (timeline st)
  /\ TimelineClip.mediaId (newClip uuid asset (timeline st)) = MediaAsset.id asset
  /\ (TimelineClip.transition (newClip uuid asset (timeline st)) = fade_in
      <-> timeline st = [])
  /\ totalDuration (timeline (handleAddToTimeline uuid asset st))
     = add (totalDuration (timeline st)) (clipDuration asset)
  /\ normalized (timeline (handleAddToTimeline uuid asset st))
  /\ audios (handleAddToTimeline uuid asset st) = audios st
  /\ mediaLibrary (handleAddToTimeline uuid asset st) = mediaLibrary st
  /\ activeAudioId (handleAddToTimeline uuid asset st) = activeAudioId st
  /\ mode (handleAddToTimeline uuid asset st) = mode st.
Proof.
  repeat split; try reflexivity.
  - unfold handleAddToTimeline, normalizeTimeline. simpl.
    now rewrite normalizeFrom_app.
  - destruct (timeline st); [reflexivity|discriminate].
  - intros ->. reflexivity.
  - unfold handleAddToTimeline, normalizeTimeline, totalDuration. simpl.
    rewrite totalDuration_normalizeFrom, fold_left_app. reflexivity.
  - unfold normalized, handleAddToTimeline, normalizeTimeline. simpl.
    apply normalizeFrom_idem.
Qed.

(** X5.  The duration of a clip made from an image asset: the asset's duration
    clamped to [4, 12], 6 when the asset has none, and [NaN] only when the
    asset's duration is [NaN]. *)
Theorem image_clip_duration_clamped (asset : MediaAsset.t) :
  MediaAsset.kind asset = image ->
  match MediaAsset.duration asset with
  | None => clipDuration asset = Fin 6
  | Some NaN => clipDuration asset = NaN
  | Some NegInf => clipDuration asset = Fin 4
  | Some PosInf => clipDuration asset = Fin 12
  | Some (Fin d) =>
      exists q, clipDuration asset = Fin q
                /\ (4 <= q <= 12)%Q
                /\ ((4 <= d <= 12)%Q -> (q == d)%Q)
                /\ ((d <= 4)%Q -> (q == 4)%Q)
                /\ ((12 <= d)%Q -> (q == 12)%Q)
  end.
Proof.
  intro Hkind. unfold clipDuration. rewrite Hkind.
  destruct (MediaAsset.duration asset) as [[| | |d]|]; try reflexivity.
  cbn. destruct (Qlt_bool d 12) eqn:E1; cbn.
  - destruct (Qlt_bool 4 d) eqn:E2; qprop; eexists; split; try reflexivity;
      repeat split; intros; lra.
  - qprop. exists 12%Q. split; [reflexivity|]. repeat split; intros; lra.
Qed.

(** X6.  [handleApplySimpleImage] does nothing without an active audio; with one,
    of duration [A] (the measured one, or the estimate when that is 0 or
    [NaN]), it replaces the timeline by a single fade-in clip of the asset,
    starting at 0 and lasting [max(1, A)], and changes nothing else.  When
    [A >= 1] the composition then lasts as long as the audio and no advisory
    is shown.  A shorter audio gets a clip of 1 s: no advisory from 0.3 s
    on, an advisory up to 0.1 s. *)
Theorem handleApplySimpleImage_follows_audio
    (uuid : string) (asset : MediaAsset.t) (st : AppState.t) :
  (activeAudio st = None -> handleApplySimpleImage uuid asset st = st)
  /\ (forall audio,
        activeAudio st = Some audio ->
        handleApplySimpleImage uuid asset st
        = setTimeline [TimelineClip.mk uuid (MediaAsset.id asset) (Fin 0)
                         (max (Fin 1) (audioDuration audio)) fade_in] st
        /\ normalized (timeline (handleApplySimpleImage uuid asset st))
        /\ activeAudio (handleApplySimpleImage uuid asset st) = Some audio
        /\ (ge (audioDuration audio) (Fin 1) = true ->
            same (compositionDuration (handleApplySimpleImage uuid asset st))
                 (audioDuration audio)
            /\ durationMismatch (handleApplySimpleImage uuid asset st) = false)
        /\ (lt (audioDuration audio) (Fin 1) = true ->
            same (compositionDuration (handleApplySimpleImage uuid asset st)) (Fin 1))
        /\ (ge (audioDuration audio) (Fin (3 # 10)) = true ->
            durationMismatch (handleApplySimpleImage uuid asset st) = false)
        /\ (le (audioDuration audio) (Fin (1 # 10)) = true ->
            durationMismatch (handleApplySimpleImage uuid asset st) = true)).
Proof.
  split.
  - intro Hnone. unfold handleApplySimpleImage. now rewrite Hnone.
  - intros audio Hact.
    assert (Hst : handleApplySimpleImage uuid asset st
                  = setTimeline [TimelineClip.mk uuid (MediaAsset.id asset) (Fin 0)
                                   (max (Fin 1) (audioDuration audio)) fade_in] st).
    { unfold handleApplySimpleImage. now rewrite Hact. }
    rewrite Hst.
    assert (Hact' : activeAudio (setTimeline
                      [TimelineClip.mk uuid (MediaAsset.id asset) (Fin 0)
                         (max (Fin 1) (audioDuration audio)) fade_in] st) = Some audio)
      by exact Hact.
    assert (Htotal : compositionDuration (setTimeline
                       [TimelineClip.mk uuid (MediaAsset.id asset) (Fin 0)
                          (max (Fin 1) (audioDuration audio)) fade_in] st)
                     = add (Fin 0) (max (Fin 1) (audioDuration audio)))
      by reflexivity.
    split; [reflexivity|]. split; [reflexivity|]. split; [exact Hact'|].
    unfold durationMismatch. rewrite Hact', Htotal.
    destruct (audioDuration audio) as [| | |A]; cbn [ge gt le lt max add sub abs same].
    + repeat split; discriminate.
    + repeat split; intros; try discriminate; reflexivity.
    + repeat split; intros; try discriminate; reflexivity.
    + destruct (Qlt_bool 1 A) eqn:E; cbn [ge gt le lt max add sub abs same];
        qprop;
        (split; [intro H; split | split; [intro H | split; intro H]]);
        qprop; try lra;
        try (apply Qabs_gt; lra);
        try (apply Qabs_Qle_condition; lra).
Qed.

(** X7.  Removing the clip that [handleAddToTimeline] has just added, under an
    id no other clip has, gives back the timeline it was added to, in
    normalised form. *)
Theorem handleRemoveClip_undoes_add (uuid : string) (asset : MediaAsset.t) (st : AppState.t) :
  (forall clip, In clip (timeline st) -> TimelineClip.id clip <> uuid) ->
  handleRemoveClip uuid (handleAddToTimeline uuid asset st)
  = setTimeline (normalizeTimeline (timeline st)) st.
Proof.
  intro Hfresh. unfold handleRemoveClip, handleAddToTimeline, normalizeTimeline.
  simpl. unfold setTimeline. simpl. f_equal.
  rewrite normalizeFrom_app, filter_app. simpl. rewrite String.eqb_refl. simpl.
  rewrite app_nil_r.
  rewrite (normalizeFrom_filter_id (fun i => negb (String.eqb i uuid))).
  - apply normalizeFrom_idem.
  - intros clip Hin. apply negb_true_iff, String.eqb_neq. now apply Hfresh.
Qed.

(** X8.  [handleRemoveClip id] leaves a normalised timeline with no clip [id],
    made of the other clips in their order, each with its id, media,
    duration and transition. *)
Theorem handleRemoveClip_removes (id : string) (st : AppState.t) :
  normalized (timeline (handleRemoveClip id st))
  /\ (forall clip, In clip (timeline (handleRemoveClip id st)) ->
                   TimelineClip.id clip <> id)
  /\ map unplaced (timeline (handleRemoveClip id st))
     = map unplaced
         (filter (fun clip => negb (String.eqb (TimelineClip.id clip) id)) (timeline st))
  /\ (List.length (timeline (handleRemoveClip id st)) <= List.length (timeline st))%nat.
Proof.
  unfold handleRemoveClip, normalized, normalizeTimeline. simpl.
  assert (Hmap : map unplaced
                   (normalizeFrom (Fin 0)
                      (filter (fun clip => negb (String.eqb (TimelineClip.id clip) id))
                              (timeline st)))
                 = map unplaced
                     (filter (fun clip => negb (String.eqb (TimelineClip.id clip) id))
                             (timeline st)))
    by apply normalizeFrom_unplaced.
  repeat split.
  - apply normalizeFrom_idem.
  - intros clip Hin Hid.
    apply (in_map unplaced) in Hin. rewrite Hmap in Hin.
    apply in_map_iff in Hin. destruct Hin as (orig & Heq & Horig).
    apply filter_In in Horig. destruct Horig as [_ Hkeep].
    apply negb_true_iff, String.eqb_neq in Hkeep.
    unfold unplaced in Heq. injection Heq as Hsame _ _ _. congruence.
  - exact Hmap.
  - rewrite normalizeFrom_length. apply filter_length_le.
Qed.

Lemma totalDuration_retitle (f : TimelineClip.t -> TimelineClip.t) clips :
  (forall clip, TimelineClip.duration (f clip) = TimelineClip.duration clip) ->
  forall acc, fold_left addDuration (map f clips) acc = fold_left addDuration clips acc.
Proof.
  intro Hdur. induction clips as [|c rest IH]; intro acc; simpl; [reflexivity|].
  unfold addDuration at 2 4. now rewrite Hdur, IH.
Qed.

(** X9.  [handleDurationChange id d] leaves a normalised timeline with the same
    clips in the same order, where the clips named [id] last [d] and every
    other clip keeps its duration. *)
Theorem handleDurationChange_sets_duration (id : string) (d : number) (st : AppState.t) :
  normalized (timeline (handleDurationChange id d st))
  /\ List.length (timeline (handleDurationChange id d st)) = List.length (timeline st)
  /\ map unplaced (timeline (handleDurationChange id d st))
     = map (fun clip =>
              (TimelineClip.id clip, TimelineClip.mediaId clip,
               if String.eqb (TimelineClip.id clip) id then d
               else TimelineClip.duration clip,
               TimelineClip.transition clip))
           (timeline st).
Proof.
  unfold handleDurationChange, normalized, normalizeTimeline. simpl. repeat split.
  - apply normalizeFrom_idem.
  - now rewrite normalizeFrom_length, length_map.
  - rewrite normalizeFrom_unplaced, map_map. apply map_ext. intro clip.
    now destruct (String.eqb (TimelineClip.id clip) id).
Qed.

(** X10.  [handleTransitionChange id tr] changes transitions only: ids, media,
    starts and durations stay as they were, so the total duration is the
    same and a normalised timeline stays normalised. *)
Theorem handleTransitionChange_keeps_timing
    (id : string) (tr : TransitionType) (st : AppState.t) :
  map (fun clip => (TimelineClip.id clip, TimelineClip.mediaId clip,
                    TimelineClip.start clip, TimelineClip.duration clip))
      (timeline (handleTransitionChange id tr st))
  = map (fun clip => (TimelineClip.id clip, TimelineClip.mediaId clip,
                      TimelineClip.start clip, TimelineClip.duration clip))
        (timeline st)
  /\ map TimelineClip.transition (timeline (handleTransitionChange id tr st))
     = map (fun clip => if String.eqb (TimelineClip.id clip) id then tr
                        else TimelineClip.transition clip)
           (timeline st)
  /\ totalDuration (timeline (handleTransitionChange id tr st))
     = totalDuration (timeline st)
  /\ (normalized (timeline st) ->
      normalized (timeline (handleTransitionChange id tr st))).
Proof.
  unfold handleTransitionChange. simpl.
  set (f := fun clip => if String.eqb (TimelineClip.id clip) id
                        then clipWithTransition clip tr else clip).
  assert (Hdur : forall clip, TimelineClip.duration (f clip) = TimelineClip.duration clip).
  { intro clip. unfold f. now destruct (String.eqb (TimelineClip.id clip) id). }
  repeat split.
  - rewrite map_map. apply map_ext. intro clip. unfold f.
    now destruct (String.eqb (TimelineClip.id clip) id).
  - rewrite map_map. apply map_ext. intro clip. unfold f.
    now destruct (String.eqb (TimelineClip.id clip) id).
  - unfold totalDuration. now apply totalDuration_retitle.
  - unfold normalized, normalizeTimeline. intro Hnorm.
    rewrite normalizeFrom_retitle; [now rewrite Hnorm | | exact Hdur].
    intros clip cursor. unfold f. simpl.
    now destruct (String.eqb (TimelineClip.id clip) id).
Qed.

(** X11.  [handleModeChange] sets the mode; going to the simple mode keeps the
    first clip only, going to the advanced mode keeps the timeline; a
    normalised timeline stays normalised and the audios are not touched. *)
Theorem handleModeChange_simple_keeps_first (value : ComposerMode) (st : AppState.t) :
  mode (handleModeChange value st) = value
  /\ (value = simples ->
      timeline (handleModeChange value st) = firstn 1 (timeline st)
      /\ (List.length (timeline (handleModeChange value st)) <= 1)%nat)
  /\ (value = avancado -> timeline (handleModeChange value st) = timeline st)
  /\ (normalized (timeline st) -> normalized (timeline (handleModeChange value st)))
  /\ audios (handleModeChange value st) = audios st
  /\ activeAudioId (handleModeChange value st) = activeAudioId st
  /\ mediaLibrary (handleModeChange value st) = mediaLibrary st.
Proof.
  assert (Htl : timeline (handleModeChange value st)
                = match value with
                  | simples => firstn 1 (timeline st)
                  | avancado => timeline st
                  end).
  { unfold handleModeChange. destruct value; [|reflexivity]. simpl.
    destruct (Z.ltb_spec 1 (Array.length (timeline st))) as [Hlong|Hshort];
      [reflexivity|].
    simpl. unfold Array.length in Hshort.
    destruct (timeline st) as [|c [|c' rest]]; try reflexivity.
    simpl in Hshort. lia. }
  unfold handleModeChange in *. repeat split.
  - destruct value; [|reflexivity]. simpl.
    now destruct (1 <? Array.length (timeline st)).
  - subst value. exact Htl.
  - subst value. rewrite Htl. apply firstn_le_length.
  - intros ->. exact Htl.
  - unfold normalized, normalizeTimeline. intro Hnorm. rewrite Htl.
    destruct value; [|exact Hnorm].
    now rewrite normalizeFrom_firstn, Hnorm.
  - destruct value; [|reflexivity]. simpl.
    now destruct (1 <? Array.length (timeline st)).
  - destruct value; [|reflexivity]. simpl.
    now destruct (1 <? Array.length (timeline st)).
  - destruct value; [|reflexivity]. simpl.
    now destruct (1 <? Array.length (timeline st)).
Qed.

(** X12.  The total duration of a non-empty timeline is the end of its last
    normalised clip. *)
Theorem totalDuration_is_last_end (clips : list TimelineClip.t) :
  clips <> [] ->
  exists last,
    nth_error (normalizeTimeline clips) (List.length clips - 1) = Some last
    /\ totalDuration (normalizeTimeline clips)
       = add (TimelineClip.start last) (TimelineClip.duration last).
Proof.
  intro Hne. destruct (exists_last Hne) as (front & x & ->).
  unfold normalizeTimeline, totalDuration.
  rewrite totalDuration_normalizeFrom, normalizeFrom_app, fold_left_app.
  exists (TimelineClip.withStart x (fold_left addDuration front (Fin 0))). split.
  - rewrite length_app. simpl.
    rewrite nth_error_app2 by (rewrite normalizeFrom_length; lia).
    rewrite normalizeFrom_length.
    now replace (List.length front + 1 - 1 - List.length front)%nat with 0%nat by lia.
  - reflexivity.
Qed.

End TimelineEdits.

(** ** What every frame does *)

(** Unfolds the canvas calls and decides their guards. *)
Ltac canvas_calls :=
  unfold drawFitted, restore, drawImage, fillRect, setGlobalAlpha, setFillStyle,
    setComposite, save, rebase;
  simpl;
  repeat match goal with
  | |- context [if ?b then _ else _] => destruct b; simpl
  end;
  rewrite ?app_assoc; auto.

Section Frames.
Variable library : list MediaAsset.t.

Lemma findIndexFrom_first {A : Type} (p : A -> bool) (l : list A) : forall k,
  (Array.findIndexFrom p l k = -1 /\ forall x, In x l -> p x = false)
  \/ exists n x,
       Array.findIndexFrom p l k = k + Z.of_nat n
       /\ nth_error l n = Some x
       /\ p x = true
       /\ forall m y, (m < n)%nat -> nth_error l m = Some y -> p y = false.
Proof.
  induction l as [|a rest IH]; intro k; simpl.
  - left. split; [reflexivity | intros x []].
  - destruct (p a) eqn:Ea.
    + right. exists 0%nat, a. repeat split; trivial; [lia|]. intros m y Hm. lia.
    + destruct (IH (k + 1)) as [[Hnone Hall] | (n & x & Hr & Hn & Hp & Hbefore)].
      * left. split; [exact Hnone|]. intros x [<-|Hin]; auto.
      * right. exists (S n), x. repeat split; trivial; [lia|].
        intros [|m] y Hm Hy; simpl in Hy.
        -- now injection Hy as <-.
        -- apply (Hbefore m y); [lia | exact Hy].
Qed.

Lemma frame_selection
    (timeline : list TimelineClip.t) (w : world) (t : number) :
  (timeline = [] -> renderFrame timeline library w t = Ok (clearSurface w))
  /\ (timeline <> [] ->
      exists n clip,
        safeIndex timeline t = Z.of_nat n
        /\ nth_error timeline n = Some clip
        /\ ((clipContains t clip = true
             /\ forall m other, (m < n)%nat -> nth_error timeline m = Some other ->
                                clipContains t other = false)
            \/ (n = (List.length timeline - 1)%nat
                /\ forall other, In other timeline -> clipContains t other = false))
        /\ renderFrame timeline library w t
           = renderClip library (clearSurface w) clip
               (Array.at_ timeline (Z.of_nat n - 1))
               (sub t (TimelineClip.start clip))).
Proof.
  split.
  - intros ->. reflexivity.
  - intro Hne.
    destruct (findIndexFrom_first (clipContains t) timeline 0)
      as [[Hnone Hall] | (n & clip & Hr & Hn & Hp & Hbefore)].
    + destruct (last_clip timeline Hne) as (last & Hlast & Hlen).
      assert (Hs : safeIndex timeline t = Z.of_nat (List.length timeline - 1)).
      { unfold safeIndex, Array.findIndex. rewrite Hnone. simpl. exact Hlen. }
      exists (List.length timeline - 1)%nat, last. repeat split; trivial.
      * right. split; [reflexivity | exact Hall].
      * now apply renderFrame_at.
    + assert (Hs : safeIndex timeline t = Z.of_nat n).
      { unfold safeIndex, Array.findIndex. rewrite Hr.
        destruct (Z.eqb_spec (0 + Z.of_nat n) (-1)); lia. }
      exists n, clip. repeat split; trivial.
      * left. split; assumption.
      * now apply renderFrame_at.
Qed.

(** X13.  Whatever the timeline and the timestamp: on an empty timeline
    [renderFrame] only fills the background; otherwise it always renders a
    clip of the timeline, the first one whose interval contains the
    timestamp or, when none does, the last one, with local time
    [time - start]. *)
Theorem renderFrame_always_selects
    (timeline : list TimelineClip.t) (w : world) (t : number) :
  (timeline = [] -> renderFrame timeline library w t = Ok (clearSurface w))
  /\ (timeline <> [] ->
      exists n clip,
        safeIndex timeline t = Z.of_nat n
        /\ nth_error timeline n = Some clip
        /\ ((clipContains t clip = true
             /\ forall m other, (m < n)%nat -> nth_error timeline m = Some other ->
                                clipContains t other = false)
            \/ (n = (List.length timeline - 1)%nat
                /\ forall other, In other timeline -> clipContains t other = false))
        /\ renderFrame timeline library w t
           = renderClip library (clearSurface w) clip
               (Array.at_ timeline (Z.of_nat n - 1))
               (sub t (TimelineClip.start clip))).
Proof. apply frame_selection. Qed.

Lemma skip_restores (c : ctx) (alpha : number) :
  restore (setGlobalAlpha (save c) alpha) = c.
Proof. destruct c. canvas_calls. Qed.

(** X14.  A video that has no current frame yet, or an image that is not
    complete, is skipped: [drawMedia] returns the context and the element
    exactly as they were, whatever the timestamp and alpha. *)
Theorem drawMedia_not_ready_is_noop
    (c : ctx) (el : Canvas.element) (a : MediaAsset.t) (timestamp alpha : number) :
  (MediaAsset.kind a = video /\ lt (readyState el) (ofZ 2) = true)
  \/ (MediaAsset.kind a = image /\ complete el = false) ->
  drawMedia c (mkMedia el (Some a)) timestamp alpha = Ok (c, el).
Proof.
  unfold drawMedia. simpl.
  intros [[-> Hready] | [-> Hcomplete]].
  - rewrite Hready. now rewrite skip_restores.
  - rewrite Hcomplete. simpl. now rewrite skip_restores.
Qed.

Lemma drawMedia_returns (c : ctx) (el : Canvas.element) (a : MediaAsset.t)
    (timestamp alpha : number) :
  exists c' el', drawMedia c (mkMedia el (Some a)) timestamp alpha = Ok (c', el').
Proof.
  unfold drawMedia. simpl. destruct (MediaAsset.kind a).
  - destruct (negb (complete el)); eexists; eexists; reflexivity.
  - destruct (lt (readyState el) (ofZ 2)); eexists; eexists; reflexivity.
Qed.

Lemma find_listed (key : string) :
  (exists a, In a library /\ MediaAsset.id a = key) ->
  exists a, find (fun a => String.eqb (MediaAsset.id a) key) library = Some a.
Proof.
  intros (a & Hin & Hid).
  destruct (find (fun a => String.eqb (MediaAsset.id a) key) library) as [found|] eqn:E.
  - now exists found.
  - pose proof (find_none _ _ E a Hin) as Hno. simpl in Hno.
    rewrite Hid, String.eqb_refl in Hno. discriminate.
Qed.

Lemma drawCached_returns (w : world) (key : string) (el : Canvas.element)
    (timestamp alpha : number) :
  (exists a, In a library /\ MediaAsset.id a = key) ->
  exists w',
    drawCached library w key el timestamp alpha = Ok w'
    /\ forall k, mediaCache w k <> None -> mediaCache w' k <> None.
Proof.
  intro Hlisted. destruct (find_listed key Hlisted) as [a Ha].
  unfold drawCached. rewrite Ha.
  destruct (drawMedia_returns (canvas w) el a timestamp alpha) as (c' & el' & ->).
  simpl. eexists. split; [reflexivity|].
  intros k Hk. simpl. now destruct (String.eqb k key).
Qed.

Lemma renderClip_returns (w : world) (clip : TimelineClip.t)
    (previous : option TimelineClip.t) (localTime : number) :
  (mediaCache w (TimelineClip.mediaId clip) <> None ->
   exists a, In a library /\ MediaAsset.id a = TimelineClip.mediaId clip) ->
  (forall p, previous = Some p ->
     mediaCache w (TimelineClip.mediaId p) <> None ->
     exists a, In a library /\ MediaAsset.id a = TimelineClip.mediaId p) ->
  exists w', renderClip library w clip previous localTime = Ok w'.
Proof.
  intros Hcur Hprev. unfold renderClip.
  destruct (mediaCache w (TimelineClip.mediaId clip)) as [mediaElement|] eqn:Ecur;
    [|eexists; reflexivity].
  assert (Hlisted : exists a, In a library /\ MediaAsset.id a = TimelineClip.mediaId clip)
    by (apply Hcur; discriminate).
  assert (Hplain :
    exists w',
      bind (drawCached library w (TimelineClip.mediaId clip) mediaElement localTime (Fin 1))
        (fun w =>
           match TimelineClip.transition clip with
           | fade_in =>
               let progress := transitionProgress localTime in
               let c := save (canvas w) in
               let c := setFillStyle c (Rgba 0 0 0 (sub (Fin 1) progress)) in
               let c := fillRect c (Fin 0) (Fin 0) CANVAS_WIDTH CANVAS_HEIGHT in
               Ok (withCanvas w (restore c))
           | white_flash | cine_sweep =>
               let progress := transitionProgress localTime in
               Ok (withCanvas w
                     (applyTransitionOverlay (canvas w)
                        (TimelineClip.transition clip) progress))
           | _ => Ok w
           end) = Ok w').
  { destruct (drawCached_returns w (TimelineClip.mediaId clip) mediaElement
                localTime (Fin 1) Hlisted) as (w1 & -> & _).
    cbn [bind]. destruct (TimelineClip.transition clip); eexists; reflexivity. }
  destruct (isCrossfade (TimelineClip.transition clip)); [|exact Hplain].
  destruct previous as [previousClip|]; [|exact Hplain].
  destruct (mediaCache w (TimelineClip.mediaId previousClip))
    as [previousMediaElement|] eqn:Ep.
  - destruct (drawCached_returns w (TimelineClip.mediaId previousClip)
                previousMediaElement
                (sub (TimelineClip.duration previousClip)
                     (sub TRANSITION_DURATION localTime))
                (sub (Fin 1) (transitionProgress localTime)))
      as (w1 & -> & _).
    { apply (Hprev previousClip eq_refl). congruence. }
    cbn [bind].
    destruct (drawCached_returns w1 (TimelineClip.mediaId clip)
                (deref w1 (TimelineClip.mediaId clip) mediaElement)
                localTime (transitionProgress localTime) Hlisted)
      as (w2 & -> & _).
    eexists. reflexivity.
  - cbn [bind].
    destruct (drawCached_returns w (TimelineClip.mediaId clip)
                (deref w (TimelineClip.mediaId clip) mediaElement)
                localTime (transitionProgress localTime) Hlisted)
      as (w2 & -> & _).
    eexists. reflexivity.
Qed.

(** X15.  [renderFrame] returns, for every timestamp, as long as each clip of the
    timeline whose media is in the cache names an asset of the library; in
    particular when every clip names a library asset. *)
Theorem renderFrame_returns (timeline : list TimelineClip.t) (w : world) (t : number) :
  (forall clip, In clip timeline ->
     mediaCache w (TimelineClip.mediaId clip) <> None ->
     exists a, In a library /\ MediaAsset.id a = TimelineClip.mediaId clip) ->
  exists w', renderFrame timeline library w t = Ok w'.
Proof.
  intro Hres.
  destruct timeline as [|c0 rest] eqn:Etl.
  { eexists. reflexivity. }
  rewrite <- Etl in *.
  assert (Hne : timeline <> []) by (rewrite Etl; discriminate).
  destruct (proj2 (frame_selection timeline w t) Hne)
    as (n & clip & _ & Hn & _ & ->).
  apply renderClip_returns.
  - apply Hres. eapply nth_error_In; eassumption.
  - intros p Hp. apply Hres.
    unfold Array.at_ in Hp. destruct (Z.of_nat n - 1 <? 0); [discriminate|].
    eapply nth_error_In; eassumption.
Qed.

(** *** The history of the canvas *)

Lemma rebase_nil (c : ctx) : rebase [] c = c.
Proof. now destruct c. Qed.

Lemma rebase_own_history (c : ctx) :
  c = rebase (ops c) (mkCtx (state c) (saved c) []).
Proof. destruct c. unfold rebase. simpl. now rewrite app_nil_r. Qed.

Lemma save_rebase h c : save (rebase h c) = rebase h (save c).
Proof. reflexivity. Qed.

Lemma restore_rebase h c : restore (rebase h c) = rebase h (restore c).
Proof. destruct c as [st [|s sv] os]; reflexivity. Qed.

Lemma setGlobalAlpha_rebase h c a :
  setGlobalAlpha (rebase h c) a = rebase h (setGlobalAlpha c a).
Proof.
  destruct c as [st sv os]. unfold setGlobalAlpha, rebase. cbn [state saved ops].
  now destruct (le (Fin 0) a && le a (Fin 1)).
Qed.

Lemma setFillStyle_rebase h c s :
  setFillStyle (rebase h c) s = rebase h (setFillStyle c s).
Proof.
  destruct c as [st sv os]. unfold setFillStyle, rebase. cbn [state saved ops].
  now destruct (validStyle s).
Qed.

Lemma setComposite_rebase h c m :
  setComposite (rebase h c) m = rebase h (setComposite c m).
Proof. reflexivity. Qed.

Lemma fillRect_rebase h c x y wd ht :
  fillRect (rebase h c) x y wd ht = rebase h (fillRect c x y wd ht).
Proof.
  destruct c as [st sv os]. unfold fillRect, rebase. cbn [state saved ops].
  destruct (allFinite x y wd ht); cbn [state saved ops]; trivial.
  now rewrite app_assoc.
Qed.

Lemma drawImage_rebase h c el x y wd ht :
  drawImage (rebase h c) el x y wd ht = rebase h (drawImage c el x y wd ht).
Proof.
  destruct c as [st sv os]. unfold drawImage, rebase. cbn [state saved ops].
  destruct (allFinite x y wd ht); cbn [state saved ops]; trivial.
  now rewrite app_assoc.
Qed.

Lemma drawFitted_rebase h c a el :
  drawFitted (rebase h c) a el = rebase h (drawFitted c a el).
Proof. unfold drawFitted. now rewrite drawImage_rebase, restore_rebase. Qed.

Lemma drawMedia_rebase h c media timestamp alpha :
  drawMedia (rebase h c) media timestamp alpha
  = match drawMedia c media timestamp alpha with
    | Ok (c', el') => Ok (rebase h c', el')
    | TypeError => TypeError
    end.
Proof.
  unfold drawMedia. rewrite save_rebase, setGlobalAlpha_rebase.
  destruct (asset media) as [a|]; [|reflexivity].
  destruct (MediaAsset.kind a).
  - destruct (negb (complete (element media)));
      now rewrite ?restore_rebase, ?drawFitted_rebase.
  - destruct (lt (readyState (element media)) (ofZ 2));
      now rewrite ?restore_rebase, ?drawFitted_rebase.
Qed.

Lemma applyTransitionOverlay_rebase h c type progress :
  applyTransitionOverlay (rebase h c) type progress
  = rebase h (applyTransitionOverlay c type progress).
Proof.
  unfold applyTransitionOverlay. destruct type; trivial;
    now rewrite save_rebase, ?setFillStyle_rebase, ?fillRect_rebase,
      ?setComposite_rebase, ?setFillStyle_rebase, ?fillRect_rebase, ?restore_rebase.
Qed.

Lemma drawCached_rebase h w key el timestamp alpha :
  drawCached library (rebaseWorld h w) key el timestamp alpha
  = rebaseResult h (drawCached library w key el timestamp alpha).
Proof.
  unfold drawCached. simpl. rewrite drawMedia_rebase.
  now destruct (drawMedia (canvas w) _ timestamp alpha) as [[c' el']|].
Qed.

Lemma bind_rebase h (r : result world) (k k' : world -> result world) :
  (forall w, k (rebaseWorld h w) = rebaseResult h (k' w)) ->
  bind (rebaseResult h r) k = rebaseResult h (bind r k').
Proof. intro Hk. destruct r as [w|]; simpl; [apply Hk | reflexivity]. Qed.

Lemma renderClip_rebase h w clip previous localTime :
  renderClip library (rebaseWorld h w) clip previous localTime
  = rebaseResult h (renderClip library w clip previous localTime).
Proof.
  unfold renderClip.
  change (mediaCache (rebaseWorld h w)) with (mediaCache w).
  destruct (mediaCache w (TimelineClip.mediaId clip)) as [mediaElement|];
    [|reflexivity].
  assert (Hplain : forall w1,
    match TimelineClip.transition clip with
    | fade_in =>
        let progress := transitionProgress localTime in
        let c := save (canvas (rebaseWorld h w1)) in
        let c := setFillStyle c (Rgba 0 0 0 (sub (Fin 1) progress)) in
        let c := fillRect c (Fin 0) (Fin 0) CANVAS_WIDTH CANVAS_HEIGHT in
        Ok (withCanvas (rebaseWorld h w1) (restore c))
    | white_flash | cine_sweep =>
        let progress := transitionProgress localTime in
        Ok (withCanvas (rebaseWorld h w1)
              (applyTransitionOverlay (canvas (rebaseWorld h w1))
                 (TimelineClip.transition clip) progress))
    | _ => Ok (rebaseWorld h w1)
    end
    = rebaseResult h
        match TimelineClip.transition clip with
        | fade_in =>
            let progress := transitionProgress localTime in
            let c := save (canvas w1) in
            let c := setFillStyle c (Rgba 0 0 0 (sub (Fin 1) progress)) in
            let c := fillRect c (Fin 0) (Fin 0) CANVAS_WIDTH CANVAS_HEIGHT in
            Ok (withCanvas w1 (restore c))
        | white_flash | cine_sweep =>
            let progress := transitionProgress localTime in
            Ok (withCanvas w1
                  (applyTransitionOverlay (canvas w1)
                     (TimelineClip.transition clip) progress))
        | _ => Ok w1
        end).
  { intro w1. destruct (TimelineClip.transition clip); trivial; cbv zeta;
      change (canvas (rebaseWorld h w1)) with (rebase h (canvas w1));
      rewrite ?save_rebase, ?setFillStyle_rebase, ?fillRect_rebase, ?restore_rebase,
        ?applyTransitionOverlay_rebase; reflexivity. }
  destruct (isCrossfade (TimelineClip.transition clip)), previous as [previousClip|];
    try (rewrite drawCached_rebase; apply bind_rebase; exact Hplain).
  cbv zeta.
  replace (match mediaCache w (TimelineClip.mediaId previousClip) with
           | Some previousMediaElement =>
               drawCached library (rebaseWorld h w) (TimelineClip.mediaId previousClip)
                 previousMediaElement
                 (sub (TimelineClip.duration previousClip)
                      (sub TRANSITION_DURATION localTime))
                 (sub (Fin 1) (transitionProgress localTime))
           | None => Ok (rebaseWorld h w)
           end)
    with (rebaseResult h
            match mediaCache w (TimelineClip.mediaId previousClip) with
            | Some previousMediaElement =>
                drawCached library w (TimelineClip.mediaId previousClip)
                  previousMediaElement
                  (sub (TimelineClip.duration previousClip)
                       (sub TRANSITION_DURATION localTime))
                  (sub (Fin 1) (transitionProgress localTime))
            | None => Ok w
            end)
    by (destruct (mediaCache w (TimelineClip.mediaId previousClip));
        [now rewrite drawCached_rebase | reflexivity]).
  apply bind_rebase. intro w1. now rewrite drawCached_rebase.
Qed.

Lemma renderFrame_rebase h timeline w t :
  renderFrame timeline library (rebaseWorld h w) t
  = rebaseResult h (renderFrame timeline library w t).
Proof.
  unfold renderFrame.
  assert (Hclear : clearSurface (rebaseWorld h w) = rebaseWorld h (clearSurface w)).
  { unfold clearSurface, withCanvas, rebaseWorld. simpl.
    now rewrite setFillStyle_rebase, fillRect_rebase. }
  cbv zeta. rewrite Hclear.
  destruct (Array.length timeline =? 0); [reflexivity|].
  destruct (Array.at_ timeline (safeIndex timeline t)); [|reflexivity].
  apply renderClip_rebase.
Qed.

Lemma world_own_history (w : world) :
  w = rebaseWorld (ops (canvas w))
        (mkWorld (mkCtx (state (canvas w)) (saved (canvas w)) []) (mediaCache w)).
Proof.
  destruct w as [c cache]. unfold rebaseWorld. simpl.
  now rewrite <- rebase_own_history.
Qed.

Lemma renderClip_appends w clip previous localTime w' :
  renderClip library w clip previous localTime = Ok w' ->
  exists rest, ops (canvas w') = ops (canvas w) ++ rest.
Proof.
  rewrite (world_own_history w) at 1. rewrite renderClip_rebase.
  destruct (renderClip library _ clip previous localTime) as [w0|]; [|discriminate].
  simpl. intro H. injection H as <-. simpl. now exists (ops (canvas w0)).
Qed.

Lemma drawMedia_keeps_state c media timestamp alpha c' el' :
  drawMedia c media timestamp alpha = Ok (c', el') ->
  state c' = state c /\ saved c' = saved c.
Proof.
  unfold drawMedia. destruct c as [st sv os].
  destruct (asset media) as [a|]; [|discriminate].
  destruct (MediaAsset.kind a).
  - destruct (negb (complete (element media)));
      intro H; injection H as <- _; canvas_calls.
  - destruct (lt (readyState (element media)) (ofZ 2));
      intro H; injection H as <- _; canvas_calls.
Qed.

Lemma drawCached_keeps_state w key el timestamp alpha w' :
  drawCached library w key el timestamp alpha = Ok w' ->
  state (canvas w') = state (canvas w) /\ saved (canvas w') = saved (canvas w).
Proof.
  unfold drawCached.
  destruct (drawMedia (canvas w) _ timestamp alpha) as [[c' el']|] eqn:E;
    [|discriminate].
  simpl. intro H. injection H as <-. simpl.
  eapply drawMedia_keeps_state. eassumption.
Qed.

Lemma applyTransitionOverlay_keeps_state c type progress :
  state (applyTransitionOverlay c type progress) = state c
  /\ saved (applyTransitionOverlay c type progress) = saved c.
Proof.
  destruct c as [st sv os]. unfold applyTransitionOverlay.
  destruct type; simpl; auto; canvas_calls.
Qed.

Lemma fade_keeps_state c alpha :
  state (restore (fillRect (setFillStyle (save c) (Rgba 0 0 0 alpha))
                    (Fin 0) (Fin 0) CANVAS_WIDTH CANVAS_HEIGHT)) = state c
  /\ saved (restore (fillRect (setFillStyle (save c) (Rgba 0 0 0 alpha))
                       (Fin 0) (Fin 0) CANVAS_WIDTH CANVAS_HEIGHT)) = saved c.
Proof. destruct c as [st sv os]. canvas_calls. Qed.

Lemma renderClip_keeps_state w clip previous localTime w' :
  renderClip library w clip previous localTime = Ok w' ->
  state (canvas w') = state (canvas w) /\ saved (canvas w') = saved (canvas w).
Proof.
  unfold renderClip.
  destruct (mediaCache w (TimelineClip.mediaId clip)) as [mediaElement|].
  2:{ intro H. injection H as <-. auto. }
  assert (Hplain : forall w',
    bind (drawCached library w (TimelineClip.mediaId clip) mediaElement localTime (Fin 1))
      (fun w =>
         match TimelineClip.transition clip with
         | fade_in =>
             let progress := transitionProgress localTime in
             let c := save (canvas w) in
             let c := setFillStyle c (Rgba 0 0 0 (sub (Fin 1) progress)) in
             let c := fillRect c (Fin 0) (Fin 0) CANVAS_WIDTH CANVAS_HEIGHT in
             Ok (withCanvas w (restore c))
         | white_flash | cine_sweep =>
             let progress := transitionProgress localTime in
             Ok (withCanvas w
                   (applyTransitionOverlay (canvas w)
                      (TimelineClip.transition clip) progress))
         | _ => Ok w
         end) = Ok w' ->
    state (canvas w') = state (canvas w) /\ saved (canvas w') = saved (canvas w)).
  { intros w2.
    destruct (drawCached library w _ mediaElement localTime (Fin 1)) as [w1|] eqn:E;
      [|discriminate].
    apply drawCached_keeps_state in E. destruct E as [Es Ev].
    cbn [bind]. rewrite <- Es, <- Ev.
    destruct (TimelineClip.transition clip); intro H; injection H as <-; auto;
      unfold withCanvas, applyTransitionOverlay; cbn [canvas]; cbv zeta;
      destruct (canvas w1) as [st sv os]; canvas_calls. }
  destruct (isCrossfade (TimelineClip.transition clip)), previous as [previousClip|];
    try exact (Hplain w').
  cbv zeta.
  destruct (mediaCache w (TimelineClip.mediaId previousClip)) as [previousMediaElement|].
  - destruct (drawCached library w (TimelineClip.mediaId previousClip) _ _ _)
      as [w1|] eqn:E1; [|discriminate].
    apply drawCached_keeps_state in E1. destruct E1 as [Es Ev].
    cbn [bind]. intro E2. apply drawCached_keeps_state in E2. destruct E2 as [Es2 Ev2].
    split; congruence.
  - cbn [bind]. apply drawCached_keeps_state.
Qed.

Lemma renderFrame_shape timeline w t w' :
  renderFrame timeline library w t = Ok w' ->
  exists rest,
    ops (canvas w')
    = ops (canvas w)
      ++ FillRect (mkState (Hex "#050814") (globalAlpha (state (canvas w)))
                           (globalCompositeOperation (state (canvas w))))
                  (Fin 0) (Fin 0) CANVAS_WIDTH CANVAS_HEIGHT :: rest
    /\ saved (canvas w') = saved (canvas w)
    /\ state (canvas w')
       = mkState (Hex "#050814") (globalAlpha (state (canvas w)))
                 (globalCompositeOperation (state (canvas w))).
Proof.
  unfold renderFrame. cbv zeta.
  assert (Hclear : forall w1,
            (w1 = clearSurface w
             \/ exists clip previous localTime,
                  renderClip library (clearSurface w) clip previous localTime = Ok w1) ->
            exists rest,
              ops (canvas w1)
              = ops (canvas w)
                ++ FillRect (mkState (Hex "#050814") (globalAlpha (state (canvas w)))
                                     (globalCompositeOperation (state (canvas w))))
                            (Fin 0) (Fin 0) CANVAS_WIDTH CANVAS_HEIGHT :: rest
              /\ saved (canvas w1) = saved (canvas w)
              /\ state (canvas w1)
                 = mkState (Hex "#050814") (globalAlpha (state (canvas w)))
                           (globalCompositeOperation (state (canvas w)))).
  { intros w1 [-> | (clip & previous & localTime & Hr)].
    - exists []. repeat split.
    - destruct (renderClip_appends _ _ _ _ _ Hr) as [rest Hrest].
      destruct (renderClip_keeps_state _ _ _ _ _ Hr) as [Hs Hv].
      exists rest. rewrite Hrest, Hs, Hv. repeat split.
      simpl. now rewrite <- app_assoc. }
  destruct (Array.length timeline =? 0).
  { intro H. injection H as <-. apply Hclear. now left. }
  destruct (Array.at_ timeline (safeIndex timeline t)) as [clip|].
  - intro H. apply Hclear. right. eauto.
  - intro H. injection H as <-. apply Hclear. now left.
Qed.

(** X16.  A frame only adds to the canvas: the operations before the call are
    kept, the first one added is the full-frame fill with [#050814],
    and when [renderFrame] returns the stack of saved states, the alpha and
    the compositing mode are as they were before the call. *)
Theorem renderFrame_appends_and_restores
    (timeline : list TimelineClip.t) (w : world) (t : number) (w' : world) :
  renderFrame timeline library w t = Ok w' ->
  exists rest,
    ops (canvas w')
    = ops (canvas w)
      ++ FillRect (mkState (Hex "#050814") (globalAlpha (state (canvas w)))
                           (globalCompositeOperation (state (canvas w))))
                  (Fin 0) (Fin 0) CANVAS_WIDTH CANVAS_HEIGHT :: rest
    /\ saved (canvas w') = saved (canvas w)
    /\ state (canvas w')
       = mkState (Hex "#050814") (globalAlpha (state (canvas w)))
                 (globalCompositeOperation (state (canvas w))).
Proof. apply renderFrame_shape. Qed.

Lemma pixel_after_clear (before rest : list drawOp) (px py : Z) :
  onCanvas px py ->
  pixelAt (before
           ++ FillRect (mkState (Hex "#050814") (Fin 1) source_over)
                       (Fin 0) (Fin 0) CANVAS_WIDTH CANVAS_HEIGHT :: rest) px py
  = fold_left (fun p op => if covers op px py then paint op p else p) rest
      (Solid "#050814").
Proof.
  intros [Hx Hy]. unfold pixelAt. rewrite fold_left_app. simpl.
  replace (inRect (Fin 0) (Fin 0) CANVAS_WIDTH CANVAS_HEIGHT px py) with true;
    [reflexivity|].
  symmetry. unfold inRect, CANVAS_WIDTH, CANVAS_HEIGHT, ofZ. cbn.
  unfold Qlt_bool, Qle_bool. cbn.
  repeat (apply andb_true_iff; split);
    try apply negb_true_iff; try apply Z.leb_le; try apply Z.leb_gt; lia.
Qed.

(** X17.  What the canvas shows after a frame does not depend on what it showed
    before: from the default alpha and compositing, two canvases with
    different histories but the same cache show the same pixels after
    [renderFrame] at the same timestamp. *)
Theorem frame_independent_of_previous_content
    (timeline : list TimelineClip.t) (t : number)
    (s : drawState) (stack : list drawState)
    (cache : string -> option Canvas.element)
    (history1 history2 : list drawOp) (w1 : world) :
  globalAlpha s = Fin 1 ->
  globalCompositeOperation s = source_over ->
  renderFrame timeline library (mkWorld (mkCtx s stack history1) cache) t = Ok w1 ->
  exists w2,
    renderFrame timeline library (mkWorld (mkCtx s stack history2) cache) t = Ok w2
    /\ state (canvas w2) = state (canvas w1)
    /\ forall px py, onCanvas px py ->
         pixelAt (ops (canvas w2)) px py = pixelAt (ops (canvas w1)) px py.
Proof.
  intros Halpha Hgco H1.
  pose (blank := mkWorld (mkCtx s stack []) cache).
  assert (Hre : forall h, mkWorld (mkCtx s stack h) cache = rebaseWorld h blank).
  { intro h. unfold rebaseWorld, rebase, blank. simpl. now rewrite app_nil_r. }
  rewrite Hre, renderFrame_rebase in H1. rewrite Hre, renderFrame_rebase.
  destruct (renderFrame timeline library blank t) as [w0|] eqn:E0; [|discriminate].
  simpl in H1. injection H1 as <-.
  destruct (renderFrame_shape _ _ _ _ E0) as (rest & Hops & _ & _).
  simpl in Hops. rewrite Halpha, Hgco in Hops.
  eexists. split; [reflexivity|]. split; [reflexivity|].
  intros px py Hon. simpl. rewrite Hops.
  now rewrite !pixel_after_clear.
Qed.

End Frames.

(** ** Transitions and letterboxing *)

Section Overlays.

Lemma transitionProgress_Fin (localTime : Q) :
  transitionProgress (Fin localTime)
  = if Qlt_bool 0 (localTime / (6 # 10))
    then (if Qlt_bool (localTime / (6 # 10)) 1 then Fin (localTime / (6 # 10)) else Fin 1)
    else Fin 0.
Proof.
  unfold transitionProgress, TRANSITION_DURATION. cbn [div].
  replace (Qeq_bool (6 # 10) 0) with false by reflexivity.
  cbn [max lt]. destruct (Qlt_bool 0 (localTime / (6 # 10))); cbn [min lt].
  - reflexivity.
  - reflexivity.
Qed.

Lemma window_share (x : Q) : (x / (6 # 10) == x * (10 # 6))%Q.
Proof. unfold Qdiv. apply Qmult_comp; reflexivity. Qed.

(** X18.  The progress of a transition at a finite local time is the local time
    over the 0.6 s window, clamped to [0, 1]: 0 up to the clip's start, 1
    from 0.6 s on, and never decreasing with the local time.  The
    infinities clamp likewise and [NaN] stays [NaN]. *)
Theorem transitionProgress_clamped (localTime : Q) :
  (exists p,
      transitionProgress (Fin localTime) = Fin p
      /\ (0 <= p <= 1)%Q
      /\ ((localTime <= 0)%Q -> (p == 0)%Q)
      /\ ((0 <= localTime <= 6 # 10)%Q -> (p == localTime / (6 # 10))%Q)
      /\ ((6 # 10 <= localTime)%Q -> (p == 1)%Q)
      /\ forall later q, (localTime <= later)%Q ->
           transitionProgress (Fin later) = Fin q -> (p <= q)%Q)
  /\ transitionProgress NaN = NaN
  /\ transitionProgress PosInf = Fin 1
  /\ transitionProgress NegInf = Fin 0.
Proof.
  split; [|repeat split].
  rewrite transitionProgress_Fin.
  pose proof (window_share localTime) as Hshare.
  assert (Hlater : forall later q,
            transitionProgress (Fin later) = Fin q ->
            ((later / (6 # 10) <= 0)%Q /\ q = 0%Q)
            \/ ((0 < later / (6 # 10) < 1)%Q /\ q = (later / (6 # 10))%Q)
            \/ ((1 <= later / (6 # 10))%Q /\ q = 1%Q)).
  { intros later q. rewrite transitionProgress_Fin.
    destruct (Qlt_bool 0 (later / (6 # 10))) eqn:E1;
      [destruct (Qlt_bool (later / (6 # 10)) 1) eqn:E2|];
      intro H; injection H as <-; qprop; auto. }
  destruct (Qlt_bool 0 (localTime / (6 # 10))) eqn:E1;
    [destruct (Qlt_bool (localTime / (6 # 10)) 1) eqn:E2|]; qprop;
    eexists; (split; [reflexivity|]); repeat split; intros; try lra;
    match goal with
    | H : transitionProgress (Fin ?later) = Fin ?q |- _ =>
        pose proof (window_share later);
        destruct (Hlater later q H) as [[? ->] | [[? ->] | [? ->]]]; lra
    end.
Qed.

Lemma aspect_16_9 : (inject_Z 1280 / inject_Z 720 == 16 # 9)%Q.
Proof. reflexivity. Qed.

Lemma letterbox
    (c : ctx) (a : MediaAsset.t) (el : Canvas.element) (wd ht : Q) :
  mediaWidth (MediaAsset.kind a) el = Fin wd ->
  mediaHeight (MediaAsset.kind a) el = Fin ht ->
  (0 < wd)%Q -> (0 < ht)%Q ->
  exists x y dw dh : Q,
    drawFitted c a el
    = restore (mkCtx (state c) (saved c)
                 (ops c ++ [DrawImage (state c) el (Fin x) (Fin y) (Fin dw) (Fin dh)]))
    /\ (0 <= x)%Q /\ (0 <= y)%Q
    /\ (0 < dw)%Q /\ (0 < dh)%Q
    /\ (x + dw <= 1280)%Q /\ (y + dh <= 720)%Q
    /\ (2 * x + dw == 1280)%Q /\ (2 * y + dh == 720)%Q
    /\ (dw * ht == dh * wd)%Q
    /\ ((dw == 1280)%Q \/ (dh == 720)%Q).
Proof.
  intros Hw Hh Hwd Hht. unfold drawFitted. rewrite Hw, Hh. cbv zeta.
  assert (Hratio : (0 < wd / ht)%Q).
  { apply Qlt_shift_div_l; [exact Hht | lra]. }
  assert (Hback : (wd / ht * ht == wd)%Q) by (field; lra).
  assert (Haspect : orElse (div (Fin wd) (Fin ht)) (div (ofZ 16) (ofZ 9)) = Fin (wd / ht)).
  { unfold div. replace (Qeq_bool ht 0) with false
      by (symmetry; apply Qeq_bool_false; lra).
    unfold orElse, truthy.
    replace (Qeq_bool (wd / ht) 0) with false
      by (symmetry; apply Qeq_bool_false; lra).
    reflexivity. }
  rewrite Haspect.
  set (r := (wd / ht)%Q) in *.
  assert (Htarget : div CANVAS_WIDTH CANVAS_HEIGHT = Fin (inject_Z 1280 / inject_Z 720))
    by reflexivity.
  rewrite Htarget. unfold gt. cbn [lt].
  pose proof aspect_16_9 as H169.
  destruct (Qlt_bool (inject_Z 1280 / inject_Z 720) r) eqn:E; qprop.
  - assert (Hdh : div CANVAS_WIDTH (Fin r) = Fin (inject_Z 1280 / r)).
    { unfold CANVAS_WIDTH, ofZ, div.
      replace (Qeq_bool r 0) with false by (symmetry; apply Qeq_bool_false; lra).
      reflexivity. }
    rewrite Hdh.
    assert (Hprod : (inject_Z 1280 / r * r == 1280)%Q).
    { change (inject_Z 1280) with 1280%Q. field. lra. }
    assert (Hpos : (0 < inject_Z 1280 / r)%Q).
    { apply Qlt_shift_div_l; [exact Hratio | reflexivity]. }
    assert (Hsmall : (inject_Z 1280 / r <= 720)%Q).
    { apply Qle_shift_div_r; [exact Hratio|]. change (inject_Z 1280) with 1280%Q. lra. }
    exists ((inject_Z 1280 - inject_Z 1280) / inject_Z 2)%Q,
           ((inject_Z 720 - inject_Z 1280 / r) / inject_Z 2)%Q,
           (inject_Z 1280), (inject_Z 1280 / r)%Q.
    split; [reflexivity|].
    change (inject_Z 1280) with 1280%Q in *. change (inject_Z 720) with 720%Q in *.
    change (inject_Z 2) with 2%Q.
    assert (Hx : ((1280 - 1280) / 2 == 0)%Q) by reflexivity.
    assert (Hy : ((720 - 1280 / r) / 2 == (720 - 1280 / r) * (1 # 2))%Q)
      by (unfold Qdiv; apply Qmult_comp; reflexivity).
    repeat split; try rewrite Hx; try rewrite Hy; try lra.
    rewrite <- Hback. field. lra.
  - assert (Hdw : mul CANVAS_HEIGHT (Fin r) = Fin (inject_Z 720 * r)) by reflexivity.
    rewrite Hdw.
    exists ((inject_Z 1280 - inject_Z 720 * r) / inject_Z 2)%Q,
           ((inject_Z 720 - inject_Z 720) / inject_Z 2)%Q,
           (inject_Z 720 * r)%Q, (inject_Z 720).
    split; [reflexivity|].
    change (inject_Z 1280) with 1280%Q in *. change (inject_Z 720) with 720%Q in *.
    change (inject_Z 2) with 2%Q.
    assert (Hy : ((720 - 720) / 2 == 0)%Q) by reflexivity.
    assert (Hx : ((1280 - 720 * r) / 2 == (1280 - 720 * r) * (1 # 2))%Q)
      by (unfold Qdiv; apply Qmult_comp; reflexivity).
    repeat split; try rewrite Hx; try rewrite Hy; lra.
Qed.

(** X19.  Letterboxing.  For media of positive width and height [drawFitted]
    issues one [drawImage] whose rectangle lies inside the 1280 x 720
    canvas, is centred, has the aspect ratio of the media and spans the
    full width or the full height. *)
Theorem drawFitted_letterboxes
    (c : ctx) (a : MediaAsset.t) (el : Canvas.element) (wd ht : Q) :
  mediaWidth (MediaAsset.kind a) el = Fin wd ->
  mediaHeight (MediaAsset.kind a) el = Fin ht ->
  (0 < wd)%Q -> (0 < ht)%Q ->
  exists x y dw dh : Q,
    drawFitted c a el
    = restore (mkCtx (state c) (saved c)
                 (ops c ++ [DrawImage (state c) el (Fin x) (Fin y) (Fin dw) (Fin dh)]))
    /\ (0 <= x)%Q /\ (0 <= y)%Q
    /\ (0 < dw)%Q /\ (0 < dh)%Q
    /\ (x + dw <= 1280)%Q /\ (y + dh <= 720)%Q
    /\ (2 * x + dw == 1280)%Q /\ (2 * y + dh == 720)%Q
    /\ (dw * ht == dh * wd)%Q
    /\ ((dw == 1280)%Q \/ (dh == 720)%Q).
Proof. apply letterbox. Qed.

(** X20.  Media whose size does not give a usable ratio (width 0, or width and
    height both 0 or missing) is drawn as if it were 16:9: over the whole
    canvas. *)
Theorem drawFitted_without_size_fills_canvas
    (c : ctx) (a : MediaAsset.t) (el : Canvas.element) :
  truthy (div (mediaWidth (MediaAsset.kind a) el) (mediaHeight (MediaAsset.kind a) el))
  = false ->
  exists x y dw dh : Q,
    drawFitted c a el
    = restore (mkCtx (state c) (saved c)
                 (ops c ++ [DrawImage (state c) el (Fin x) (Fin y) (Fin dw) (Fin dh)]))
    /\ (x == 0)%Q /\ (y == 0)%Q /\ (dw == 1280)%Q /\ (dh == 720)%Q.
Proof.
  intro Hfalsy. unfold drawFitted, orElse. rewrite Hfalsy.
  eexists. eexists. eexists. eexists. split; [reflexivity|].
  repeat split.
Qed.

Lemma on_canvas_Q (px py : Z) :
  onCanvas px py ->
  (0 <= inject_Z px)%Q /\ (inject_Z px < 1280)%Q
  /\ (0 <= inject_Z py)%Q /\ (inject_Z py < 720)%Q.
Proof.
  intros [[Hx0 Hx1] [Hy0 Hy1]]. repeat split.
  - change 0%Q with (inject_Z 0). now rewrite <- Zle_Qle.
  - change 1280%Q with (inject_Z 1280). now rewrite <- Zlt_Qlt.
  - change 0%Q with (inject_Z 0). now rewrite <- Zle_Qle.
  - change 720%Q with (inject_Z 720). now rewrite <- Zlt_Qlt.
Qed.

(** X21.  The cine-sweep overlay at progress [p] in [0, 1]: a dark full-frame
    fill, then a [destination-out] fill of a canvas-sized rectangle shifted
    left by [1280 (1 - p)], which covers exactly the canvas pixels whose
    column is below [1280 p]; the drawing state is restored. *)
Theorem cine_sweep_wipes_left_to_right (c : ctx) (p : Q) :
  (0 <= p <= 1)%Q ->
  applyTransitionOverlay c cine_sweep (Fin p)
  = mkCtx (state c) (saved c)
      (ops c
       ++ [FillRect (mkState (Rgba 0 0 0 (Fin (7 # 10))) (globalAlpha (state c))
                             (globalCompositeOperation (state c)))
                    (Fin 0) (Fin 0) CANVAS_WIDTH CANVAS_HEIGHT;
           FillRect (mkState (Hex "#000") (globalAlpha (state c)) destination_out)
                    (Fin (- inject_Z 1280 + inject_Z 1280 * p)) (Fin 0)
                    CANVAS_WIDTH CANVAS_HEIGHT])
  /\ forall px py, onCanvas px py ->
       (inRect (Fin (- inject_Z 1280 + inject_Z 1280 * p)) (Fin 0)
               CANVAS_WIDTH CANVAS_HEIGHT px py = true
        <-> (inject_Z px < 1280 * p)%Q).
Proof.
  intros [Hp0 Hp1]. split.
  - destruct c as [st sv os]. unfold applyTransitionOverlay. cbv zeta.
    unfold restore, fillRect, setFillStyle, setComposite, save. simpl.
    now rewrite <- app_assoc.
  - intros px py Hon. destruct (on_canvas_Q px py Hon) as (Hx0 & Hx1 & Hy0 & Hy1).
    unfold inRect, CANVAS_WIDTH, CANVAS_HEIGHT, ofZ. cbn [le lt add].
    change (inject_Z 1280) with 1280%Q. change (inject_Z 720) with 720%Q.
    rewrite !andb_true_iff, !Qle_bool_iff, !Qlt_bool_iff.
    split; [intros [[[H1 H2] H3] H4] | intro H]; [lra|].
    repeat split; lra.
Qed.

(** X22.  The fade-in overlay.  After the clip's media is drawn, a fade-in clip
    gets one full-frame fill in [rgba(0,0,0,a)] with [a = 1 - progress]:
    1 at the clip's start, [1 - localTime/0.6] inside the 0.6 s window and
    0 from then on; the drawing state is restored. *)
Theorem fade_in_overlay_is_linear
    (library : list MediaAsset.t) (w : world) (clip : TimelineClip.t)
    (previous : option TimelineClip.t) (localTime : Q)
    (el : Canvas.element) (w1 : world) :
  TimelineClip.transition clip = fade_in ->
  mediaCache w (TimelineClip.mediaId clip) = Some el ->
  drawCached library w (TimelineClip.mediaId clip) el (Fin localTime) (Fin 1) = Ok w1 ->
  exists a : Q,
    renderClip library w clip previous (Fin localTime)
    = Ok (withCanvas w1
            (mkCtx (state (canvas w1)) (saved (canvas w1))
               (ops (canvas w1)
                ++ [FillRect (mkState (Rgba 0 0 0 (Fin a))
                                      (globalAlpha (state (canvas w1)))
                                      (globalCompositeOperation (state (canvas w1))))
                             (Fin 0) (Fin 0) CANVAS_WIDTH CANVAS_HEIGHT])))
    /\ (0 <= a <= 1)%Q
    /\ ((localTime <= 0)%Q -> (a == 1)%Q)
    /\ ((0 <= localTime <= 6 # 10)%Q -> (a == 1 - localTime / (6 # 10))%Q)
    /\ ((6 # 10 <= localTime)%Q -> (a == 0)%Q).
Proof.
  intros Hfade Hcached Hdraw.
  pose proof (window_share localTime) as Hshare.
  unfold renderClip. rewrite Hcached, Hfade. cbn [isCrossfade].
  replace (match previous with
           | Some _ | _ =>
               bind (drawCached library w (TimelineClip.mediaId clip) el
                       (Fin localTime) (Fin 1))
                 (fun w0 =>
                    let progress := transitionProgress (Fin localTime) in
                    let c := save (canvas w0) in
                    let c := setFillStyle c (Rgba 0 0 0 (sub (Fin 1) progress)) in
                    let c := fillRect c (Fin 0) (Fin 0) CANVAS_WIDTH CANVAS_HEIGHT in
                    Ok (withCanvas w0 (restore c)))
           end)
    with (bind (drawCached library w (TimelineClip.mediaId clip) el
                  (Fin localTime) (Fin 1))
            (fun w0 =>
               let progress := transitionProgress (Fin localTime) in
               let c := save (canvas w0) in
               let c := setFillStyle c (Rgba 0 0 0 (sub (Fin 1) progress)) in
               let c := fillRect c (Fin 0) (Fin 0) CANVAS_WIDTH CANVAS_HEIGHT in
               Ok (withCanvas w0 (restore c))))
    by now destruct previous.
  rewrite Hdraw. cbn [bind]. cbv zeta. rewrite transitionProgress_Fin.
  destruct (canvas w1) as [st sv os] eqn:Ec.
  destruct (Qlt_bool 0 (localTime / (6 # 10))) eqn:E1;
    [destruct (Qlt_bool (localTime / (6 # 10)) 1) eqn:E2|]; qprop;
    eexists; (split; [reflexivity|]); repeat split; intros; lra.
Qed.

(** *** Drawing ready media, and the crossfade *)

Lemma seekIfDrifted_same_media (a a' : MediaAsset.t) (el : Canvas.element)
    (timestamp : number) :
  (ready a el -> ready a (seekIfDrifted a' el timestamp))
  /\ (sized a el -> sized a (seekIfDrifted a' el timestamp)).
Proof.
  unfold seekIfDrifted.
  destruct (negb (isNaN timestamp) && isFinite timestamp); [|tauto].
  destruct (gt _ _); [|tauto].
  unfold ready, sized. destruct el; simpl; tauto.
Qed.

Lemma drawn_once (c : ctx) (a : MediaAsset.t) (el : Canvas.element) (q : Q) :
  sized a el -> (0 <= q <= 1)%Q ->
  exists x y dw dh : Q,
    drawFitted (setGlobalAlpha (save c) (Fin q)) a el
    = mkCtx (state c) (saved c)
        (ops c
         ++ [DrawImage (mkState (fillStyle (state c)) (Fin q)
                                (globalCompositeOperation (state c)))
                       el (Fin x) (Fin y) (Fin dw) (Fin dh)])
    /\ (0 <= x)%Q /\ (0 <= y)%Q /\ (0 < dw)%Q /\ (0 < dh)%Q
    /\ (x + dw <= 1280)%Q /\ (y + dh <= 720)%Q.
Proof.
  intros (wd & ht & Hw & Hh & Hwd & Hht) [Hq0 Hq1].
  destruct (letterbox (setGlobalAlpha (save c) (Fin q)) a el wd ht Hw Hh Hwd Hht)
    as (x & y & dw & dh & -> & Hx & Hy & Hdw & Hdh & Hfx & Hfy & _).
  assert (Halpha : setGlobalAlpha (save c) (Fin q)
                   = mkCtx (mkState (fillStyle (state c)) (Fin q)
                                    (globalCompositeOperation (state c)))
                           (state c :: saved c) (ops c)).
  { unfold setGlobalAlpha. cbn [le].
    replace (Qle_bool 0 q) with true by (symmetry; apply Qle_bool_iff; lra).
    replace (Qle_bool q 1) with true by (symmetry; apply Qle_bool_iff; lra).
    reflexivity. }
  rewrite Halpha. exists x, y, dw, dh. split; [reflexivity|]. auto 10.
Qed.

Lemma drawn_on_canvas (s : drawState) (el : Canvas.element) (x y dw dh : Q) :
  (0 <= x)%Q -> (0 <= y)%Q -> (x + dw <= 1280)%Q -> (y + dh <= 720)%Q ->
  forall px py,
    covers (DrawImage s el (Fin x) (Fin y) (Fin dw) (Fin dh)) px py = true ->
    onCanvas px py.
Proof.
  intros Hx Hy Hfx Hfy px py Hcov.
  simpl in Hcov. unfold inRect, ofZ in Hcov. cbn [le lt add] in Hcov.
  rewrite !andb_true_iff, !Qle_bool_iff, !Qlt_bool_iff in Hcov.
  destruct Hcov as [[[H1 H2] H3] H4].
  assert (Hpx : (0 <= inject_Z px)%Q /\ (inject_Z px < 1280)%Q) by (split; lra).
  assert (Hpy : (0 <= inject_Z py)%Q /\ (inject_Z py < 720)%Q) by (split; lra).
  destruct Hpx as [Hpx0 Hpx1], Hpy as [Hpy0 Hpy1].
  change 0%Q with (inject_Z 0) in Hpx0, Hpy0.
  change 1280%Q with (inject_Z 1280) in Hpx1.
  change 720%Q with (inject_Z 720) in Hpy1.
  rewrite <- Zle_Qle in Hpx0, Hpy0. rewrite <- Zlt_Qlt in Hpx1, Hpy1.
  unfold onCanvas. lia.
Qed.

Lemma drawMedia_draws (c : ctx) (a : MediaAsset.t) (el : Canvas.element)
    (timestamp : number) (q : Q) :
  ready a el -> sized a el -> (0 <= q <= 1)%Q ->
  exists (el' : Canvas.element) (x y dw dh : Q),
    drawMedia c (mkMedia el (Some a)) timestamp (Fin q)
    = Ok (mkCtx (state c) (saved c)
            (ops c
             ++ [DrawImage (mkState (fillStyle (state c)) (Fin q)
                                    (globalCompositeOperation (state c)))
                           el' (Fin x) (Fin y) (Fin dw) (Fin dh)]),
          el')
    /\ (0 <= x)%Q /\ (0 <= y)%Q /\ (0 < dw)%Q /\ (0 < dh)%Q
    /\ (x + dw <= 1280)%Q /\ (y + dh <= 720)%Q
    /\ (MediaAsset.kind a = image -> el' = el)
    /\ (MediaAsset.kind a = video -> el' = seekIfDrifted a el timestamp)
    /\ ready a el' /\ sized a el'.
Proof.
  intros Hready Hsized Hq. unfold drawMedia. cbn [asset element]. cbv zeta.
  unfold ready in Hready.
  destruct (MediaAsset.kind a) eqn:Hkind.
  - rewrite Hready. cbn [negb].
    destruct (drawn_once c a el q Hsized Hq)
      as (x & y & dw & dh & -> & Hx & Hy & Hdw & Hdh & Hfx & Hfy).
    exists el, x, y, dw, dh.
    split; [reflexivity|]. do 6 (split; [assumption|]).
    split; [reflexivity|]. split; [discriminate|].
    split; [unfold ready; now rewrite Hkind | exact Hsized].
  - rewrite Hready.
    destruct (seekIfDrifted_same_media a a el timestamp) as [Hr Hs].
    destruct (drawn_once c a (seekIfDrifted a el timestamp) q (Hs Hsized) Hq)
      as (x & y & dw & dh & -> & Hx & Hy & Hdw & Hdh & Hfx & Hfy).
    exists (seekIfDrifted a el timestamp), x, y, dw, dh.
    split; [reflexivity|]. do 6 (split; [assumption|]).
    split; [discriminate|]. split; [reflexivity|].
    split; [apply Hr; unfold ready; now rewrite Hkind | now apply Hs].
Qed.

(** X23.  Ready media of known size is drawn by exactly one [drawImage] of that
    media's element (for a video, the element as the seek left it), under
    the alpha asked for (in [0, 1]), in a rectangle inside the canvas, so
    touching canvas pixels only; the drawing state and the saved stack are
    as before afterwards.  An image element is left as it was and a video
    is at most sought. *)
Theorem drawMedia_draws_when_ready (c : ctx) (a : MediaAsset.t) (el : Canvas.element)
    (timestamp : number) (q : Q) :
  ready a el -> sized a el -> (0 <= q <= 1)%Q ->
  exists (el' : Canvas.element) (x y dw dh : Q),
    drawMedia c (mkMedia el (Some a)) timestamp (Fin q)
    = Ok (mkCtx (state c) (saved c)
            (ops c
             ++ [DrawImage (mkState (fillStyle (state c)) (Fin q)
                                    (globalCompositeOperation (state c)))
                           el' (Fin x) (Fin y) (Fin dw) (Fin dh)]),
          el')
    /\ (0 <= x)%Q /\ (0 <= y)%Q /\ (0 < dw)%Q /\ (0 < dh)%Q
    /\ (x + dw <= 1280)%Q /\ (y + dh <= 720)%Q
    /\ (forall px py,
          covers (DrawImage (mkState (fillStyle (state c)) (Fin q)
                                     (globalCompositeOperation (state c)))
                            el' (Fin x) (Fin y) (Fin dw) (Fin dh)) px py = true ->
          onCanvas px py)
    /\ (MediaAsset.kind a = image -> el' = el)
    /\ (MediaAsset.kind a = video -> el' = seekIfDrifted a el timestamp)
    /\ ready a el' /\ sized a el'.
Proof.
  intros Hready Hsized Hq.
  destruct (drawMedia_draws c a el timestamp q Hready Hsized Hq)
    as (el' & x & y & dw & dh & Hdraw & Hx & Hy & Hdw & Hdh & Hfx & Hfy
        & Himage & Hvideo & Hr & Hs).
  exists el', x, y, dw, dh.
  split; [exact Hdraw|]. do 6 (split; [assumption|]).
  split; [now apply drawn_on_canvas|].
  split; [exact Himage|]. split; [exact Hvideo|]. split; [exact Hr | exact Hs].
Qed.

(** X24.  Crossfade.  When the clip has the crossfade transition and a previous
    clip, and both media are cached, listed, ready and of known size,
    [renderClip] issues exactly two [drawImage] calls: first the previous
    clip's element, at the time [previous duration - (0.6 - localTime)] and
    under alpha [1 - progress], then the current clip's element, at the
    local time and under alpha [progress]; both alphas lie in [0, 1], both
    rectangles inside the canvas.  When the two clips share one media, the
    second call draws the element as the first call left it.  The drawing
    state is restored and the cache holds the elements as drawn. *)
Theorem crossfade_draws_previous_then_current
    (library : list MediaAsset.t) (w : world)
    (clip previousClip : TimelineClip.t) (localTime : Q)
    (el elp : Canvas.element) (a ap : MediaAsset.t) :
  TimelineClip.transition clip = crossfade ->
  mediaCache w (TimelineClip.mediaId clip) = Some el ->
  mediaCache w (TimelineClip.mediaId previousClip) = Some elp ->
  find (fun x => String.eqb (MediaAsset.id x) (TimelineClip.mediaId clip)) library
  = Some a ->
  find (fun x => String.eqb (MediaAsset.id x) (TimelineClip.mediaId previousClip)) library
  = Some ap ->
  ready a el -> sized a el -> ready ap elp -> sized ap elp ->
  exists (w' : world) (elp' el' : Canvas.element)
         (fading rising xp yp wp hp x y wd ht : Q),
    renderClip library w clip (Some previousClip) (Fin localTime) = Ok w'
    /\ transitionProgress (Fin localTime) = Fin rising
    /\ sub (Fin 1) (transitionProgress (Fin localTime)) = Fin fading
    /\ (0 <= fading <= 1)%Q /\ (0 <= rising <= 1)%Q
    /\ canvas w'
       = mkCtx (state (canvas w)) (saved (canvas w))
           (ops (canvas w)
            ++ [DrawImage (mkState (fillStyle (state (canvas w))) (Fin fading)
                                   (globalCompositeOperation (state (canvas w))))
                          elp' (Fin xp) (Fin yp) (Fin wp) (Fin hp);
                DrawImage (mkState (fillStyle (state (canvas w))) (Fin rising)
                                   (globalCompositeOperation (state (canvas w))))
                          el' (Fin x) (Fin y) (Fin wd) (Fin ht)])
    /\ (MediaAsset.kind ap = image -> elp' = elp)
    /\ (MediaAsset.kind ap = video ->
        elp' = seekIfDrifted ap elp
                 (sub (TimelineClip.duration previousClip)
                      (sub TRANSITION_DURATION (Fin localTime))))
    /\ (MediaAsset.kind a = image ->
        el' = if String.eqb (TimelineClip.mediaId clip) (TimelineClip.mediaId previousClip)
              then elp' else el)
    /\ (MediaAsset.kind a = video ->
        el' = seekIfDrifted a
                (if String.eqb (TimelineClip.mediaId clip)
                               (TimelineClip.mediaId previousClip)
                 then elp' else el)
                (Fin localTime))
    /\ mediaCache w' (TimelineClip.mediaId clip) = Some el'
    /\ (String.eqb (TimelineClip.mediaId previousClip) (TimelineClip.mediaId clip) = false ->
        mediaCache w' (TimelineClip.mediaId previousClip) = Some elp')
    /\ (0 <= xp)%Q /\ (0 <= yp)%Q /\ (xp + wp <= 1280)%Q /\ (yp + hp <= 720)%Q
    /\ (0 <= x)%Q /\ (0 <= y)%Q /\ (x + wd <= 1280)%Q /\ (y + ht <= 720)%Q.
Proof.
  intros Hcross Hcur Hprev Ha Hap Hr Hs Hrp Hsp.
  assert (Hp : exists p, transitionProgress (Fin localTime) = Fin p /\ (0 <= p <= 1)%Q).
  { rewrite transitionProgress_Fin.
    destruct (Qlt_bool 0 (localTime / (6 # 10))) eqn:E1;
      [destruct (Qlt_bool (localTime / (6 # 10)) 1) eqn:E2|]; qprop;
      eexists; (split; [reflexivity|]); lra. }
  destruct Hp as (p & Hp & Hp01).
  unfold renderClip. rewrite Hcur, Hcross, Hprev. cbn [isCrossfade]. cbv zeta.
  rewrite Hp. cbn [sub].
  assert (Hq1 : (0 <= 1 - p <= 1)%Q) by lra.
  unfold drawCached at 1. rewrite Hap.
  destruct (drawMedia_draws (canvas w) ap elp
              (sub (TimelineClip.duration previousClip)
                   (sub TRANSITION_DURATION (Fin localTime)))
              (1 - p) Hrp Hsp Hq1)
    as (elp' & xp & yp & wp & hp & -> & Hxp & Hyp & _ & _ & Hfxp & Hfyp
        & Hpi & Hpv & Hrp' & Hsp').
  cbn [bind fst snd].
  set (w1 := stored (withCanvas w _) (TimelineClip.mediaId previousClip) elp').
  assert (Hnow : deref w1 (TimelineClip.mediaId clip) el
                 = (if String.eqb (TimelineClip.mediaId clip)
                                  (TimelineClip.mediaId previousClip)
                    then elp' else el)
                 /\ ready a (deref w1 (TimelineClip.mediaId clip) el)
                 /\ sized a (deref w1 (TimelineClip.mediaId clip) el)).
  { unfold deref, w1, stored. cbn [mediaCache].
    destruct (String.eqb (TimelineClip.mediaId clip)
                         (TimelineClip.mediaId previousClip)) eqn:Esame.
    - apply String.eqb_eq in Esame. split; [reflexivity|].
      rewrite Esame in Ha. assert (a = ap) by congruence. subst a. now split.
    - cbn [withCanvas mediaCache]. rewrite Hcur. auto. }
  destruct Hnow as (Hbase & Hr1 & Hs1).
  unfold drawCached. rewrite Ha.
  destruct (drawMedia_draws (canvas w1) a (deref w1 (TimelineClip.mediaId clip) el)
              (Fin localTime) p Hr1 Hs1 Hp01)
    as (el' & x & y & wd & ht & -> & Hx & Hy & _ & _ & Hfx & Hfy
        & Hi & Hv & _ & _).
  cbn [bind fst snd].
  eexists. exists elp', el', (1 - p)%Q, p, xp, yp, wp, hp, x, y, wd, ht.
  split; [reflexivity|]. split; [reflexivity|]. split; [reflexivity|].
  split; [exact Hq1|]. split; [exact Hp01|].
  rewrite Hbase in Hi, Hv.
  split.
  { unfold w1, stored, withCanvas. cbn [canvas ops state saved].
    now rewrite <- app_assoc. }
  split; [exact Hpi|]. split; [exact Hpv|]. split; [exact Hi|]. split; [exact Hv|].
  split.
  { unfold stored. cbn [mediaCache]. now rewrite String.eqb_refl. }
  split.
  { intro Hother. unfold stored, w1. cbn [mediaCache withCanvas].
    rewrite Hother. unfold stored. cbn [mediaCache].
    now rewrite String.eqb_refl. }
  auto 10.
Qed.

End Overlays.

(** ** The further properties on the two compositions *)

Lemma studio_reachable : reachable Studio.state.
Proof. unfold Studio.state. repeat (apply reachable_step || apply reachable_initial || exact I). Qed.

Lemma studio_resolved : resolved Studio.state.
Proof.
  intros clip [<- | [<- | []]].
  - exists Studio.photoAsset. split; [now left | reflexivity].
  - exists Studio.portraitAsset. split; [right; now left | reflexivity].
Qed.

Lemma studio_listed clip :
  In clip (normalizeTimeline Studio.clips) ->
  exists a, In a Studio.library /\ MediaAsset.id a = TimelineClip.mediaId clip.
Proof.
  intros [<- | [<- | []]].
  - exists Studio.photoAsset. split; [right; now left | reflexivity].
  - exists Studio.portraitAsset. split; [now left | reflexivity].
Qed.

(** After one take and two uploads the active audio is that take. *)
Lemma reachable_active_audio_studio :
  reachable Studio.state
  /\ exists audio, activeAudio Studio.state = Some audio
                   /\ GeneratedAudio.id audio = "a1"%string.
Proof.
  split; [exact studio_reachable|].
  destruct (reachable_active_audio Studio.state studio_reachable) as (_ & _ & Hact).
  destruct (Hact "a1"%string eq_refl) as (audio & Ha & _ & Hid).
  exists audio. auto.
Defined.

Lemma activeAudio_resolution_demo :
  exists found, activeAudio Demo.state = Some found
                /\ GeneratedAudio.id found = "a1"%string.
Proof.
  destruct (activeAudio_resolution Demo.state) as (_ & _ & Hfound & _).
  apply (Hfound "a1"%string Demo.audio eq_refl); [now left | reflexivity].
Defined.

Lemma removeMedia_keeps_resolved_studio :
  resolved Studio.state /\ resolved (Store.removeMedia "img" Studio.state).
Proof.
  split; [exact studio_resolved|].
  destruct (removeMedia_keeps_resolved "img" Studio.state) as (_ & _ & _ & _ & _ & Hres).
  exact (Hres studio_resolved).
Defined.

(** A 30 s image asset enters the timeline for 12 s. *)
Lemma image_clip_duration_studio :
  exists q, clipDuration Studio.portraitAsset = Fin q /\ (q == 12)%Q.
Proof.
  destruct (image_clip_duration_clamped Studio.portraitAsset eq_refl)
    as (q & Hq & _ & _ & _ & Hlong).
  exists q. split; [exact Hq|]. apply Hlong. unfold Qle; simpl; lia.
Defined.

Lemma handleApplySimpleImage_demo :
  activeAudio Demo.state = Some Demo.audio
  /\ AppState.timeline (handleApplySimpleImage "clip-9" Studio.photoAsset Demo.state)
     = [TimelineClip.mk "clip-9" "img" (Fin 0) (Fin (73 # 10)) fade_in]
  /\ durationMismatch (handleApplySimpleImage "clip-9" Studio.photoAsset Demo.state) = false.
Proof.
  split; [reflexivity|].
  destruct (proj2 (handleApplySimpleImage_follows_audio "clip-9" Studio.photoAsset Demo.state)
              Demo.audio eq_refl)
    as (Hst & _ & _ & Hsync & _).
  split; [now rewrite Hst|].
  apply Hsync. reflexivity.
Defined.

Lemma handleRemoveClip_undoes_add_demo :
  handleRemoveClip "clip-3" (handleAddToTimeline "clip-3" Demo.filmAsset Demo.state)
  = Store.setTimeline (normalizeTimeline (AppState.timeline Demo.state)) Demo.state.
Proof.
  apply handleRemoveClip_undoes_add.
  intros clip [<- | [<- | []]]; discriminate.
Defined.

Lemma handleRemoveClip_removes_demo :
  ~ In (TimelineClip.mk "clip-1" "img" (Fin 0) (Fin 4) fade_in)
       (AppState.timeline (handleRemoveClip "clip-1" Demo.state)).
Proof.
  destruct (handleRemoveClip_removes "clip-1" Demo.state) as (_ & Hgone & _).
  intro Hin. apply (Hgone _ Hin). reflexivity.
Defined.

Lemma handleTransitionChange_studio :
  normalized (AppState.timeline Studio.state)
  /\ normalized (AppState.timeline (handleTransitionChange "clip-2" white_flash Studio.state)).
Proof.
  assert (Hn : normalized (AppState.timeline Studio.state)) by reflexivity.
  split; [exact Hn|].
  destruct (handleTransitionChange_keeps_timing "clip-2" white_flash Studio.state)
    as (_ & _ & _ & Hkeep).
  exact (Hkeep Hn).
Defined.

Lemma handleModeChange_studio :
  AppState.timeline (handleModeChange simples Studio.state) = [Studio.opening].
Proof.
  destruct (handleModeChange_simple_keeps_first simples Studio.state)
    as (_ & Hfirst & _).
  destruct (Hfirst eq_refl) as [-> _]. reflexivity.
Defined.

Lemma totalDuration_is_last_end_demo :
  exists last,
    nth_error (normalizeTimeline Demo.clips) (List.length Demo.clips - 1) = Some last
    /\ totalDuration (normalizeTimeline Demo.clips)
       = add (TimelineClip.start last) (TimelineClip.duration last).
Proof. apply totalDuration_is_last_end. discriminate. Defined.

Lemma renderFrame_always_selects_demo :
  exists n clip,
    safeIndex (normalizeTimeline Demo.clips) PosInf = Z.of_nat n
    /\ nth_error (normalizeTimeline Demo.clips) n = Some clip.
Proof.
  destruct (proj2 (renderFrame_always_selects Demo.library
                     (normalizeTimeline Demo.clips) Demo.loaded PosInf))
    as (n & clip & Hs & Hn & _).
  - discriminate.
  - exists n, clip. auto.
Defined.

Lemma drawMedia_not_ready_demo :
  drawMedia Demo.mounted (mkMedia Studio.pending (Some Demo.filmAsset)) (Fin 1) (Fin 1)
  = Ok (Demo.mounted, Studio.pending).
Proof.
  apply drawMedia_not_ready_is_noop. left. split; reflexivity.
Defined.

Lemma renderFrame_returns_studio :
  exists w', renderFrame (normalizeTimeline Studio.clips) Studio.library
               Studio.gallery (Fin (42 # 10)) = Ok w'.
Proof.
  apply renderFrame_returns. intros clip Hin _. now apply studio_listed.
Defined.

Lemma renderFrame_appends_demo :
  exists w' rest,
    renderFrame (normalizeTimeline Demo.clips) Demo.library Demo.loaded (Fin 5) = Ok w'
    /\ ops (canvas w')
       = ops (canvas Demo.loaded)
         ++ FillRect (mkState (Hex "#050814") (Fin 1) source_over)
                     (Fin 0) (Fin 0) CANVAS_WIDTH CANVAS_HEIGHT :: rest.
Proof.
  eexists.
  destruct (renderFrame_appends_and_restores Demo.library
              (normalizeTimeline Demo.clips) Demo.loaded (Fin 5) _ eq_refl)
    as (rest & Hops & _).
  exists rest. split; [reflexivity | exact Hops].
Defined.

Lemma frame_independent_demo :
  exists w1 w2,
    renderFrame (normalizeTimeline Demo.clips) Demo.library Demo.loaded (Fin 5) = Ok w1
    /\ renderFrame (normalizeTimeline Demo.clips) Demo.library
         (mkWorld (mkCtx (state Demo.mounted) [] []) (mediaCache Demo.loaded)) (Fin 5)
       = Ok w2
    /\ forall px py, onCanvas px py ->
         pixelAt (ops (canvas w2)) px py = pixelAt (ops (canvas w1)) px py.
Proof.
  eexists.
  destruct (frame_independent_of_previous_content Demo.library
              (normalizeTimeline Demo.clips) (Fin 5)
              (state Demo.mounted) [] (mediaCache Demo.loaded)
              (ops Demo.mounted) [] _ eq_refl eq_refl eq_refl)
    as (w2 & Hr & _ & Hpx).
  exists w2. split; [reflexivity|]. split; [exact Hr | exact Hpx].
Defined.

(** Half way through the window the progress is one half. *)
Lemma transitionProgress_half :
  exists p, transitionProgress (Fin (3 # 10)) = Fin p /\ (p == 1 # 2)%Q.
Proof.
  destruct (proj1 (transitionProgress_clamped (3 # 10)))
    as (p & Hp & _ & _ & Hin & _).
  exists p. split; [exact Hp|].
  rewrite Hin; [reflexivity|]. split; unfold Qle; simpl; lia.
Defined.

Lemma drawFitted_letterboxes_portrait :
  exists x y dw dh : Q,
    drawFitted Demo.mounted Studio.portraitAsset Studio.portrait
    = restore (mkCtx (state Demo.mounted) (saved Demo.mounted)
                 (ops Demo.mounted
                  ++ [DrawImage (state Demo.mounted) Studio.portrait
                        (Fin x) (Fin y) (Fin dw) (Fin dh)]))
    /\ (x + dw <= 1280)%Q /\ (y + dh <= 720)%Q /\ (dw * 1200 == dh * 800)%Q.
Proof.
  destruct (drawFitted_letterboxes Demo.mounted Studio.portraitAsset Studio.portrait
              800 1200 eq_refl eq_refl eq_refl eq_refl)
    as (x & y & dw & dh & Heq & _ & _ & _ & _ & Hx & Hy & _ & _ & Hratio & _).
  exists x, y, dw, dh. auto.
Defined.

Lemma drawFitted_without_size_demo :
  exists x y dw dh : Q,
    drawFitted Demo.mounted Demo.filmAsset Studio.pending
    = restore (mkCtx (state Demo.mounted) (saved Demo.mounted)
                 (ops Demo.mounted
                  ++ [DrawImage (state Demo.mounted) Studio.pending
                        (Fin x) (Fin y) (Fin dw) (Fin dh)]))
    /\ (x == 0)%Q /\ (y == 0)%Q /\ (dw == 1280)%Q /\ (dh == 720)%Q.
Proof.
  apply drawFitted_without_size_fills_canvas. reflexivity.
Defined.

(** Half way through the sweep column 100 is wiped and column 700 is not. *)
Lemma cine_sweep_half :
  inRect (Fin (- inject_Z 1280 + inject_Z 1280 * (1 # 2))) (Fin 0)
         CANVAS_WIDTH CANVAS_HEIGHT 100 50 = true
  /\ inRect (Fin (- inject_Z 1280 + inject_Z 1280 * (1 # 2))) (Fin 0)
            CANVAS_WIDTH CANVAS_HEIGHT 700 50 <> true.
Proof.
  assert (Hp : (0 <= 1 # 2 <= 1)%Q) by (split; unfold Qle; simpl; lia).
  destruct (cine_sweep_wipes_left_to_right Demo.mounted (1 # 2) Hp) as [_ Hcov].
  split.
  - apply (Hcov 100 50); [unfold onCanvas; lia | unfold Qlt; simpl; lia].
  - intro H. apply (Hcov 700 50) in H; [|unfold onCanvas; lia].
    unfold Qlt in H. simpl in H. lia.
Defined.

Lemma fade_in_overlay_studio :
  exists w1 a,
    drawCached Studio.library Studio.gallery "img" Demo.photo (Fin (3 # 10)) (Fin 1) = Ok w1
    /\ renderClip Studio.library Studio.gallery Studio.opening None (Fin (3 # 10))
       = Ok (withCanvas w1
               (mkCtx (state (canvas w1)) (saved (canvas w1))
                  (ops (canvas w1)
                   ++ [FillRect (mkState (Rgba 0 0 0 (Fin a))
                                         (globalAlpha (state (canvas w1)))
                                         (globalCompositeOperation (state (canvas w1))))
                                (Fin 0) (Fin 0) CANVAS_WIDTH CANVAS_HEIGHT])))
    /\ (a == 1 # 2)%Q.
Proof.
  eexists.
  destruct (fade_in_overlay_is_linear Studio.library Studio.gallery Studio.opening None
              (3 # 10) Demo.photo _ eq_refl eq_refl eq_refl)
    as (a & Hr & _ & _ & Hin & _).
  exists a. split; [reflexivity|]. split; [exact Hr|].
  rewrite Hin; [reflexivity|]. split; unfold Qle; simpl; lia.
Defined.

Lemma photo_ready : ready Studio.photoAsset Demo.photo.
Proof. reflexivity. Qed.

Lemma photo_sized : sized Studio.photoAsset Demo.photo.
Proof. exists 1920%Q, 1080%Q. repeat split. Qed.

Lemma portrait_ready : ready Studio.portraitAsset Studio.portrait.
Proof. reflexivity. Qed.

Lemma portrait_sized : sized Studio.portraitAsset Studio.portrait.
Proof. exists 800%Q, 1200%Q. repeat split. Qed.

Lemma drawMedia_draws_photo :
  exists x y dw dh : Q,
    drawMedia Demo.mounted (mkMedia Demo.photo (Some Studio.photoAsset)) (Fin 1) (Fin (1 # 2))
    = Ok (mkCtx (state Demo.mounted) (saved Demo.mounted)
            (ops Demo.mounted
             ++ [DrawImage (mkState (fillStyle (state Demo.mounted)) (Fin (1 # 2))
                                    (globalCompositeOperation (state Demo.mounted)))
                           Demo.photo (Fin x) (Fin y) (Fin dw) (Fin dh)]),
          Demo.photo)
    /\ (x + dw <= 1280)%Q /\ (y + dh <= 720)%Q.
Proof.
  destruct (drawMedia_draws_when_ready Demo.mounted Studio.photoAsset Demo.photo
              (Fin 1) (1 # 2) photo_ready photo_sized)
    as (el' & x & y & dw & dh & Hr & _ & _ & _ & _ & Hfx & Hfy & _ & Himage & _).
  - split; unfold Qle; simpl; lia.
  - exists x, y, dw, dh. rewrite (Himage eq_refl) in Hr. auto.
Defined.

(** The crossfade scenario: 0.2 s into the second clip the photo of the
    first clip is drawn under the fading alpha and then the portrait of the
    second under the rising one, a third of the way through the window. *)
Lemma crossfade_studio :
  exists (w' : world) (fading rising xp yp wp hp x y wd ht : Q),
    renderClip Studio.library Studio.gallery Studio.closing (Some Studio.opening)
      (Fin (2 # 10)) = Ok w'
    /\ transitionProgress (Fin (2 # 10)) = Fin rising
    /\ sub (Fin 1) (transitionProgress (Fin (2 # 10))) = Fin fading
    /\ (rising == 1 # 3)%Q
    /\ canvas w'
       = mkCtx (state (canvas Studio.gallery)) (saved (canvas Studio.gallery))
           (ops (canvas Studio.gallery)
            ++ [DrawImage (mkState (fillStyle (state (canvas Studio.gallery))) (Fin fading)
                             (globalCompositeOperation (state (canvas Studio.gallery))))
                          Demo.photo (Fin xp) (Fin yp) (Fin wp) (Fin hp);
                DrawImage (mkState (fillStyle (state (canvas Studio.gallery))) (Fin rising)
                             (globalCompositeOperation (state (canvas Studio.gallery))))
                          Studio.portrait (Fin x) (Fin y) (Fin wd) (Fin ht)]).
Proof.
  destruct (crossfade_draws_previous_then_current Studio.library Studio.gallery
              Studio.closing Studio.opening (2 # 10)
              Studio.portrait Demo.photo Studio.portraitAsset Studio.photoAsset
              eq_refl eq_refl eq_refl eq_refl eq_refl
              portrait_ready portrait_sized photo_ready photo_sized)
    as (w' & elp' & el' & fading & rising & xp & yp & wp & hp & x & y & wd & ht
        & Hr & Hrise & Hfade & _ & _ & Hcanvas & Hpi & _ & Hi & _).
  rewrite (Hpi eq_refl), (Hi eq_refl) in Hcanvas.
  exists w', fading, rising, xp, yp, wp, hp, x, y, wd, ht.
  split; [exact Hr|]. split; [exact Hrise|]. split; [exact Hfade|].
  split; [|exact Hcanvas].
  vm_compute in Hrise. injection Hrise as <-. reflexivity.
Defined.

(** ** Positive durations across the timeline handlers *)

Section PositiveDurations.
Import AppState Store.

Lemma normalizeFrom_positive clips : forall cursor,
  Forall positive clips -> Forall positive (normalizeFrom cursor clips).
Proof.
  induction clips as [|c rest IH]; intros cursor Hpos; simpl; [constructor|].
  inversion Hpos; subst. constructor; [assumption | now apply IH].
Qed.

Lemma filter_positive (keep : TimelineClip.t -> bool) clips :
  Forall positive clips -> Forall positive (filter keep clips).
Proof.
  intro Hpos. apply Forall_forall. intros clip Hin.
  apply filter_In in Hin. destruct Hin as [Hin _].
  now apply (proj1 (Forall_forall _ _) Hpos).
Qed.

Lemma image_duration_positive (asset : MediaAsset.t) :
  MediaAsset.kind asset = image ->
  MediaAsset.duration asset <> Some NaN ->
  gt (clipDuration asset) (Fin 0) = true.
Proof.
  intros Hkind Hnan. unfold clipDuration. rewrite Hkind.
  destruct (MediaAsset.duration asset) as [[| | |d]|]; try reflexivity.
  - now contradiction Hnan.
  - cbn. destruct (Qlt_bool d 12) eqn:E1; cbn.
    + destruct (Qlt_bool 4 d) eqn:E2; cbn; qprop; lra.
    + reflexivity.
Qed.

(** X26.  The timeline handlers keep every clip duration positive, which is
    what the clip lookup of [renderFrame] relies on: adding an image whose
    duration is not [NaN] (or any asset whose clip duration is positive),
    removing a clip, setting a positive duration, changing a transition,
    changing the mode, and applying an image to an audio whose duration is
    a number all turn a timeline of positive durations into one. *)
Theorem handlers_keep_durations_positive (st : AppState.t) :
  Forall positive (timeline st) ->
  (forall uuid asset,
      gt (clipDuration asset) (Fin 0) = true ->
      Forall positive (timeline (handleAddToTimeline uuid asset st)))
  /\ (forall uuid asset,
        MediaAsset.kind asset = image ->
        MediaAsset.duration asset <> Some NaN ->
        Forall positive (timeline (handleAddToTimeline uuid asset st)))
  /\ (forall id, Forall positive (timeline (handleRemoveClip id st)))
  /\ (forall id d, gt d (Fin 0) = true ->
                   Forall positive (timeline (handleDurationChange id d st)))
  /\ (forall id tr, Forall positive (timeline (handleTransitionChange id tr st)))
  /\ (forall value, Forall positive (timeline (handleModeChange value st)))
  /\ (forall id, Forall positive (timeline (removeMedia id st)))
  /\ (forall uuid asset audio,
        activeAudio st = Some audio ->
        isNaN (audioDuration audio) = false ->
        Forall positive (timeline (handleApplySimpleImage uuid asset st))).
Proof.
  intro Hpos.
  assert (Hadd : forall uuid asset,
            gt (clipDuration asset) (Fin 0) = true ->
            Forall positive (timeline (handleAddToTimeline uuid asset st))).
  { intros uuid asset Hd. unfold handleAddToTimeline, normalizeTimeline. simpl.
    apply normalizeFrom_positive. apply Forall_app. split; [exact Hpos|].
    constructor; [exact Hd | constructor]. }
  split; [exact Hadd|]. split.
  { intros uuid asset Hkind Hnan. apply Hadd. now apply image_duration_positive. }
  split.
  { intro id. unfold handleRemoveClip, normalizeTimeline. simpl.
    apply normalizeFrom_positive. now apply filter_positive. }
  split.
  { intros id d Hd. unfold handleDurationChange, normalizeTimeline. simpl.
    apply normalizeFrom_positive. apply Forall_forall. intros clip Hin.
    apply in_map_iff in Hin. destruct Hin as (orig & <- & Horig).
    destruct (String.eqb (TimelineClip.id orig) id); [exact Hd|].
    now apply (proj1 (Forall_forall _ _) Hpos). }
  split.
  { intros id tr. unfold handleTransitionChange. simpl.
    apply Forall_forall. intros clip Hin.
    apply in_map_iff in Hin. destruct Hin as (orig & <- & Horig).
    pose proof (proj1 (Forall_forall _ _) Hpos orig Horig) as Ho.
    now destruct (String.eqb (TimelineClip.id orig) id). }
  split.
  { intro value. unfold handleModeChange. destruct value; simpl; [|exact Hpos].
    destruct (1 <? Array.length (timeline st)); simpl; [|exact Hpos].
    apply Forall_forall. intros clip Hin.
    apply (proj1 (Forall_forall _ _) Hpos).
    destruct (timeline st) as [|c rest]; [destruct Hin|].
    simpl in Hin. destruct Hin as [<- | []]. now left. }
  split.
  { intro id. simpl. now apply filter_positive. }
  intros uuid asset audio Hact Hnan. unfold handleApplySimpleImage. rewrite Hact.
  simpl. constructor; [|constructor].
  unfold positive, gt. simpl.
  destruct (audioDuration audio) as [| | |A]; try discriminate; try reflexivity.
  cbn. destruct (Qlt_bool 1 A) eqn:E; cbn; qprop; lra.
Qed.

End PositiveDurations.

Lemma handlers_keep_positive_demo :
  Forall positive (AppState.timeline Demo.state)
  /\ Forall positive
       (AppState.timeline (handleAddToTimeline "clip-3" Studio.portraitAsset Demo.state))
  /\ Forall positive
       (AppState.timeline (handleDurationChange "clip-1" (Fin 5) Demo.state)).
Proof.
  assert (Hpos : Forall positive (AppState.timeline Demo.state))
    by exact demo_clips_positive.
  destruct (handlers_keep_durations_positive Demo.state Hpos)
    as (_ & Himage & _ & Hset & _).
  split; [exact Hpos|]. split.
  - apply Himage; [reflexivity | discriminate].
  - apply Hset. reflexivity.
Defined.
